(** * Ghost static generator: a shallow embedding of [ghost_static_generator.py]

    The development follows the class [ImprovedGhostStaticGenerator]:
    - [PyStr], [PosixPath]: the Python [str] methods and the [os.path]
      functions the generator calls, on ASCII strings;
    - [FS]: the output tree as a finite map from file paths to contents;
    - the interpreter-side libraries ([urllib.parse], BeautifulSoup, [re]) and
      the network are parameters, gathered in the classes [PyLib] and
      [Network];
    - the crawl ([scrape_site] and the methods it calls) is written in a
      state-and-exception monad over the generator's mutable fields;
    - the two post-crawl passes ([update_html_for_image_formats],
      [update_urls_in_all_files]) are functions on the output tree. *)

From Stdlib Require Import Ascii String List Bool Arith Lia.
From stdpp Require Import base option list gmap strings fin_maps fin_sets.


(* ===================================================================== *)
(** ** Python [str] methods *)
(* ===================================================================== *)

Module PyStr.

(** [s.startswith(p)] *)
Definition startswith (p s : string) : bool := String.prefix p s.

(** [s.endswith(suf)] *)
Fixpoint endswith (suf s : string) : bool :=
  String.eqb s suf ||
  match s with
  | EmptyString => false
  | String _ s' => endswith suf s'
  end.

(** [sub in s] *)
Fixpoint contains (sub s : string) : bool :=
  String.prefix sub s ||
  match s with
  | EmptyString => false
  | String _ s' => contains sub s'
  end.

(** [c in s] for a single character *)
Fixpoint has_char (c : ascii) (s : string) : bool :=
  match s with
  | EmptyString => false
  | String a s' => Ascii.eqb a c || has_char c s'
  end.

(** [s.lstrip(c)] for a one-character argument *)
Fixpoint lstrip (c : ascii) (s : string) : string :=
  match s with
  | EmptyString => EmptyString
  | String a s' => if Ascii.eqb a c then lstrip c s' else s
  end.

(** [s.rstrip(c)] for a one-character argument *)
Fixpoint rstrip (c : ascii) (s : string) : string :=
  match s with
  | EmptyString => EmptyString
  | String a s' =>
      match rstrip c s' with
      | EmptyString => if Ascii.eqb a c then EmptyString else String a EmptyString
      | r => String a r
      end
  end.

(** ASCII white space as [str.isspace] sees it. *)
Definition isspace (a : ascii) : bool :=
  let n := nat_of_ascii a in
  (Nat.leb 9 n && Nat.leb n 13) || (Nat.leb 28 n && Nat.leb n 32).

Fixpoint lstrip_ws (s : string) : string :=
  match s with
  | EmptyString => EmptyString
  | String a s' => if isspace a then lstrip_ws s' else s
  end.

Fixpoint rstrip_ws (s : string) : string :=
  match s with
  | EmptyString => EmptyString
  | String a s' =>
      match rstrip_ws s' with
      | EmptyString => if isspace a then EmptyString else String a EmptyString
      | r => String a r
      end
  end.

(** [s.strip()] *)
Definition strip (s : string) : string := rstrip_ws (lstrip_ws s).

(** [s.split(c)] for a one-character separator: never the empty list. *)
Fixpoint split (c : ascii) (s : string) : list string :=
  match s with
  | EmptyString => [EmptyString]
  | String a s' =>
      if Ascii.eqb a c then EmptyString :: split c s'
      else match split c s' with
           | [] => [String a EmptyString]
           | w :: ws => String a w :: ws
           end
  end.

(** [s.split()]: runs of white space separate, no empty words. *)
Fixpoint split_ws_go (cur : string) (s : string) : list string :=
  match s with
  | EmptyString =>
      match cur with EmptyString => [] | _ => [String.rev cur] end
  | String a s' =>
      if isspace a then
        match cur with
        | EmptyString => split_ws_go EmptyString s'
        | _ => String.rev cur :: split_ws_go EmptyString s'
        end
      else split_ws_go (String a cur) s'
  end.
Definition split_ws (s : string) : list string := split_ws_go EmptyString s.

(** [sep.join(l)] *)
Fixpoint join (sep : string) (l : list string) : string :=
  match l with
  | [] => EmptyString
  | [x] => x
  | x :: l' => x +:+ sep +:+ join sep l'
  end.

Definition lower_char (a : ascii) : ascii :=
  let n := nat_of_ascii a in
  if Nat.leb 65 n && Nat.leb n 90 then ascii_of_nat (n + 32) else a.

(** [s.lower()] *)
Fixpoint lower (s : string) : string :=
  match s with
  | EmptyString => EmptyString
  | String a s' => String (lower_char a) (lower s')
  end.

(** [s.replace(old, new)] for a non-empty [old]: occurrences are taken
    left to right and do not overlap; [skip] counts the characters of a
    matched occurrence that remain to be dropped. *)
Fixpoint replace_go (old new : string) (skip : nat) (s : string) : string :=
  match s with
  | EmptyString => EmptyString
  | String a s' =>
      match skip with
      | S k => replace_go old new k s'
      | O =>
          if String.prefix old s
          then new +:+ replace_go old new (String.length old - 1) s'
          else String a (replace_go old new 0 s')
      end
  end.

(** With an empty [old], Python puts [new] before every character and at
    the end. *)
Fixpoint intersperse (new s : string) : string :=
  match s with
  | EmptyString => new
  | String a s' => new +:+ String a (intersperse new s')
  end.

Definition replace (old new s : string) : string :=
  match old with
  | EmptyString => intersperse new s
  | _ => replace_go old new 0 s
  end.

End PyStr.

(* ===================================================================== *)
(** ** [os.path] on POSIX *)
(* ===================================================================== *)

Module PosixPath.

Definition sep : ascii := "/"%char.

(** [os.path.join(a, b)] *)
Definition join (a b : string) : string :=
  if PyStr.startswith "/" b then b
  else if String.eqb a "" || PyStr.endswith "/" a then a +:+ b
  else a +:+ "/" +:+ b.

(** The part of [p] after its last separator ([os.path.basename]). *)
Fixpoint basename (p : string) : string :=
  match p with
  | EmptyString => EmptyString
  | String a p' =>
      if PyStr.has_char sep p' then basename p'
      else if Ascii.eqb a sep then p' else p
  end.

(** [p[:p.rfind('/') + 1]] *)
Fixpoint head (p : string) : string :=
  match p with
  | EmptyString => EmptyString
  | String a p' =>
      if PyStr.has_char sep p' then String a (head p')
      else if Ascii.eqb a sep then String a EmptyString else EmptyString
  end.

(** [os.path.dirname(p)] *)
Definition dirname (p : string) : string :=
  let h := head p in
  match PyStr.rstrip sep h with
  | EmptyString => h
  | r => r
  end.

(** [genericpath._splitext] on a name without separators: the extension
    starts at the last dot, unless only dots precede it. *)
Fixpoint all_dots (s : string) : bool :=
  match s with
  | EmptyString => true
  | String a s' => Ascii.eqb a "."%char && all_dots s'
  end.

Fixpoint splitext_name (seen : string) (s : string) : string * string :=
  match s with
  | EmptyString => (EmptyString, EmptyString)
  | String a s' =>
      if Ascii.eqb a "."%char && negb (PyStr.has_char "."%char s')
      then if all_dots seen then (s, EmptyString) else (EmptyString, s)
      else let '(r, e) := splitext_name (String a seen) s' in (String a r, e)
  end.

(** [os.path.splitext(p)] *)
Definition splitext (p : string) : string * string :=
  let '(r, e) := splitext_name EmptyString (basename p) in
  (head p +:+ r, e).

End PosixPath.

(* ===================================================================== *)
(** ** The output tree *)
(* ===================================================================== *)

(** Regular files by path; a directory exists when a file lies below it.
    Paths are compared as written (no links, no [.] or [..] folding, no
    merging of doubled separators): the tree stands for the disk when
    its paths are in normal form, which the statements on [below],
    [exists_] and [walk] assume where it matters. *)
Module FS.

Definition is_file (fs : gmap string string) (p : string) : bool :=
  bool_decide (is_Some (fs !! p)).

Definition below (d k : string) : bool :=
  String.prefix (PyStr.rstrip PosixPath.sep d +:+ "/") k.

Definition is_dir (fs : gmap string string) (p : string) : bool :=
  existsb (below p) (map fst (map_to_list fs)).

(** [os.path.exists] *)
Definition exists_ (fs : gmap string string) (p : string) : bool :=
  is_file fs p || is_dir fs p.

(** The directories a path lies in: [p = d ++ "/" ++ rest], [d] not empty. *)
Fixpoint ancestors_go (seen : string) (p : string) : list string :=
  match p with
  | EmptyString => []
  | String a p' =>
      (if Ascii.eqb a PosixPath.sep
       then match seen with EmptyString => [] | _ => [String.rev seen] end
       else [])
      ++ ancestors_go (String a seen) p'
  end.
Definition ancestors (p : string) : list string := ancestors_go EmptyString p.

(** [os.makedirs(dirname(p), exist_ok=True)] followed by opening [p] for
    writing: refused when [p] names no file (it is empty or ends in a
    separator), when a directory on the way is a regular file, or when
    [p] itself is a directory; otherwise the file is (re)written. *)
Definition write (fs : gmap string string) (p c : string)
  : option (gmap string string) :=
  if String.eqb p "" || PyStr.endswith "/" p
     || existsb (is_file fs) (ancestors p) || is_dir fs p then None
  else Some (<[p := c]> fs).

(** The files [os.walk(root)] reports, with their contents. *)
Definition walk (fs : gmap string string) (root : string)
  : list (string * string) :=
  filter (λ kc, below root kc.1 = true) (map_to_list fs).

End FS.

(* ===================================================================== *)
(** ** Parsed markup *)
(* ===================================================================== *)

(** A BeautifulSoup tree: tags with their attribute dictionary (in
    insertion order) and children, and text nodes. *)
#[warnings="-register-all"] Inductive node : Type :=
| Tag (name : string) (attrs : list (string * string)) (children : list node)
| NavigableString (text : string).

Module Soup.

(** [tag.get(key)] *)
Fixpoint get (key : string) (attrs : list (string * string)) : option string :=
  match attrs with
  | [] => None
  | (k, v) :: rest => if String.eqb k key then Some v else get key rest
  end.

(** [tag[key] = value]: an existing key keeps its place. *)
Fixpoint set (key value : string) (attrs : list (string * string))
  : list (string * string) :=
  match attrs with
  | [] => [(key, value)]
  | (k, v) :: rest =>
      if String.eqb k key then (k, value) :: rest
      else (k, v) :: set key value rest
  end.

(** Python truthiness of an optional string. *)
Definition truthy (o : option string) : bool :=
  match o with
  | Some (String _ _) => true
  | _ => false
  end.

(** [a or b] on optional strings. *)
Definition or_ (a b : option string) : option string :=
  if truthy a then a else b.

(** [a or tag.get(key, '')] *)
Definition or_default (a b : option string) : string :=
  if truthy a then default "" a else default "" b.

(** Every tag of the tree, parents before children, left to right
    ([soup.find_all(True)]); a tag is given by its name, attributes and
    children. *)
Fixpoint descendants (n : node) : list (string * list (string * string) * list node) :=
  match n with
  | NavigableString _ => []
  | Tag nm at_ ch =>
      (nm, at_, ch) ::
      (fix go (l : list node) :=
         match l with
         | [] => []
         | c :: l' => descendants c ++ go l'
         end) ch
  end.

Definition all_tags (soup : list node) : list (string * list (string * string) * list node) :=
  flat_map descendants soup.

(** [soup.find_all(names)] *)
Definition find_all (names : list string) (soup : list node)
  : list (string * list (string * string) * list node) :=
  filter (λ t, existsb (String.eqb t.1.1) names = true) (all_tags soup).

(** [soup.find_all(name, key=True)] *)
Definition find_all_with (name key : string) (soup : list node) :=
  filter (λ t, String.eqb t.1.1 name && bool_decide (is_Some (get key t.1.2)) = true)
         (all_tags soup).

(** [soup.find_all(key=True)] *)
Definition find_all_having (key : string) (soup : list node) :=
  filter (λ t, bool_decide (is_Some (get key t.1.2)) = true) (all_tags soup).

(** [soup.find_all(name, key=values)] for a single-valued attribute *)
Definition find_all_attr_in (name key : string) (values : list string) (soup : list node) :=
  filter (λ t, String.eqb t.1.1 name &&
               match get key t.1.2 with
               | Some v => existsb (String.eqb v) values
               | None => false
               end = true)
         (all_tags soup).

(** [soup.find_all(name, rel=value)]: [rel] holds a list of tokens, the
    tag matches when one of them, or the whole value, is [value]. *)
Definition find_all_rel (name value : string) (soup : list node) :=
  filter (λ t, String.eqb t.1.1 name &&
               match get "rel" t.1.2 with
               | Some v => String.eqb v value || existsb (String.eqb value) (PyStr.split_ws v)
               | None => false
               end = true)
         (all_tags soup).

(** [tag.string]: the text of a tag whose only child is a text node, or
    the [.string] of its only child. *)
Fixpoint string_of (n : node) : option string :=
  match n with
  | NavigableString s => Some s
  | Tag _ _ [c] => string_of c
  | Tag _ _ _ => None
  end.

Definition tag_string (ch : list node) : option string :=
  match ch with
  | [c] => string_of c
  | _ => None
  end.

(** Rewrite the attributes of every tag of the tree. *)
Fixpoint map_attrs (f : string → list (string * string) → list (string * string))
    (n : node) : node :=
  match n with
  | NavigableString s => NavigableString s
  | Tag nm at_ ch => Tag nm (f nm at_) (map (map_attrs f) ch)
  end.

End Soup.

(* ===================================================================== *)
(** ** Libraries and the network *)
(* ===================================================================== *)

(** The six components of [urllib.parse.urlparse]'s result. *)
Record ParseResult : Type := mkParse {
  scheme : string;
  netloc : string;
  path : string;
  params : string;
  query : string;
  fragment : string
}.

(** The library functions the generator calls.  [urlparse] and [urljoin]
    answer [None] where the library raises [ValueError]; [re_css_urls] is
    [re.findall] with the pattern for CSS url references (its one group),
    [re_resource_paths] the second groups of the matches of the resource
    pattern of [scrape_iframe_content]. *)
Class PyLib : Type := {
  urlparse : string → option ParseResult;
  urljoin : string → string → option string;
  parse_html : string → list node;
  soup_str : list node → string;
  re_css_urls : string → list string;
  re_resource_paths : string → list string
}.

(** What [requests.get] gave back: the status, the [content-type] header
    (empty when absent), the decoded text and the raw content. *)
Record Response : Type := mkResponse {
  status_code : nat;
  content_type : string;
  text : string;
  content : string
}.

Inductive fetch_result : Type :=
| TransportFailure
| Responded (r : Response).

(** The origin server: the answer to a request may depend on the moment
    it is made (the number of events before it). *)
Class Network : Type := {
  requests_get : nat → string → fetch_result
}.

(** The fields of the generator set by [__init__] and never assigned again. *)
Record Generator : Type := mkGenerator {
  source_url : string;
  target_url : string;
  repo_path : string
}.

Definition public_dir (self : Generator) : string :=
  PosixPath.join (repo_path self) "public".

(** ** Observable events and the mutable state *)

(** The place of a [requests.get] call in the source. *)
Inductive call_site : Type :=
| AtScrapeUrl | AtMetaImages | AtImageSizes | AtIframe.

Inductive level : Type := INFO | WARNING | ERROR.

Inductive event : Type :=
| Request (at_ : call_site) (url : string)
| Sleep (milliseconds : nat)
| Log (lv : level) (msg : string) (arg : string).

Global Instance call_site_eq_dec : EqDecision call_site.
Proof. solve_decision. Defined.
Global Instance level_eq_dec : EqDecision level.
Proof. solve_decision. Defined.
Global Instance event_eq_dec : EqDecision event.
Proof. solve_decision. Defined.

(** [visited_urls], [file_urls], the output tree and the events so far,
    the latest first. *)
Record State : Type := mkState {
  visited_urls : gset string;
  file_urls : gset string;
  fs : gmap string string;
  trace : list event
}.

Inductive exn : Type :=
| RequestException
| ValueError
| KeyError
| OSError.

(** A call returns, raises, or is cut off by the bound on nested calls. *)
Inductive Outcome (A : Type) : Type :=
| Done (a : A) (s : State)
| Raised (e : exn) (s : State)
| OutOfFuel (s : State).
Arguments Done {A} a s.
Arguments Raised {A} e s.
Arguments OutOfFuel {A} s.

Definition final {A} (o : Outcome A) : State :=
  match o with
  | Done _ s | Raised _ s | OutOfFuel s => s
  end.

Definition M (A : Type) : Type := State → Outcome A.

Definition ret {A} (a : A) : M A := λ s, Done a s.

Definition bind {A B} (m : M A) (f : A → M B) : M B :=
  λ s, match m s with
       | Done a s' => f a s'
       | Raised e s' => Raised e s'
       | OutOfFuel s' => OutOfFuel s'
       end.

Notation "x <- m ;; k" := (bind m (λ x, k))
  (at level 100, m at next level, right associativity,
   format "'[v' x  <-  m  ;;  '/' k ']'").
Notation "m ;;; k" := (bind m (λ _, k))
  (at level 100, right associativity, format "'[v' m  ;;;  '/' k ']'").

Definition raise {A} (e : exn) : M A := λ s, Raised e s.
Definition out_of_fuel {A} : M A := λ s, OutOfFuel s.
Definition get_state : M State := λ s, Done s s.
Definition modify (f : State → State) : M unit := λ s, Done tt (f s).

(** A library call that answers [None] raises [e]. *)
Definition lift {A} (e : exn) (o : option A) : M A :=
  match o with
  | Some a => ret a
  | None => raise e
  end.

(** [try: m  except RequestException: h] *)
Definition try_request {A} (m : M A) (h : M A) : M A :=
  λ s, match m s with
       | Raised RequestException s' => h s'
       | o => o
       end.

(** [try: m  except RequestException: h1  except Exception: h2] *)
Definition try_all {A} (m : M A) (h1 h2 : M A) : M A :=
  λ s, match m s with
       | Raised RequestException s' => h1 s'
       | Raised _ s' => h2 s'
       | o => o
       end.

(** [for x in xs: f x] *)
Fixpoint for_each {A} (xs : list A) (f : A → M unit) : M unit :=
  match xs with
  | [] => ret tt
  | x :: xs' => f x ;;; for_each xs' f
  end.

Definition when (b : bool) (m : M unit) : M unit :=
  if b then m else ret tt.

Definition emit (e : event) : M unit :=
  modify (λ s, mkState (visited_urls s) (file_urls s) (fs s) (e :: trace s)).

Definition logging (lv : level) (msg arg : string) : M unit :=
  emit (Log lv msg arg).

(** [time.sleep(0.1)] *)
Definition time_sleep : M unit := emit (Sleep 100).

(* ===================================================================== *)
(** ** The generator's methods *)
(* ===================================================================== *)

Section Generator.

Context `{PyLib} `{Network}.
Variable self : Generator.

(** [update_url] and [update_all_urls]: plain substring replacement. *)
Definition update_url (url : string) : string :=
  PyStr.replace (source_url self) (target_url self) url.

Definition update_all_urls (content : string) : string :=
  PyStr.replace (source_url self) (target_url self) content.

(** [is_same_domain]; [None] when [urlparse] raises. *)
Definition is_same_domain (url : string) : option bool :=
  p ← urlparse url;
  q ← urlparse (source_url self);
  Some (String.eqb (netloc p) (netloc q)).

(** The path [save_file] writes to (its lines up to [os.path.join]). *)
Definition save_path (url : string) : option string :=
  parsed_url ← urlparse url;
  let relative_path := PyStr.lstrip "/" (path parsed_url) in
  let relative_path :=
    if String.eqb relative_path "" then "index.html"
    else if PyStr.endswith "/" relative_path then relative_path +:+ "index.html"
    else relative_path in
  Some (PosixPath.join (public_dir self) relative_path).

Definition set_fs (fs' : gmap string string) (s : State) : State :=
  mkState (visited_urls s) (file_urls s) fs' (trace s).

(** [save_file]: [extension] is not used by the body, [is_binary] only
    selects the mode the file is opened in. *)
Definition save_file (url content extension : string) (is_binary : bool) : M unit :=
  file_path <- lift ValueError (save_path url) ;;
  s <- get_state ;;
  fs' <- lift OSError (FS.write (fs s) file_path content) ;;
  modify (set_fs fs') ;;;
  logging INFO "Saved" file_path.

(** [requests.get(url, timeout=30)] at the given place of the source. *)
Definition http_get (at_ : call_site) (url : string) : M Response :=
  s <- get_state ;;
  emit (Request at_ url) ;;;
  match requests_get (length (trace s)) url with
  | TransportFailure => raise RequestException
  | Responded r => ret r
  end.

(** [response.raise_for_status()]: client and server error statuses. *)
Definition is_error_status (code : nat) : bool :=
  Nat.leb 400 code && Nat.ltb code 600.

Definition raise_for_status (r : Response) : M unit :=
  if is_error_status (status_code r) then raise RequestException else ret tt.

Definition add_visited (url : string) (s : State) : State :=
  mkState ({[url]} ∪ visited_urls s) (file_urls s) (fs s) (trace s).

Definition add_file_url (url : string) (s : State) : State :=
  mkState (visited_urls s) ({[url]} ∪ file_urls s) (fs s) (trace s).

(** The block that [scrape_meta_images] and [scrape_image_sizes] (twice)
    run on an image URL; the three copies differ in the words logged. *)
Definition fetch_image (at_ : call_site) (what img_url : string) : M unit :=
  try_request
    (img_response <- http_get at_ img_url ;;
     if Nat.eqb (status_code img_response) 200 then
       modify (add_file_url img_url) ;;;
       save_file img_url (content img_response)
                 (PosixPath.splitext img_url).2 true ;;;
       logging INFO ("Scraped " +:+ what) img_url
     else
       logging WARNING ("Failed to scrape " +:+ what) img_url)
    (logging WARNING ("Failed to scrape " +:+ what) img_url).

(** The first lines of [scrape_meta_images] and [scrape_image_sizes]:
    fetch the page again and parse it; [None] after a logged failure. *)
Definition refetch_soup (at_ : call_site) (url : string) : M (option (list node)) :=
  try_request
    (response <- http_get at_ url ;;
     raise_for_status response ;;;
     ret (Some (parse_html (text response))))
    (logging ERROR "Error fetching URL" url ;;; ret None).

Definition scrape_meta_images (url : string) : M unit :=
  r <- refetch_soup AtMetaImages url ;;
  match r with
  | None => ret tt
  | Some soup =>
      for_each (Soup.find_all_attr_in "meta" "property"
                  ["og:image"; "twitter:image"] soup)
        (λ meta,
           let img_url := Soup.get "content" meta.1.2 in
           if Soup.truthy img_url then
             same <- lift ValueError (is_same_domain (default "" img_url)) ;;
             when same (fetch_image AtMetaImages "meta image" (default "" img_url))
           else ret tt)
  end.

(** [[s.split()[0] for s in srcset.split(',') if s.strip()]] *)
Definition srcset_urls (srcset : string) : list string :=
  omap (λ s, match PyStr.strip s with
             | EmptyString => None
             | _ => head (PyStr.split_ws s)
             end)
       (PyStr.split ","%char srcset).

Definition scrape_image_sizes (url : string) : M unit :=
  r <- refetch_soup AtImageSizes url ;;
  match r with
  | None => ret tt
  | Some soup =>
      for_each (Soup.find_all ["img"; "source"] soup)
        (λ img,
           let srcset := Soup.or_default (Soup.get "srcset" img.1.2)
                                         (Soup.get "data-srcset" img.1.2) in
           let src := Soup.or_default (Soup.get "src" img.1.2)
                                      (Soup.get "data-src" img.1.2) in
           let all_urls :=
             (match src with EmptyString => [] | _ => [src] end)
             ++ srcset_urls srcset in
           for_each all_urls
             (λ img_url,
                match img_url with
                | EmptyString => ret tt
                | _ =>
                    same <- lift ValueError (is_same_domain img_url) ;;
                    when same (fetch_image AtImageSizes "image" img_url)
                end)) ;;;
      for_each (Soup.find_all_having "style" soup)
        (λ tag,
           let style := default "" (Soup.get "style" tag.1.2) in
           for_each (re_css_urls style)
             (λ img_url,
                same <- lift ValueError (is_same_domain img_url) ;;
                when same (fetch_image AtImageSizes "background image" img_url)))
  end.

(** [new_url = urljoin(base, ref)], then [scrape_url(new_url)] when it
    is on the source's domain: the step every tag scan of
    [process_html] and [scrape_iframe_content] ends in. *)
Definition follow (scrape_url : string → M unit) (base ref : string) : M unit :=
  new_url <- lift ValueError (urljoin base ref) ;;
  same <- lift ValueError (is_same_domain new_url) ;;
  when same (scrape_url new_url).

Definition scrape_iframe_content (scrape_url : string → M unit)
    (iframe_src : string) : M unit :=
  same <- lift ValueError (is_same_domain iframe_src) ;;
  if negb same then ret tt else
  try_request
    (response <- http_get AtIframe iframe_src ;;
     raise_for_status response ;;;
     let iframe_content := text response in
     save_file iframe_src iframe_content ".html" false ;;;
     let iframe_soup := parse_html iframe_content in
     for_each (Soup.find_all_with "script" "src" iframe_soup)
       (λ script, follow scrape_url iframe_src
                    (default "" (Soup.get "src" script.1.2))) ;;;
     for_each (Soup.find_all_rel "link" "stylesheet" iframe_soup)
       (λ link,
          href <- lift KeyError (Soup.get "href" link.1.2) ;;
          follow scrape_url iframe_src href) ;;;
     for_each (Soup.find_all_with "img" "src" iframe_soup)
       (λ img, follow scrape_url iframe_src
                 (default "" (Soup.get "src" img.1.2))) ;;;
     for_each (re_resource_paths iframe_content)
       (follow scrape_url iframe_src))
    (logging ERROR "Error fetching iframe content from" iframe_src).

(** The [src] an [iframe] tag carries when [process_html] serialises
    the tree again: the target form of its resolved URL when that URL
    is on the source's domain. *)
Definition rewrite_iframe (url : string) (name : string)
    (attrs : list (string * string)) : list (string * string) :=
  if String.eqb name "iframe" && Soup.truthy (Soup.get "src" attrs) then
    match urljoin url (default "" (Soup.get "src" attrs)) with
    | Some iframe_url =>
        match is_same_domain iframe_url with
        | Some true => Soup.set "src" (update_url iframe_url) attrs
        | _ => attrs
        end
    | None => attrs
    end
  else attrs.

Definition process_html (scrape_url : string → M unit)
    (url html_content : string) : M unit :=
  save_file url html_content ".html" false ;;;
  let soup := parse_html html_content in
  for_each (Soup.find_all ["a"; "link"; "script"; "img"; "source"] soup)
    (λ tag,
       let attr := Soup.or_ (Soup.or_ (Soup.get "href" tag.1.2)
                                      (Soup.get "src" tag.1.2))
                            (Soup.get "data-src" tag.1.2) in
       if Soup.truthy attr then follow scrape_url url (default "" attr)
       else ret tt) ;;;
  for_each (Soup.find_all ["iframe"] soup)
    (λ iframe,
       let iframe_src := Soup.get "src" iframe.1.2 in
       if Soup.truthy iframe_src then
         iframe_url <- lift ValueError (urljoin url (default "" iframe_src)) ;;
         same <- lift ValueError (is_same_domain iframe_url) ;;
         when same (scrape_iframe_content scrape_url iframe_url)
       else ret tt) ;;;
  for_each (Soup.find_all ["style"] soup)
    (λ style,
       let css_content := Soup.tag_string style.2 in
       if Soup.truthy css_content then
         for_each (re_css_urls (default "" css_content)) (follow scrape_url url)
       else ret tt) ;;;
  for_each (Soup.find_all_having "style" soup)
    (λ tag,
       for_each (re_css_urls (default "" (Soup.get "style" tag.1.2)))
                (follow scrape_url url)) ;;;
  let updated_html := soup_str (map (Soup.map_attrs (rewrite_iframe url)) soup) in
  save_file url updated_html ".html" false.

(** [save_file(url, response.content,
    os.path.splitext(urlparse(url).path)[1], is_binary=True)] *)
Definition save_response (url : string) (response : Response) : M unit :=
  parsed_url <- lift ValueError (urlparse url) ;;
  save_file url (content response) (PosixPath.splitext (path parsed_url)).2 true.

(** The body of [scrape_url]; [scrape_url] stands for the nested calls. *)
Definition scrape_url_body (scrape_url : string → M unit) (url : string) : M unit :=
  s <- get_state ;;
  if bool_decide (url ∈ visited_urls s) then ret tt else
  modify (add_visited url) ;;;
  try_all
    (response <- http_get AtScrapeUrl url ;;
     raise_for_status response ;;;
     let content_type := PyStr.lower (content_type response) in
     if PyStr.contains "text/html" content_type then
       process_html scrape_url url (text response) ;;;
       scrape_image_sizes url ;;;
       scrape_meta_images url
     else if PyStr.contains "image" content_type then
       modify (add_file_url url) ;;;
       save_response url response
     else if existsb (λ type, PyStr.contains type content_type)
                     ["text/css"; "javascript"; "application"] then
       modify (add_file_url url) ;;;
       save_response url response
     else
       logging INFO "Saving file with content-type" url ;;;
       save_response url response)
    (logging ERROR "Error fetching" url)
    (logging ERROR "Unexpected error scraping" url) ;;;
  time_sleep.

(** [scrape_url], with a bound on the depth of nested calls. *)
Fixpoint scrape_url (fuel : nat) (url : string) : M unit :=
  match fuel with
  | O => out_of_fuel
  | S n => scrape_url_body (scrape_url n) url
  end.

Definition root_files : list string :=
  ["favicon.ico"; "robots.txt"; "sitemap.xml"; "sitemap-authors.xml";
   "sitemap-pages.xml"; "sitemap-posts.xml"; "sitemap-tags.xml"].

Definition scrape_root_files (fuel : nat) : M unit :=
  for_each root_files
    (λ file,
       url <- lift ValueError (urljoin (source_url self) file) ;;
       scrape_url fuel url).

Definition scrape_site (fuel : nat) : M unit :=
  scrape_url fuel (source_url self) ;;;
  scrape_root_files fuel.

End Generator.

(* ===================================================================== *)
(** ** The passes over the saved tree *)
(* ===================================================================== *)

(** [re.sub(r'\.[^.]+$', '.' + ext, s)] on a string without line breaks:
    the last dot and what follows it are replaced, when something follows. *)
Fixpoint replace_ext (ext : string) (s : string) : string :=
  match s with
  | EmptyString => EmptyString
  | String a s' =>
      if Ascii.eqb a "."%char && negb (PyStr.has_char "."%char s')
         && negb (String.eqb s' "")
      then "." +:+ ext
      else String a (replace_ext ext s')
  end.

Section Passes.

Context `{PyLib}.
Variable self : Generator.

(** [url_to_local_path]: the outer [None] is a [ValueError] of
    [urlparse], the inner one Python's [None]. *)
Definition url_to_local_path (url : string) : option (option string) :=
  if PyStr.startswith "/" url then
    Some (Some (PosixPath.join (public_dir self) (PyStr.lstrip "/" url)))
  else
    parsed_url ← urlparse url;
    foreign ←
      (match netloc parsed_url with
       | EmptyString => Some false
       | nl =>
           src ← urlparse (source_url self);
           tgt ← urlparse (target_url self);
           Some (negb (existsb (String.eqb nl) [netloc src; netloc tgt]))
       end);
    if foreign : bool then Some None
    else Some (Some (PosixPath.join (public_dir self)
                       (PyStr.lstrip "/" (path parsed_url)))).

(** One turn of the loop over the entries of [original_srcset] in
    [update_html_for_image_formats]: [srcset] is the list built so far. *)
Definition add_candidate (fs : gmap string string) (format_ext : string)
    (srcset : list string) (src_entry : string) : option (list string) :=
  let src_entry := PyStr.strip src_entry in
  match src_entry with
  | EmptyString => Some srcset
  | _ =>
      match PyStr.split_ws src_entry with
      | [orig_src; width] =>
          let new_src := replace_ext format_ext orig_src in
          local_path ← url_to_local_path new_src;
          match local_path with
          | Some (String a p) =>
              if FS.exists_ fs (String a p)
              then Some (srcset ++ [update_url self new_src +:+ " " +:+ width])
              else Some srcset
          | _ => Some srcset
          end
      | _ => Some srcset
      end
  end.

(** The list [srcset] after the loop, for one format. *)
Fixpoint format_srcset_from (fs : gmap string string) (format_ext : string)
    (srcset : list string) (entries : list string) : option (list string) :=
  match entries with
  | [] => Some srcset
  | e :: rest =>
      srcset' ← add_candidate fs format_ext srcset e;
      format_srcset_from fs format_ext srcset' rest
  end.

Definition format_srcset (fs : gmap string string) (format_ext : string)
    (original_srcset : string) : option (list string) :=
  format_srcset_from fs format_ext [] (PyStr.split ","%char original_srcset).

(** The [source] tag made for one format, if any. *)
Definition format_source (fs : gmap string string)
    (format : string * string) (original_srcset sizes : string)
  : option (option node) :=
  srcset ← format_srcset fs format.1 original_srcset;
  match srcset with
  | [] => Some None
  | _ =>
      let attrs := [("type", format.2); ("srcset", PyStr.join ", " srcset)] in
      let attrs := match sizes with
                   | EmptyString => attrs
                   | _ => attrs ++ [("sizes", sizes)]
                   end in
      Some (Some (Tag "source" attrs []))
  end.

Definition formats : list (string * string) :=
  [("webp", "image/webp"); ("avif", "image/avif"); ("jxl", "image/jxl")].

(** The children [picture] has before the [img]: every new [source] is
    inserted at position 0, so the last format comes first. *)
Fixpoint picture_sources (fs : gmap string string) (fmts : list (string * string))
    (original_srcset sizes : string) (inserted : list node) : option (list node) :=
  match fmts with
  | [] => Some inserted
  | f :: rest =>
      source ← format_source fs f original_srcset sizes;
      picture_sources fs rest original_srcset sizes
        (match source with Some t => t :: inserted | None => inserted end)
  end.

(** The new value of [img['srcset']]. *)
Definition rewrite_srcset (original_srcset : string) : string :=
  PyStr.join ", "
    (map (λ s, match PyStr.split_ws s with
               | u :: d :: _ => update_url self u +:+ " " +:+ d
               | _ => update_url self s
               end)
         (PyStr.split ","%char original_srcset)).

(** The attributes of an [img] after the loop body. *)
Definition img_attrs (src : string) (attrs : list (string * string))
  : list (string * string) :=
  let original_srcset := Soup.or_default (Soup.get "srcset" attrs)
                                         (Soup.get "data-srcset" attrs) in
  let attrs := Soup.set "src" (update_url self src) attrs in
  let attrs := match original_srcset with
               | EmptyString => attrs
               | _ => Soup.set "srcset" (rewrite_srcset original_srcset) attrs
               end in
  Soup.set "loading" "lazy" attrs.

(** The loop over [soup.find_all('img')]: an [img] with a source is
    replaced by a [picture] that holds the new [source] tags and the
    [img]. *)
Fixpoint wrap_images (fs : gmap string string) (n : node) : option node :=
  match n with
  | NavigableString s => Some (NavigableString s)
  | Tag nm attrs ch =>
      ch' ← (fix go (l : list node) : option (list node) :=
               match l with
               | [] => Some []
               | c :: l' => c' ← wrap_images fs c; r ← go l'; Some (c' :: r)
               end) ch;
      let src := Soup.or_ (Soup.get "src" attrs) (Soup.get "data-src" attrs) in
      if String.eqb nm "img" && Soup.truthy src then
        let original_srcset := Soup.or_default (Soup.get "srcset" attrs)
                                               (Soup.get "data-srcset" attrs) in
        let sizes := default "" (Soup.get "sizes" attrs) in
        sources ← picture_sources fs formats original_srcset sizes [];
        Some (Tag "picture" []
                (sources ++ [Tag nm (img_attrs (default "" src) attrs) ch']))
      else Some (Tag nm attrs ch')
  end.

(** [og_image['content'] = update_url(og_image['content'])] on the first
    [meta] tag with [property="og:image"]; [found] tells that it has been
    met already, [None] is the [KeyError] of a tag without [content]. *)
Fixpoint update_og_image (found : bool) (n : node) : option (bool * node) :=
  match n with
  | NavigableString s => Some (found, NavigableString s)
  | Tag nm attrs ch =>
      let is_og := negb found && String.eqb nm "meta" &&
                   bool_decide (Soup.get "property" attrs = Some "og:image") in
      attrs' ← (if is_og then
                  c ← Soup.get "content" attrs;
                  Some (Soup.set "content" (update_url self c) attrs)
                else Some attrs);
      r ← (fix go (fnd : bool) (l : list node) {struct l} : option (bool * list node) :=
             match l with
             | [] => Some (fnd, [])
             | c :: l' =>
                 x ← update_og_image fnd c;
                 y ← go x.1 l';
                 Some (y.1, x.2 :: y.2)
             end) (found || is_og) ch;
      Some (r.1, Tag nm attrs' r.2)
  end.

Fixpoint update_og_images (found : bool) (soup : list node) : option (list node) :=
  match soup with
  | [] => Some []
  | n :: rest =>
      x ← update_og_image found n;
      r ← update_og_images x.1 rest;
      Some (x.2 :: r)
  end.

(** What [update_html_for_image_formats] writes back for one HTML file;
    [None] when the body raises. *)
Definition augment_html (fs : gmap string string) (content : string) : option string :=
  soup ← update_og_images false (parse_html content);
  soup' ← mapM (wrap_images fs) soup;
  Some (update_all_urls self (soup_str soup')).

(** [update_html_for_image_formats]: the files are independent of each
    other (images and pages have different extensions), the walk order
    shows only in the logs; [None] when some file makes the body raise.
    As in [update_file], the text read is taken to be the stored
    content. *)
Definition update_html_for_image_formats (fs : gmap string string)
  : option (gmap string string) :=
  foldr (λ kc acc,
           fs' ← acc;
           if PyStr.endswith ".html" (PosixPath.basename kc.1) then
             c ← augment_html fs kc.2;
             Some (<[kc.1 := c]> fs')
           else Some fs')
        (Some fs) (FS.walk fs (public_dir self)).

(** The extensions [update_urls_in_all_files] handles. *)
Definition text_extensions : list string :=
  [".html"; ".xml"; ".css"; ".js"; ".json"].

Definition file_extension (file_path : string) : string :=
  PyStr.lower (PosixPath.splitext (PosixPath.basename file_path)).2.

Definition update_iframe_src (name : string) (attrs : list (string * string))
  : list (string * string) :=
  if String.eqb name "iframe" && Soup.truthy (Soup.get "src" attrs)
  then Soup.set "src" (update_url self (default "" (Soup.get "src" attrs))) attrs
  else attrs.

(** [updated_content] for a file with one of the handled extensions. *)
Definition updated_content (file_path content : string) : string :=
  let updated := update_all_urls self content in
  if String.eqb (file_extension file_path) ".html"
  then soup_str (map (Soup.map_attrs update_iframe_src) (parse_html updated))
  else updated.

Definition handled (file_path : string) : bool :=
  existsb (String.eqb (file_extension file_path)) text_extensions.

(** One turn of the loop of [update_urls_in_all_files]: the tree and the
    paths written so far.  The text the loop reads is taken to be the
    stored content, which is so for ASCII contents without carriage
    return; on other contents [open] in text mode translates line ends
    or raises [UnicodeDecodeError]. *)
Definition update_file (acc : gmap string string * list string)
    (kc : string * string) : gmap string string * list string :=
  if handled kc.1 then
    let updated := updated_content kc.1 kc.2 in
    if bool_decide (updated ≠ kc.2)
    then (<[kc.1 := updated]> acc.1, kc.1 :: acc.2)
    else acc
  else acc.

(** [update_urls_in_all_files]: the tree afterwards and the files
    written. *)
Definition update_urls_in_all_files (fs : gmap string string)
  : gmap string string * list string :=
  foldl update_file (fs, []) (FS.walk fs (public_dir self)).

End Passes.

(* ===================================================================== *)
(** ** A reference instance of the libraries *)
(* ===================================================================== *)

(** [urllib.parse] as CPython 3.11 defines it, for ASCII URLs whose host
    is not bracketed (on a bracketed host this model answers [None], as the
    library does on the malformed ones).  The properties of the generator
    are proved for every [PyLib]; this instance serves the examples. *)
Module Urllib.

Definition is_alpha (a : ascii) : bool :=
  let n := nat_of_ascii a in
  (Nat.leb 65 n && Nat.leb n 90) || (Nat.leb 97 n && Nat.leb n 122).

Definition is_scheme_char (a : ascii) : bool :=
  let n := nat_of_ascii a in
  is_alpha a || (Nat.leb 48 n && Nat.leb n 57)
  || Ascii.eqb a "+"%char || Ascii.eqb a "-"%char || Ascii.eqb a "."%char.

Fixpoint forall_chars (p : ascii → bool) (s : string) : bool :=
  match s with
  | EmptyString => true
  | String a s' => p a && forall_chars p s'
  end.

(** [s.partition(c)]: the text before the first [c], and the text after
    it when there is one. *)
Fixpoint partition (c : ascii) (s : string) : string * option string :=
  match s with
  | EmptyString => (EmptyString, None)
  | String a s' =>
      if Ascii.eqb a c then (EmptyString, Some s')
      else let '(b, r) := partition c s' in (String a b, r)
  end.

(** The longest prefix without a character of [stop], and the rest. *)
Fixpoint break (stop : ascii → bool) (s : string) : string * string :=
  match s with
  | EmptyString => (EmptyString, EmptyString)
  | String a s' =>
      if stop a then (EmptyString, s)
      else let '(b, r) := break stop s' in (String a b, r)
  end.

Fixpoint lstrip_c0 (s : string) : string :=
  match s with
  | EmptyString => EmptyString
  | String a s' => if Nat.leb (nat_of_ascii a) 32 then lstrip_c0 s' else s
  end.

Fixpoint remove_unsafe (s : string) : string :=
  match s with
  | EmptyString => EmptyString
  | String a s' =>
      let n := nat_of_ascii a in
      if Nat.eqb n 9 || Nat.eqb n 10 || Nat.eqb n 13 then remove_unsafe s'
      else String a (remove_unsafe s')
  end.

Definition uses_relative : list string :=
  [""; "ftp"; "http"; "gopher"; "nntp"; "imap"; "wais"; "file"; "https";
   "shttp"; "mms"; "prospero"; "rtsp"; "rtspu"; "sftp"; "svn"; "svn+ssh";
   "ws"; "wss"].

Definition uses_netloc : list string :=
  [""; "ftp"; "http"; "gopher"; "nntp"; "telnet"; "imap"; "wais"; "file";
   "mms"; "https"; "shttp"; "snews"; "prospero"; "rtsp"; "rtspu"; "rsync";
   "svn"; "svn+ssh"; "sftp"; "nfs"; "git"; "git+ssh"; "ws"; "wss"].

Definition uses_params : list string :=
  [""; "ftp"; "hdl"; "prospero"; "http"; "imap"; "https"; "shttp"; "rtsp";
   "rtspu"; "sip"; "sips"; "mms"; "sftp"; "tel"].

Definition mem (s : string) (l : list string) : bool := existsb (String.eqb s) l.

(** [urlsplit(url, scheme)]: scheme, netloc, path, query, fragment. *)
Definition urlsplit (url default_scheme : string)
  : option (string * string * string * string * string) :=
  let url := remove_unsafe (lstrip_c0 url) in
  let '(sch, url) :=
    match partition ":"%char url with
    | (String a b, Some rest) =>
        if is_alpha a && forall_chars is_scheme_char (String a b)
        then (PyStr.lower (String a b), rest)
        else (default_scheme, url)
    | _ => (default_scheme, url)
    end in
  let '(nl, url) :=
    if PyStr.startswith "//" url then
      break (λ a, Ascii.eqb a "/"%char || Ascii.eqb a "?"%char
                  || Ascii.eqb a "#"%char)
            (String.substring 2 (String.length url - 2) url)
    else (EmptyString, url) in
  if PyStr.has_char "["%char nl || PyStr.has_char "]"%char nl then None
  else
    let '(url, frag) := partition "#"%char url in
    let '(url, qry) := partition "?"%char url in
    Some (sch, nl, url, default "" qry, default "" frag).

(** [_splitparams] *)
Definition splitparams (url : string) : string * string :=
  match partition ";"%char (PosixPath.basename url) with
  | (b, Some p) => (PosixPath.head url +:+ b, p)
  | (_, None) => (url, EmptyString)
  end.

Definition urlparse_with (url default_scheme : string) : option ParseResult :=
  match urlsplit url default_scheme with
  | None => None
  | Some (sch, nl, p, q, f) =>
      if mem sch uses_params && PyStr.has_char ";"%char p
      then let '(p, prm) := splitparams p in Some (mkParse sch nl p prm q f)
      else Some (mkParse sch nl p EmptyString q f)
  end.

Definition urlparse (url : string) : option ParseResult :=
  urlparse_with url EmptyString.

(** [urlunparse] *)
Definition urlunparse (r : ParseResult) : string :=
  let url := match params r with
             | EmptyString => path r
             | p => path r +:+ ";" +:+ p
             end in
  let url :=
    if negb (String.eqb (netloc r) "")
       || (negb (String.eqb (scheme r) "") && mem (scheme r) uses_netloc
           && negb (PyStr.startswith "//" url))
    then "//" +:+ netloc r +:+
         (if negb (String.eqb url "") && negb (PyStr.startswith "/" url)
          then "/" +:+ url else url)
    else url in
  let url := match scheme r with
             | EmptyString => url
             | s => s +:+ ":" +:+ url
             end in
  let url := match query r with
             | EmptyString => url
             | q => url +:+ "?" +:+ q
             end in
  match fragment r with
  | EmptyString => url
  | f => url +:+ "#" +:+ f
  end.

(** The loop of [urljoin] over the path segments. *)
Fixpoint resolve (resolved : list string) (segments : list string) : list string :=
  match segments with
  | [] => resolved
  | seg :: rest =>
      if String.eqb seg ".." then resolve (removelast resolved) rest
      else if String.eqb seg "." then resolve resolved rest
      else resolve (resolved ++ [seg]) rest
  end.

(** [segments[1:-1] = filter(None, segments[1:-1])] *)
Definition drop_empty_inner (segments : list string) : list string :=
  match segments with
  | [] => []
  | [x] => [x]
  | x :: rest =>
      x :: filter (λ s, s ≠ EmptyString) (removelast rest) ++ [List.last rest ""]
  end.

Definition urljoin (base url : string) : option string :=
  if String.eqb base "" then Some url
  else if String.eqb url "" then Some base
  else
    b ← urlparse base;
    u ← urlparse_with url (scheme b);
    if negb (String.eqb (scheme u) (scheme b)) || negb (mem (scheme u) uses_relative)
    then Some url
    else if mem (scheme u) uses_netloc && negb (String.eqb (netloc u) "")
    then Some (urlunparse u)
    else
      let nl := if mem (scheme u) uses_netloc then netloc b else netloc u in
      if String.eqb (path u) "" && String.eqb (params u) "" then
        let q := if String.eqb (query u) "" then query b else query u in
        Some (urlunparse (mkParse (scheme u) nl (path b) (params b) q (fragment u)))
      else
        let base_parts := PyStr.split "/"%char (path b) in
        let base_parts :=
          if String.eqb (List.last base_parts "") "" then base_parts
          else removelast base_parts in
        let segments :=
          if PyStr.startswith "/" (path u) then PyStr.split "/"%char (path u)
          else drop_empty_inner (base_parts ++ PyStr.split "/"%char (path u)) in
        let resolved := resolve [] segments in
        let resolved :=
          if mem (List.last segments "") ["."; ".."] then resolved ++ [EmptyString]
          else resolved in
        let p := match PyStr.join "/" resolved with
                 | EmptyString => "/"
                 | p => p
                 end in
        Some (urlunparse (mkParse (scheme u) nl p (params u) (query u) (fragment u))).

End Urllib.

(** A markup library for the examples: [parse_html] and the two patterns
    are given by tables (the text of a page with its tree, a style text
    with the URLs it refers to), [soup_str] writes a tree out again. *)
Module Ref.

Fixpoint lookup {A} (d : A) (table : list (string * A)) (k : string) : A :=
  match table with
  | [] => d
  | (k', v) :: rest => if String.eqb k' k then v else lookup d rest k
  end.

Fixpoint render_attrs (attrs : list (string * string)) : string :=
  match attrs with
  | [] => EmptyString
  | (k, v) :: rest => " " +:+ k +:+ "='" +:+ v +:+ "'" +:+ render_attrs rest
  end.

Fixpoint render (n : node) : string :=
  match n with
  | NavigableString s => s
  | Tag nm attrs [] => "<" +:+ nm +:+ render_attrs attrs +:+ "/>"
  | Tag nm attrs ch =>
      "<" +:+ nm +:+ render_attrs attrs +:+ ">" +:+
      (fix go (l : list node) : string :=
         match l with
         | [] => EmptyString
         | c :: l' => render c +:+ go l'
         end) ch +:+
      "</" +:+ nm +:+ ">"
  end.

Definition lib (pages : list (string * list node))
    (styles : list (string * list string)) : PyLib :=
  {| urlparse := Urllib.urlparse;
     urljoin := Urllib.urljoin;
     parse_html := λ t, lookup [NavigableString t] pages t;
     soup_str := λ soup, String.concat "" (map render soup);
     re_css_urls := lookup [] styles;
     re_resource_paths := λ _, [] |}.

(** A server that answers every request for a URL in the same way. *)
Definition net (site : list (string * fetch_result)) : Network :=
  {| requests_get := λ _ url, lookup TransportFailure site url |}.

Definition initial : State := mkState ∅ ∅ ∅ [].

End Ref.

(* ===================================================================== *)
(** ** Readings of the crawl *)
(* ===================================================================== *)

(** What [scrape_url] does with the answer to its request: the rest of
    its [try] block. *)
Section Response.

Context `{PyLib} `{Network}.
Variable self : Generator.

Definition on_response (scrape_url : string → M unit) (url : string)
    (response : Response) : M unit :=
  raise_for_status response ;;;
  let content_type := PyStr.lower (content_type response) in
  if PyStr.contains "text/html" content_type then
    process_html self scrape_url url (text response) ;;;
    scrape_image_sizes self url ;;;
    scrape_meta_images self url
  else if PyStr.contains "image" content_type then
    modify (add_file_url url) ;;;
    save_response self url response
  else if existsb (λ type, PyStr.contains type content_type)
                  ["text/css"; "javascript"; "application"] then
    modify (add_file_url url) ;;;
    save_response self url response
  else
    logging INFO "Saving file with content-type" url ;;;
    save_response self url response.

(** What [scrape_image_sizes] does with the page it has fetched again. *)
Definition scan_image_sizes (soup : list node) : M unit :=
  for_each (Soup.find_all ["img"; "source"] soup)
    (λ img,
       let srcset := Soup.or_default (Soup.get "srcset" img.1.2)
                                     (Soup.get "data-srcset" img.1.2) in
       let src := Soup.or_default (Soup.get "src" img.1.2)
                                  (Soup.get "data-src" img.1.2) in
       let all_urls :=
         (match src with EmptyString => [] | _ => [src] end)
         ++ srcset_urls srcset in
       for_each all_urls
         (λ img_url,
            match img_url with
            | EmptyString => ret tt
            | _ =>
                same <- lift ValueError (is_same_domain self img_url) ;;
                when same (fetch_image self AtImageSizes "image" img_url)
            end)) ;;;
  for_each (Soup.find_all_having "style" soup)
    (λ tag,
       let style := default "" (Soup.get "style" tag.1.2) in
       for_each (re_css_urls style)
         (λ img_url,
            same <- lift ValueError (is_same_domain self img_url) ;;
            when same (fetch_image self AtImageSizes "background image" img_url))).

(** What [scrape_meta_images] does with the page it has fetched again. *)
Definition scan_meta_images (soup : list node) : M unit :=
  for_each (Soup.find_all_attr_in "meta" "property"
              ["og:image"; "twitter:image"] soup)
    (λ meta,
       let img_url := Soup.get "content" meta.1.2 in
       if Soup.truthy img_url then
         same <- lift ValueError (is_same_domain self (default "" img_url)) ;;
         when same (fetch_image self AtMetaImages "meta image" (default "" img_url))
       else ret tt).

End Response.

(** The state after an event. *)
Definition pushed (e : event) (s : State) : State :=
  mkState (visited_urls s) (file_urls s) (fs s) (e :: trace s).

(** The state after [scrape_url] has marked a new URL and sent its
    request. *)
Definition dispatch (url : string) (s : State) : State :=
  mkState ({[url]} ∪ visited_urls s) (file_urls s) (fs s)
          (Request AtScrapeUrl url :: trace s).

(** The state after the pause that ends [scrape_url]. *)
Definition slept (s : State) : State := pushed (Sleep 100) s.

(** The URLs [scrape_url] itself has requested, the latest first. *)
Definition dispatched (t : list event) : list string :=
  omap (λ e, match e with Request AtScrapeUrl u => Some u | _ => None end) t.

(** The URLs requested from any place in the source. *)
Definition requested (t : list event) : list string :=
  omap (λ e, match e with Request _ u => Some u | _ => None end) t.

Definition is_sleep (e : event) : bool :=
  match e with Sleep _ => true | _ => false end.

(** The number of pauses. *)
Definition sleeps (t : list event) : nat := length (List.filter is_sleep t).

(** A call keeps to [Q] when it returns or raises, and to [R] when it is
    cut off. *)
Definition respects {A} (Q R : State → State → Prop) (m : M A) : Prop :=
  ∀ s, match m s with
       | Done _ s' | Raised _ s' => Q s s'
       | OutOfFuel s' => R s s'
       end.

(** The mutable fields only grow: URLs are added to the two sets, files
    to the tree, events to the trace. *)
Definition grows (s s' : State) : Prop :=
  visited_urls s ⊆ visited_urls s'
  ∧ file_urls s ⊆ file_urls s'
  ∧ dom (fs s) ⊆ dom (fs s')
  ∧ trace s `suffix_of` trace s'.

(** A step that visits no URL and makes no pause. *)
Definition keeps_visits (s s' : State) : Prop :=
  visited_urls s' = visited_urls s
  ∧ dispatched (trace s') = dispatched (trace s)
  ∧ sleeps (trace s') = sleeps (trace s).

(** The requests of [scrape_url] and the set of visited URLs agree. *)
Definition dispatch_log_agrees (s : State) : Prop :=
  visited_urls s = list_to_set (dispatched (trace s))
  ∧ NoDup (dispatched (trace s)).

(** What a pair of relations on states needs to be kept by the crawl:
    [P] holds of the URLs the crawl is sent to, [Q] relates the states
    around a call that returns or raises, [R] those around a call that is
    cut off. *)
Record CrawlFrame `{PyLib} (self : Generator) (P : string → Prop)
    (Q R : State → State → Prop) : Prop := {
  frame_same_domain : ∀ u, is_same_domain self u = Some true → P u;
  frame_refl : ∀ s, Q s s;
  frame_trans : ∀ s1 s2 s3, Q s1 s2 → Q s2 s3 → Q s1 s3;
  frame_cut : ∀ s1 s2, Q s1 s2 → R s1 s2;
  frame_trans_cut : ∀ s1 s2 s3, Q s1 s2 → R s2 s3 → R s1 s3;
  frame_log : ∀ lv msg arg s, Q s (pushed (Log lv msg arg) s);
  frame_request :
    ∀ at_ u s, at_ ≠ AtScrapeUrl → P u → Q s (pushed (Request at_ u) s);
  frame_save :
    ∀ url p c fs' s, save_path self url = Some p →
                     FS.write (fs s) p c = Some fs' → Q s (set_fs fs' s);
  frame_file : ∀ u s, Q s (add_file_url u s);
  frame_call :
    ∀ u s s', P u → u ∉ visited_urls s → Q (dispatch u s) s' → Q s (slept s');
  frame_call_cut :
    ∀ u s s', P u → u ∉ visited_urls s → R (dispatch u s) s' → R s s'
}.

(* ===================================================================== *)
(** ** Readings of the picture pass *)
(* ===================================================================== *)

(** An entry of a [srcset] attribute gives a candidate for a format when
    it consists of a URL and a descriptor and [os.path.exists] holds of
    the path [url_to_local_path] gives for the URL after the substitution
    [re.sub(r'\.[^.]+$', ...)]; [candidate] is what the new [srcset] then
    lists for it.  The substitution acts on the whole URL: it leaves a
    URL without a dot as it is, and in a URL with a query it changes
    what follows the last dot of the query, so the path that is tested
    need not be that of a file with the extension of the format. *)
Definition srcset_candidate `{PyLib} (self : Generator) (fs : gmap string string)
    (format_ext entry candidate : string) : Prop :=
  ∃ orig_src width local_path,
    PyStr.split_ws (PyStr.strip entry) = [orig_src; width]
    ∧ url_to_local_path self (replace_ext format_ext orig_src)
      = Some (Some local_path)
    ∧ local_path ≠ ""
    ∧ FS.exists_ fs local_path = true
    ∧ candidate
      = update_url self (replace_ext format_ext orig_src) +:+ " " +:+ width.

(* ===================================================================== *)
(** ** [convert_images]: the names of the variants *)
(* ===================================================================== *)

(** [f"{os.path.splitext(img_path)[0]}.{ext}"]: the file
    [convert_to_webp], [convert_to_avif] and [convert_to_jxl] write for
    an image, and whose existence makes [convert_images] pass over it. *)
Definition variant_path (img_path ext : string) : string :=
  (PosixPath.splitext img_path).1 +:+ "." +:+ ext.

(* ===================================================================== *)
(** ** Overlapping texts *)
(* ===================================================================== *)

(** Some non-empty end of [a] is a beginning of [b]. *)
Fixpoint overlap (a b : string) : bool :=
  match a with
  | EmptyString => false
  | String _ a' => String.prefix a b || overlap a' b
  end.

(** Neither text occurs in the other, and no end of one is a beginning
    of the other. *)
Definition apart (a b : string) : bool :=
  negb (PyStr.contains a b) && negb (PyStr.contains b a)
  && negb (overlap a b) && negb (overlap b a).

(* ===================================================================== *)
(** ** Trees that are read as they are stored *)
(* ===================================================================== *)

(** The output tree keeps paths and contents as they are written.  It
    stands for the files on disk when the paths are in normal form, so
    that a path is below a directory exactly when it begins with it,
    and, for a file that is opened in text mode, when the content is a
    text that decoding and the translation of line ends leave alone. *)

(** ASCII without carriage returns: [open(..., 'r', encoding='utf-8')]
    reads such a content as it is stored. *)
Definition plain_text (c : string) : bool :=
  Urllib.forall_chars
    (λ a, Nat.ltb (nat_of_ascii a) 128 && negb (Nat.eqb (nat_of_ascii a) 13)) c.

Definition plain_segment (s : string) : bool :=
  negb (existsb (String.eqb s) [""; "."; ".."]).

(** A path in normal form: after the first segment, which is empty for
    an absolute path, no segment is empty, [.] or [..]. *)
Definition plain_path (p : string) : bool :=
  match PyStr.split "/" p with
  | [] => false
  | first :: rest =>
      negb (String.eqb p "")
      && (String.eqb first "" || plain_segment first)
      && forallb plain_segment rest
  end.

(** The output directory and every path of the tree are in normal form. *)
Definition normal_tree (self : Generator) (fs : gmap string string) : bool :=
  plain_path (public_dir self)
  && forallb (λ kc, plain_path kc.1) (map_to_list fs).

(** Moreover the files the two passes open are plain texts: those
    [update_urls_in_all_files] handles and those whose name ends in
    [.html], which [update_html_for_image_formats] reads. *)
Definition readable_tree (self : Generator) (fs : gmap string string) : bool :=
  normal_tree self fs
  && forallb (λ kc, negb (FS.below (public_dir self) kc.1
                          && (handled kc.1
                              || PyStr.endswith ".html" (PosixPath.basename kc.1)))
                    || plain_text kc.2)
             (map_to_list fs).

(** The paths [update_html_for_image_formats] hands to [os.path.exists]
    for one format: those of the entries that consist of a URL and a
    descriptor and for which [url_to_local_path] gives a path. *)
Definition tested_paths `{PyLib} (self : Generator) (format_ext : string)
    (original_srcset : string) : list string :=
  omap (λ entry,
          match PyStr.split_ws (PyStr.strip entry) with
          | [orig_src; _] =>
              match url_to_local_path self (replace_ext format_ext orig_src) with
              | Some (Some (String a p)) => Some (String a p)
              | _ => None
              end
          | _ => None
          end)
       (PyStr.split "," original_srcset).

(* ===================================================================== *)
(** ** The references of a page *)
(* ===================================================================== *)

Section References.

Context `{PyLib}.
Variable self : Generator.

(** The references [scrape_image_sizes] goes through, as they are written
    in the page and in the order of the two loops: for every [img] and
    [source] tag the source and the URLs of the [srcset] that are not
    empty, then for every tag with a [style] attribute the URLs the
    regular expression finds in it. *)
Definition image_references (soup : list node) : list string :=
  concat (map (λ img,
                 let srcset := Soup.or_default (Soup.get "srcset" img.1.2)
                                               (Soup.get "data-srcset" img.1.2) in
                 let src := Soup.or_default (Soup.get "src" img.1.2)
                                            (Soup.get "data-src" img.1.2) in
                 filter (λ img_url, img_url ≠ "")
                        ((match src with EmptyString => [] | _ => [src] end)
                         ++ srcset_urls srcset))
              (Soup.find_all ["img"; "source"] soup))
  ++ concat (map (λ tag, re_css_urls (default "" (Soup.get "style" tag.1.2)))
                 (Soup.find_all_having "style" soup)).

(** The references [scrape_meta_images] goes through: the contents of the
    [og:image] and [twitter:image] tags that are not empty. *)
Definition meta_references (soup : list node) : list string :=
  concat (map (λ meta,
                 let img_url := Soup.get "content" meta.1.2 in
                 if Soup.truthy img_url then [default "" img_url] else [])
              (Soup.find_all_attr_in "meta" "property"
                 ["og:image"; "twitter:image"] soup)).

(** From the state [s], a run with outcome [o] has sent requests for
    references of [refs] only, each as it is written there and accepted
    by [is_same_domain]; when the run has returned, it has sent one for
    each of them, in their order ([trace] has the latest event first). *)
Definition asks (refs : list string) (s : State) (o : Outcome unit) : Prop :=
  ∃ new,
    trace (final o) = new ++ trace s
    ∧ (∀ u, u ∈ requested new → u ∈ refs ∧ is_same_domain self u = Some true)
    ∧ (∀ s', o = Done tt s' →
         requested new
         = rev (filter (λ u, is_same_domain self u = Some true) refs)).

End References.

(* ===================================================================== *)
(** ** Worlds for the examples *)
(* ===================================================================== *)

(** The configuration the script is started with. *)
Definition shipped : Generator :=
  mkGenerator "http://helium:2368" "https://cadenkraft.com"
              "/home/ghost-static-site-gen".

(** A site whose public address contains the address it is served from. *)
Definition moved : Generator :=
  mkGenerator "http://blog.example" "http://blog.example.org" "/srv/site".

Definition moved_tree : gmap string string :=
  {[ "/srv/site/public/style.css" := "@import url(http://blog.example/a.css);" ]}.

Definition shipped_tree : gmap string string :=
  {[ "/home/ghost-static-site-gen/public/assets/data.json" :=
       "{'home': 'http://helium:2368/', 'feed': 'http://helium:2368/rss/'}" ]}.

(** A site of one page that shows one image, served at the source URL. *)
Definition home_text : string := "<html><img src='/logo.png'/></html>".

Definition home_tree : list node :=
  [Tag "html" [] [Tag "img" [("src", "/logo.png")] []]].

Definition small_site : list (string * fetch_result) :=
  [("http://helium:2368",
    Responded (mkResponse 200 "text/html; charset=utf-8" home_text home_text));
   ("http://helium:2368/logo.png",
    Responded (mkResponse 200 "image/png" "" "PNG"));
   ("http://helium:2368/robots.txt",
    Responded (mkResponse 304 "text/plain" "" "User-agent: *"));
   ("http://helium:2368/favicon.ico",
    Responded (mkResponse 404 "text/html" "Not found" "Not found"))].

Definition small_lib : PyLib := Ref.lib [(home_text, home_tree)] [].

Definition small_net : Network := Ref.net small_site.

(** A saved tree in which one of two sizes of an image has a WebP and an
    AVIF variant, and the [srcset] that lists the two sizes. *)
Definition pictures_tree : gmap string string :=
  {[ "/home/ghost-static-site-gen/public/content/images/size/w600/a.jpg" := "JFIF";
     "/home/ghost-static-site-gen/public/content/images/size/w1000/a.jpg" := "JFIF";
     "/home/ghost-static-site-gen/public/content/images/size/w600/a.webp" := "RIFF";
     "/home/ghost-static-site-gen/public/content/images/size/w600/a.avif" := "ftypavif" ]}.

Definition pictures_srcset : string :=
  "/content/images/size/w600/a.jpg 600w, /content/images/size/w1000/a.jpg 1000w".

(** The tree after the crawl of [small_site]. *)
Definition home_saved : gmap string string :=
  {[ "/home/ghost-static-site-gen/public/index.html" := home_text;
     "/home/ghost-static-site-gen/public/logo.png" := "PNG" ]}.

(** A page that shows the same image twice, by a relative and by an
    absolute reference. *)
Definition gallery_text : string :=
  "<p><img src='/logo.png'/><img src='http://helium:2368/logo.png'/></p>".

Definition gallery_tree : list node :=
  [Tag "p" [] [Tag "img" [("src", "/logo.png")] [];
               Tag "img" [("src", "http://helium:2368/logo.png")] []]].

Definition gallery_site : list (string * fetch_result) :=
  [("http://helium:2368/gallery/",
    Responded (mkResponse 200 "text/html" gallery_text gallery_text));
   ("http://helium:2368/logo.png",
    Responded (mkResponse 200 "image/png" "" "PNG"))].

Definition gallery_lib : PyLib := Ref.lib [(gallery_text, gallery_tree)] [].

Definition gallery_net : Network := Ref.net gallery_site.

(** A home page whose image has a second size, listed in [srcset] only. *)
Definition responsive_text : string :=
  "<img src='/logo.png' srcset='/logo-2x.png 2x'/>".

Definition responsive_tree : list node :=
  [Tag "img" [("src", "/logo.png"); ("srcset", "/logo-2x.png 2x")] []].

Definition responsive_site : list (string * fetch_result) :=
  [("http://helium:2368",
    Responded (mkResponse 200 "text/html" responsive_text responsive_text));
   ("http://helium:2368/logo.png",
    Responded (mkResponse 200 "image/png" "" "PNG"));
   ("http://helium:2368/logo-2x.png",
    Responded (mkResponse 200 "image/png" "" "PNG2"))].

Definition responsive_lib : PyLib :=
  Ref.lib [(responsive_text, responsive_tree)] [].

Definition responsive_net : Network := Ref.net responsive_site.


(* ===================================================================== *)
(** ** Facts about strings and paths *)
(* ===================================================================== *)

Module StrFacts.

Lemma app_nil_l (s : string) : "" +:+ s = s.
Proof. reflexivity. Qed.

Lemma app_cons (a : ascii) (s t : string) : String a s +:+ t = String a (s +:+ t).
Proof. reflexivity. Qed.

Ltac sapp := rewrite ?app_cons, ?app_nil_l in *.

Lemma app_nil_r (s : string) : s +:+ "" = s.
Proof. induction s; sapp; congruence. Qed.

Lemma app_assoc (a b c : string) : (a +:+ b) +:+ c = a +:+ (b +:+ c).
Proof. induction a; sapp; congruence. Qed.

Lemma length_app (a b : string) :
  String.length (a +:+ b) = String.length a + String.length b.
Proof. induction a; sapp; simpl; congruence. Qed.

Lemma endswith_nil (suf : string) :
  PyStr.endswith suf "" = String.eqb "" suf || false.
Proof. reflexivity. Qed.

Lemma endswith_cons (suf : string) (a : ascii) (s : string) :
  PyStr.endswith suf (String a s) = String.eqb (String a s) suf || PyStr.endswith suf s.
Proof. reflexivity. Qed.

Lemma endswith_spec (suf s : string) :
  PyStr.endswith suf s = true ↔ ∃ pre, s = pre +:+ suf.
Proof.
  induction s as [|a s IH].
  - rewrite endswith_nil, orb_false_r, String.eqb_eq. split.
    + intros <-. by exists "".
    + intros [pre Hp]. destruct pre; sapp; [done | discriminate].
  - rewrite endswith_cons, orb_true_iff, String.eqb_eq, IH. split.
    + intros [<- | [pre ->]]; [by exists "" | by exists (String a pre)].
    + intros [pre Hp]. destruct pre as [|b pre]; sapp.
      * by left.
      * right. exists pre. congruence.
Qed.

Lemma endswith_app (pre suf : string) : PyStr.endswith suf (pre +:+ suf) = true.
Proof. apply endswith_spec. by exists pre. Qed.

Lemma lstrip_head (c : ascii) (s : string) :
  PyStr.lstrip c s = "" ∨ ∃ a r, PyStr.lstrip c s = String a r ∧ a ≠ c.
Proof.
  induction s as [|a s IH]; simpl; [by left |].
  destruct (Ascii.eqb a c) eqn:E; [done |].
  right. exists a, s. split; [done |]. by apply Ascii.eqb_neq.
Qed.

Lemma lstrip_endswith (c : ascii) (s : string) :
  PyStr.endswith (String c "") s = true → PyStr.lstrip c s ≠ "" →
  PyStr.endswith (String c "") (PyStr.lstrip c s) = true.
Proof.
  induction s as [|a s IH]; [done |].
  intros H Hne. simpl in Hne |- *.
  destruct (Ascii.eqb a c) eqn:E; [| done].
  rewrite endswith_cons in H. apply orb_true_iff in H as [H | H]; [| by apply IH].
  apply String.eqb_eq in H. injection H as -> ->. by simpl in Hne.
Qed.

Lemma prefix_nil (s : string) : String.prefix "" s = true.
Proof. by destruct s. Qed.

Lemma prefix_cons (c a : ascii) (p s : string) :
  String.prefix (String c p) (String a s) = Ascii.eqb c a && String.prefix p s.
Proof.
  simpl. destruct (ascii_dec c a) as [->|Hn].
  - by rewrite Ascii.eqb_refl.
  - apply Ascii.eqb_neq in Hn. by rewrite Hn.
Qed.

Lemma prefix_spec (p s : string) :
  String.prefix p s = true ↔ ∃ r, s = p +:+ r.
Proof.
  revert s. induction p as [|c p IH]; intros s.
  - rewrite prefix_nil. split; [by exists s | done].
  - destruct s as [|a s].
    + split; [done | intros [r Hr]; sapp; discriminate].
    + rewrite prefix_cons, andb_true_iff, Ascii.eqb_eq, IH. split.
      * intros [-> [r ->]]. by exists r.
      * intros [r Hr]. sapp. injection Hr as -> ->. eauto.
Qed.

Lemma prefix_length (p s : string) :
  String.prefix p s = true → String.length p ≤ String.length s.
Proof. intros [r ->]%prefix_spec. rewrite length_app. lia. Qed.

End StrFacts.

Module PathFacts.

Import StrFacts.

Lemma join_suffix (a b : string) : ∃ pre, PosixPath.join a b = pre +:+ b.
Proof.
  unfold PosixPath.join.
  destruct (PyStr.startswith "/" b); [by exists "" |].
  destruct (_ || _); [by exists a |].
  exists (a +:+ "/"). by rewrite app_assoc.
Qed.

Lemma join_endswith (a b suf : string) :
  PyStr.endswith suf b = true → PyStr.endswith suf (PosixPath.join a b) = true.
Proof.
  intros [p1 ->]%endswith_spec. destruct (join_suffix a (p1 +:+ suf)) as [p2 ->].
  apply endswith_spec. exists (p2 +:+ p1). by rewrite app_assoc.
Qed.

Lemma rstrip_id (c : ascii) (s : string) :
  PyStr.endswith (String c "") s = false → PyStr.rstrip c s = s.
Proof.
  induction s as [|a s IH]; [done |].
  rewrite endswith_cons. intros [H1 H2]%orb_false_iff.
  simpl. rewrite (IH H2). destruct s; [| done].
  destruct (Ascii.eqb a c) eqn:E; [| done].
  apply Ascii.eqb_eq in E. subst. by rewrite String.eqb_refl in H1.
Qed.

Lemma below_self (p : string) :
  PyStr.endswith "/" p = false → FS.below p p = false.
Proof.
  intros H. unfold FS.below, PosixPath.sep. rewrite (rstrip_id _ _ H).
  destruct (String.prefix _ _) eqn:E; [| done].
  apply prefix_length in E. rewrite length_app in E. simpl in E. lia.
Qed.

Lemma length_rev_app (s t : string) :
  String.length (String.rev_app s t) = String.length s + String.length t.
Proof.
  revert t. induction s as [|a s IH]; intros t; simpl; [done |].
  rewrite IH. simpl. lia.
Qed.

Lemma ancestors_go_length (seen p a : string) :
  a ∈ FS.ancestors_go seen p →
  String.length a < String.length seen + String.length p.
Proof.
  revert seen. induction p as [|c p IH]; intros seen; simpl.
  - by intros ?%elem_of_nil.
  - intros [Hin | Hin]%elem_of_app.
    + destruct (Ascii.eqb c PosixPath.sep); [| by apply elem_of_nil in Hin].
      destruct seen as [|b seen]; [by apply elem_of_nil in Hin |].
      apply list_elem_of_singleton in Hin. subst a.
      unfold String.rev. rewrite length_rev_app. simpl. lia.
    + apply IH in Hin. simpl in Hin. lia.
Qed.

Lemma ancestors_ne (p a : string) : a ∈ FS.ancestors p → a ≠ p.
Proof.
  intros Hin%ancestors_go_length ->. simpl in Hin. lia.
Qed.

Lemma is_file_insert_ne (fs : gmap string string) (p c a : string) :
  a ≠ p → FS.is_file (<[p := c]> fs) a = FS.is_file fs a.
Proof. intros Hne. unfold FS.is_file. by rewrite lookup_insert_ne. Qed.

Lemma is_dir_spec (fs : gmap string string) (p : string) :
  FS.is_dir fs p = true ↔ ∃ k v, fs !! k = Some v ∧ FS.below p k = true.
Proof.
  unfold FS.is_dir. rewrite existsb_exists. split.
  - intros [k [Hin Hb]]. apply list_elem_of_In, list_elem_of_fmap in Hin.
    destruct Hin as [[k' v] [-> Hin]]. apply elem_of_map_to_list in Hin. eauto.
  - intros (k & v & Hk & Hb). exists k. split; [| done].
    apply list_elem_of_In, list_elem_of_fmap. exists (k, v). split; [done |].
    by apply elem_of_map_to_list.
Qed.

Lemma write_Some (fs fs' : gmap string string) (p c : string) :
  FS.write fs p c = Some fs' → fs' = <[p := c]> fs.
Proof. unfold FS.write. destruct (_ || _); congruence. Qed.

Lemma write_again (fs fs' : gmap string string) (p c c' : string) :
  FS.write fs p c = Some fs' → FS.write fs' p c' = Some (<[p := c']> fs').
Proof.
  unfold FS.write.
  destruct (String.eqb p "") eqn:E1; [done |].
  destruct (PyStr.endswith "/" p) eqn:E2; [done |].
  destruct (existsb (FS.is_file fs) (FS.ancestors p)) eqn:E3; [done |].
  destruct (FS.is_dir fs p) eqn:E4; [done |]. simpl.
  intros [= <-].
  assert (existsb (FS.is_file (<[p:=c]> fs)) (FS.ancestors p) = false) as ->.
  { apply not_true_is_false. intros [a [Hin Hf]]%existsb_exists.
    apply list_elem_of_In in Hin.
    rewrite is_file_insert_ne in Hf by by apply ancestors_ne.
    assert (existsb (FS.is_file fs) (FS.ancestors p) = true); [| congruence].
    apply existsb_exists. exists a. by rewrite <- list_elem_of_In. }
  assert (FS.is_dir (<[p:=c]> fs) p = false) as ->; [| done].
  apply not_true_is_false. intros (k & v & Hk & Hb)%is_dir_spec.
  destruct (decide (k = p)) as [-> | Hne].
  - by rewrite below_self in Hb.
  - rewrite lookup_insert_ne in Hk by done.
    assert (FS.is_dir fs p = true); [| congruence].
    apply is_dir_spec. eauto.
Qed.

End PathFacts.

(* ===================================================================== *)
(** ** Scope and local paths *)
(* ===================================================================== *)

Import StrFacts PathFacts.

Lemma endswith_slash_app (pre t : string) :
  t ≠ "" → PyStr.endswith "/" (pre +:+ t) = PyStr.endswith "/" t.
Proof.
  intros Ht. induction pre as [|a pre IH]; [done |].
  rewrite app_cons, endswith_cons, IH.
  destruct (String.eqb _ _) eqn:E; [| done].
  apply String.eqb_eq in E. injection E as _ E.
  destruct pre; sapp; [done | discriminate].
Qed.

Lemma startswith_slash_cons (a : ascii) (s : string) :
  a ≠ "/"%char → PyStr.startswith "/" (String a s) = false.
Proof.
  intros Ha. unfold PyStr.startswith. rewrite prefix_cons.
  apply andb_false_intro1. apply Ascii.eqb_neq. congruence.
Qed.

Lemma below_child (d rel : string) :
  PyStr.endswith "/" d = false → FS.below d (d +:+ "/" +:+ rel) = true.
Proof.
  intros Hd. unfold FS.below, PosixPath.sep. rewrite (rstrip_id _ _ Hd).
  apply prefix_spec. exists rel. by rewrite app_assoc.
Qed.

Section UrlProperties.

Context `{PyLib}.
Variable self : Generator.

Lemma public_dir_is_a_name :
  PyStr.endswith "/" (public_dir self) = false ∧ public_dir self ≠ "".
Proof.
  unfold public_dir. destruct (join_suffix (repo_path self) "public") as [pre ->].
  split; [by rewrite endswith_slash_app |].
  destruct pre; sapp; discriminate.
Qed.

Lemma join_public_dir (rel : string) :
  PyStr.startswith "/" rel = false →
  PosixPath.join (public_dir self) rel = public_dir self +:+ "/" +:+ rel.
Proof.
  intros Hr. destruct public_dir_is_a_name as [He Hn]. unfold PosixPath.join.
  rewrite Hr, He. apply String.eqb_neq in Hn. by rewrite Hn.
Qed.

Lemma save_path_shape (url p : string) :
  save_path self url = Some p →
  ∃ rel, p = public_dir self +:+ "/" +:+ rel
         ∧ rel ≠ "" ∧ PyStr.endswith "/" rel = false.
Proof.
  unfold save_path. destruct (urlparse url) as [parsed|]; [| done]. simpl.
  intros [= <-].
  destruct (lstrip_head "/" (path parsed)) as [-> | (a & r & -> & Ha)].
  - simpl. exists "index.html". split; [| done].
    by apply join_public_dir.
  - assert (String.eqb (String a r) "" = false) as -> by done.
    destruct (PyStr.endswith "/" (String a r)) eqn:E.
    + exists (String a r +:+ "index.html"). split; [| split].
      * apply join_public_dir. rewrite app_cons. by apply startswith_slash_cons.
      * by rewrite app_cons.
      * by rewrite endswith_slash_app.
    + exists (String a r). split; [| done].
      apply join_public_dir. by apply startswith_slash_cons.
Qed.

Lemma save_path_below (url p : string) :
  save_path self url = Some p →
  FS.below (public_dir self) p = true ∧ PyStr.endswith "/" p = false ∧ p ≠ "".
Proof.
  intros (rel & -> & Hne & He)%save_path_shape.
  destruct public_dir_is_a_name as [Hd Hn]. split; [| split].
  - by apply below_child.
  - rewrite <- app_assoc. by rewrite endswith_slash_app.
  - destruct (public_dir self); [done | sapp; discriminate].
Qed.

(** C5. [is_same_domain] answers [True] exactly when the network
    location of the URL is that of the source URL, and [False] for every
    other network location; scheme and path play no part: two URLs with
    the same network location get the same answer. *)
Theorem is_same_domain_iff_netloc (url : string) (p q : ParseResult) :
  urlparse url = Some p →
  urlparse (source_url self) = Some q →
  (is_same_domain self url = Some true ↔ netloc p = netloc q) ∧
  (is_same_domain self url = Some false ↔ netloc p ≠ netloc q) ∧
  (∀ url' p', urlparse url' = Some p' → netloc p' = netloc p →
              is_same_domain self url' = is_same_domain self url).
Proof.
  intros Hp Hq. unfold is_same_domain. rewrite Hp, Hq. simpl.
  split; [| split].
  - rewrite <- String.eqb_eq. split; congruence.
  - rewrite <- String.eqb_neq. split; congruence.
  - intros url' p' Hp' Hn. rewrite Hp'. simpl. by rewrite Hn.
Qed.

Lemma save_file_Done (url content extension : string) (is_binary : bool)
    (s s' : State) :
  save_file self url content extension is_binary s = Done tt s' →
  ∃ file_path, save_path self url = Some file_path
    ∧ FS.write (fs s) file_path content = Some (<[file_path := content]> (fs s))
    ∧ s' = mkState (visited_urls s) (file_urls s)
                   (<[file_path := content]> (fs s))
                   (Log INFO "Saved" file_path :: trace s).
Proof.
  unfold save_file, bind, lift, get_state.
  destruct (save_path self url) as [file_path|]; [| done]. simpl.
  destruct (FS.write (fs s) file_path content) as [fs'|] eqn:Hw; [| done].
  simpl. intros [= <-]. exists file_path.
  pose proof (write_Some _ _ _ _ Hw) as ->. done.
Qed.

(** C4. The path [save_file] writes to is a function of the URL: it is
    [save_path url] whatever the state, the content, the extension
    argument and the mode.  For an empty URL path it is [index.html] in
    the output directory, and for a URL path that ends in a separator
    [index.html] is appended below that directory. *)
Theorem save_path_function_of_url (url : string) (parsed_url : ParseResult) :
  urlparse url = Some parsed_url →
  ∃ file_path,
    save_path self url = Some file_path
    ∧ (∀ content extension is_binary s s',
         save_file self url content extension is_binary s = Done tt s' →
         fs s' = <[file_path := content]> (fs s))
    ∧ (path parsed_url = "" →
         file_path = PosixPath.join (public_dir self) "index.html"
         ∧ PyStr.endswith "index.html" file_path = true)
    ∧ (PyStr.endswith "/" (path parsed_url) = true →
         file_path = PosixPath.join (public_dir self)
                       (PyStr.lstrip "/" (path parsed_url) +:+ "index.html")
         ∧ PyStr.endswith "index.html" file_path = true).
Proof.
  intros Hp. unfold save_path. rewrite Hp. simpl.
  eexists. split; [reflexivity |]. split; [| split].
  - intros content extension is_binary s s' Hd.
    apply save_file_Done in Hd as (fp & Hfp & _ & ->).
    unfold save_path in Hfp. rewrite Hp in Hfp. simpl in Hfp.
    by injection Hfp as <-.
  - intros ->. simpl. split; [done |].
    apply join_endswith, (endswith_app "").
  - intros He.
    destruct (String.eqb (PyStr.lstrip "/" (path parsed_url)) "") eqn:E.
    + apply String.eqb_eq in E. rewrite E, app_nil_l. split; [done |].
      apply join_endswith, (endswith_app "").
    + apply String.eqb_neq in E.
      rewrite (lstrip_endswith _ _ He E). split; [done |].
      apply join_endswith, endswith_app.
Qed.

(** C9. Query and fragment do not reach the local path: two URLs with
    the same path component are saved to the same file.  On a tree in
    normal form where no directory on the way to that file is a regular
    file and the file is not a directory, both saves return, and the
    later one replaces the content of the earlier one without an error:
    the file then holds the later content and the tree is the one the
    later save alone would have left.  The same holds whenever the first
    save returns. *)
Theorem save_file_ignores_query_and_fragment (url1 url2 : string)
    (p1 p2 : ParseResult) :
  urlparse url1 = Some p1 →
  urlparse url2 = Some p2 →
  path p1 = path p2 →
  ∃ file_path,
    save_path self url1 = Some file_path
    ∧ save_path self url2 = Some file_path
    ∧ (∀ c1 c2 e1 e2 b1 b2 s,
         plain_path file_path = true →
         normal_tree self (fs s) = true →
         existsb (FS.is_file (fs s)) (FS.ancestors file_path) = false →
         FS.is_dir (fs s) file_path = false →
         ∃ s1 s2,
           save_file self url1 c1 e1 b1 s = Done tt s1
           ∧ save_file self url2 c2 e2 b2 s1 = Done tt s2
           ∧ fs s1 !! file_path = Some c1
           ∧ fs s2 !! file_path = Some c2
           ∧ fs s2 = <[file_path := c2]> (fs s)
           ∧ trace s2 = Log INFO "Saved" file_path
                        :: Log INFO "Saved" file_path :: trace s)
    ∧ (∀ c1 c2 e1 e2 b1 b2 s s1,
         save_file self url1 c1 e1 b1 s = Done tt s1 →
         ∃ s2,
           save_file self url2 c2 e2 b2 s1 = Done tt s2
           ∧ fs s1 !! file_path = Some c1
           ∧ fs s2 !! file_path = Some c2
           ∧ fs s2 = <[file_path := c2]> (fs s)
           ∧ trace s2 = Log INFO "Saved" file_path :: trace s1).
Proof.
  intros H1 H2 Hpath.
  assert (save_path self url1 = save_path self url2) as Heq.
  { unfold save_path. rewrite H1, H2. simpl. by rewrite Hpath. }
  destruct (save_path self url1) as [file_path|] eqn:Hfp.
  2: { unfold save_path in Hfp. by rewrite H1 in Hfp. }
  exists file_path. split; [done |]. split; [done |].
  assert (∀ c1 c2 e1 e2 b1 b2 s s1,
            save_file self url1 c1 e1 b1 s = Done tt s1 →
            ∃ s2,
              save_file self url2 c2 e2 b2 s1 = Done tt s2
              ∧ fs s1 !! file_path = Some c1
              ∧ fs s2 !! file_path = Some c2
              ∧ fs s2 = <[file_path := c2]> (fs s)
              ∧ trace s2 = Log INFO "Saved" file_path :: trace s1) as Hagain.
  { intros c1 c2 e1 e2 b1 b2 s s1 Hd.
    apply save_file_Done in Hd as (fp & Hfp' & Hw & ->).
    assert (fp = file_path) as -> by congruence.
    eexists. split; [| split; [| split; [| split]]].
    - unfold save_file, bind, lift, get_state. rewrite <- Heq. simpl.
      rewrite (write_again _ _ _ _ c2 Hw). reflexivity.
    - simpl. apply lookup_insert_eq.
    - simpl. apply lookup_insert_eq.
    - simpl. apply insert_insert_eq.
    - done. }
  split; [| exact Hagain].
  intros c1 c2 e1 e2 b1 b2 s _ _ Hanc Hdir.
  destruct (save_path_below url1 file_path Hfp) as (_ & Hend & Hne).
  assert (save_file self url1 c1 e1 b1 s
          = Done tt (mkState (visited_urls s) (file_urls s)
                       (<[file_path := c1]> (fs s))
                       (Log INFO "Saved" file_path :: trace s))) as Hfirst.
  { unfold save_file, bind, lift, get_state. rewrite Hfp. simpl.
    unfold FS.write. apply String.eqb_neq in Hne.
    by rewrite Hne, Hend, Hanc, Hdir. }
  destruct (Hagain c1 c2 e1 e2 b1 b2 s _ Hfirst) as (s2 & Hs2 & Hl1 & Hl2 & Hfs & Ht).
  eexists _, s2. split; [exact Hfirst |]. by rewrite Ht.
Qed.

End UrlProperties.

Lemma is_same_domain_iff_netloc_witness :
  let lib := Ref.lib [] [] in
  let url := "https://helium:2368/blog/?page=2" in
  let p := mkParse "https" "helium:2368" "/blog/" "" "page=2" "" in
  let q := mkParse "http" "helium:2368" "" "" "" "" in
  urlparse url = Some p ∧ urlparse (source_url shipped) = Some q ∧
  (is_same_domain shipped url = Some true ↔ netloc p = netloc q).
Proof.
  intros lib url p q.
  split; [reflexivity | split; [reflexivity |]].
  apply (is_same_domain_iff_netloc shipped url p q); reflexivity.
Defined.

Lemma save_path_function_of_url_witness :
  let lib := Ref.lib [] [] in
  let url := "http://helium:2368/blog/?page=2" in
  urlparse url = Some (mkParse "http" "helium:2368" "/blog/" "" "page=2" "") ∧
  ∃ file_path, save_path shipped url = Some file_path
    ∧ PyStr.endswith "index.html" file_path = true.
Proof.
  intros lib url.
  assert (urlparse url = Some (mkParse "http" "helium:2368" "/blog/" "" "page=2" ""))
    as Hp by reflexivity.
  split; [exact Hp |].
  destruct (save_path_function_of_url shipped url _ Hp)
    as (fp & Hfp & _ & _ & Hslash).
  exists fp. split; [done |]. by apply Hslash.
Defined.

Lemma save_file_ignores_query_and_fragment_witness :
  let lib := Ref.lib [] [] in
  let url1 := "http://helium:2368/feed?a=1" in
  let url2 := "http://helium:2368/feed#top" in
  let file_path := "/home/ghost-static-site-gen/public/feed" in
  let s := mkState ∅ ∅ shipped_tree [] in
  save_path shipped url1 = Some file_path
  ∧ save_path shipped url2 = Some file_path
  ∧ ∃ s1 s2,
      save_file shipped url1 "first" ".xml" false s = Done tt s1
      ∧ save_file shipped url2 "second" ".xml" false s1 = Done tt s2
      ∧ fs s1 !! file_path = Some "first"
      ∧ fs s2 !! file_path = Some "second"
      ∧ fs s2 = <[file_path := "second"]> shipped_tree
      ∧ trace s2 = [Log INFO "Saved" file_path; Log INFO "Saved" file_path].
Proof.
  intros lib url1 url2 file_path s.
  assert (urlparse url1 = Some (mkParse "http" "helium:2368" "/feed" "" "a=1" ""))
    as H1 by reflexivity.
  assert (urlparse url2 = Some (mkParse "http" "helium:2368" "/feed" "" "" "top"))
    as H2 by reflexivity.
  destruct (save_file_ignores_query_and_fragment shipped url1 url2 _ _ H1 H2
              eq_refl) as (fp & Hfp1 & Hfp2 & Hrun & _).
  assert (fp = file_path) as ->.
  { assert (save_path shipped url1 = Some file_path) as Hc
      by (vm_compute; reflexivity).
    rewrite Hfp1 in Hc. by injection Hc. }
  split; [exact Hfp1 | split; [exact Hfp2 |]].
  assert (plain_path file_path = true) as Hplain by (vm_compute; reflexivity).
  assert (normal_tree shipped (fs s) = true) as Hnormal
    by (vm_compute; reflexivity).
  assert (existsb (FS.is_file (fs s)) (FS.ancestors file_path) = false) as Hanc
    by (vm_compute; reflexivity).
  assert (FS.is_dir (fs s) file_path = false) as Hdir
    by (vm_compute; reflexivity).
  exact (Hrun "first" "second" ".xml" ".xml" false false s
           Hplain Hnormal Hanc Hdir).
Defined.

(* ===================================================================== *)
(** ** The URL rewriting pass *)
(* ===================================================================== *)

(** [update_urls_in_all_files] opens the files it handles in text mode:
    the bytes are decoded as UTF-8 and line ends are translated.  The
    function of that name takes the stored content for the text read;
    the two are the same on a [readable_tree], which the statements on
    the contents of single files assume. *)

Lemma contains_nil (sub : string) :
  PyStr.contains sub "" = String.prefix sub "" || false.
Proof. reflexivity. Qed.

Lemma contains_cons (sub : string) (a : ascii) (s : string) :
  PyStr.contains sub (String a s)
  = String.prefix sub (String a s) || PyStr.contains sub s.
Proof. reflexivity. Qed.

Lemma contains_spec (sub s : string) :
  PyStr.contains sub s = true ↔ ∃ pre post, s = pre +:+ sub +:+ post.
Proof.
  induction s as [|a s IH].
  - rewrite contains_nil, orb_false_r, prefix_spec. split.
    + intros [r Hr]. by exists "", r.
    + intros (pre & post & Hs). destruct pre; sapp; [eauto | discriminate].
  - rewrite contains_cons, orb_true_iff, prefix_spec, IH. split.
    + intros [[r Hr] | (pre & post & ->)].
      * by exists "", r.
      * by exists (String a pre), post.
    + intros (pre & post & Hs). destruct pre as [|b pre]; sapp.
      * left. eauto.
      * right. injection Hs as -> ->. eauto.
Qed.

Lemma replace_go_cons (old new : string) (a : ascii) (s : string) :
  PyStr.replace_go old new 0 (String a s)
  = if String.prefix old (String a s)
    then new +:+ PyStr.replace_go old new (String.length old - 1) s
    else String a (PyStr.replace_go old new 0 s).
Proof. reflexivity. Qed.

Lemma replace_without_occurrence (old new s : string) :
  PyStr.contains old s = false → PyStr.replace old new s = s.
Proof.
  destruct old as [|o old].
  { destruct s; simpl; rewrite ?prefix_nil; discriminate. }
  unfold PyStr.replace. induction s as [|a s IH]; [done |].
  rewrite contains_cons, replace_go_cons.
  intros [Hp Hc]%orb_false_iff.
  rewrite Hp. f_equal. by apply IH.
Qed.

Lemma replace_puts_new (old new s : string) :
  old ≠ "" → PyStr.contains old s = true →
  PyStr.contains new (PyStr.replace old new s) = true.
Proof.
  destruct old as [|o old]; [done | intros _].
  unfold PyStr.replace. induction s as [|a s IH]; [done |].
  rewrite contains_cons, replace_go_cons.
  destruct (String.prefix (String o old) (String a s)) eqn:Hp.
  - intros _. apply contains_spec.
    by exists "", (PyStr.replace_go (String o old) new
                     (String.length (String o old) - 1) s).
  - rewrite orb_false_l. intros Hc. rewrite contains_cons, (IH Hc).
    apply orb_true_r.
Qed.

Lemma contains_trans (a b c : string) :
  PyStr.contains a b = true → PyStr.contains b c = true →
  PyStr.contains a c = true.
Proof.
  intros (p1 & q1 & ->)%contains_spec (p2 & q2 & ->)%contains_spec.
  apply contains_spec. exists (p2 +:+ p1), (q1 +:+ q2).
  by rewrite !app_assoc.
Qed.

Section PassProperties.

Context `{PyLib}.
Variable self : Generator.

Lemma walk_elem (fs : gmap string string) (root p c : string) :
  (p, c) ∈ FS.walk fs root ↔ fs !! p = Some c ∧ FS.below root p = true.
Proof.
  unfold FS.walk. rewrite list_elem_of_filter, elem_of_map_to_list. simpl. tauto.
Qed.

Lemma walk_NoDup (fs : gmap string string) (root : string) :
  NoDup (FS.walk fs root).*1.
Proof.
  unfold FS.walk. eapply sublist_NoDup; [apply (NoDup_fst_map_to_list fs) |].
  apply fmap_sublist, sublist_filter.
Qed.

Lemma update_file_other (acc : gmap string string * list string)
    (kc : string * string) (p : string) :
  kc.1 ≠ p → (update_file self acc kc).1 !! p = acc.1 !! p.
Proof.
  intros Hne. unfold update_file.
  destruct (handled kc.1); [| done]. case_bool_decide; [| done].
  simpl. by rewrite lookup_insert_ne.
Qed.

Lemma foldl_update_other (l : list (string * string))
    (acc : gmap string string * list string) (p : string) :
  p ∉ l.*1 → (foldl (update_file self) acc l).1 !! p = acc.1 !! p.
Proof.
  revert acc. induction l as [|kc l IH]; intros acc Hnin; [done |].
  simpl. rewrite fmap_cons, not_elem_of_cons in Hnin. destruct Hnin as [Hne Hnin].
  rewrite IH by done. by apply update_file_other.
Qed.

Lemma foldl_update_at (l : list (string * string))
    (acc : gmap string string * list string) (p c : string) :
  NoDup l.*1 → (p, c) ∈ l →
  (foldl (update_file self) acc l).1 !! p =
    if handled p && bool_decide (updated_content self p c ≠ c)
    then Some (updated_content self p c) else acc.1 !! p.
Proof.
  revert acc. induction l as [|kc l IH]; intros acc Hnd Hin.
  { by apply elem_of_nil in Hin. }
  rewrite fmap_cons in Hnd. apply NoDup_cons in Hnd as [Hnin Hnd].
  apply elem_of_cons in Hin as [<- | Hin]; simpl.
  - rewrite foldl_update_other by done. unfold update_file. simpl.
    destruct (handled p); [| done]. simpl. case_bool_decide; [| done].
    simpl. apply lookup_insert_eq.
  - rewrite (IH _ Hnd Hin). destruct (_ && _); [done |].
    apply update_file_other. intros Heq. apply Hnin.
    apply list_elem_of_fmap. exists (p, c). by split.
Qed.

Lemma foldl_update_written (l : list (string * string))
    (acc : gmap string string * list string) (p : string) :
  p ∈ (foldl (update_file self) acc l).2 ↔
  p ∈ acc.2 ∨ ∃ c, (p, c) ∈ l ∧ handled p = true ∧ updated_content self p c ≠ c.
Proof.
  revert acc. induction l as [|kc l IH]; intros acc.
  { simpl. split; [by left |]. intros [? | (c & Hin & _)]; [done |].
    by apply elem_of_nil in Hin. }
  simpl. rewrite IH. unfold update_file at 1. destruct kc as [k v]. simpl.
  split.
  - intros [Hin | (c & Hin & Hh & Hne)].
    + destruct (handled k) eqn:Hh; [| by left].
      case_bool_decide; [| by left]. simpl in Hin.
      apply elem_of_cons in Hin as [-> | Hin]; [| by left].
      right. exists v. rewrite elem_of_cons. auto.
    + right. exists c. rewrite elem_of_cons. auto.
  - intros [Hin | (c & Hin & Hh & Hne)].
    + left. destruct (handled k); [| done]. case_bool_decide; [| done].
      simpl. apply elem_of_cons. auto.
    + apply elem_of_cons in Hin as [[= -> ->] | Hin].
      * left. rewrite Hh. rewrite bool_decide_eq_true_2 by done.
        simpl. apply elem_of_cons. auto.
      * right. eauto.
Qed.

Lemma foldl_update_fixed (l : list (string * string))
    (acc : gmap string string * list string) :
  (∀ kc, kc ∈ l → handled kc.1 = true → updated_content self kc.1 kc.2 = kc.2) →
  foldl (update_file self) acc l = acc.
Proof.
  induction l as [|kc l IH]; intros Hfix; [done |].
  simpl. assert (update_file self acc kc = acc) as ->.
  { unfold update_file. destruct (handled kc.1) eqn:Hh; [| done].
    rewrite (Hfix kc) by (done || apply elem_of_cons; auto).
    by rewrite bool_decide_eq_false_2 by (intros ?; done). }
  apply IH. intros kc' Hin. apply Hfix. apply elem_of_cons. auto.
Qed.

Lemma update_lookup (fs : gmap string string) (p c : string) :
  fs !! p = Some c → FS.below (public_dir self) p = true → handled p = true →
  (update_urls_in_all_files self fs).1 !! p = Some (updated_content self p c).
Proof.
  intros Hp Hb Hh. unfold update_urls_in_all_files.
  rewrite (foldl_update_at _ _ p c) by (apply walk_NoDup || by apply walk_elem).
  rewrite Hh. simpl. case_bool_decide as Hne; [done |].
  by rewrite Hne.
Qed.

(** X1. On a tree in normal form whose handled files are plain texts,
    [update_urls_in_all_files] leaves this: a file below the output
    directory with one of the five text extensions holds its updated
    content, every other path is as before; no file appears and none
    disappears. *)
Theorem update_urls_in_all_files_lookup (fs : gmap string string) (p : string) :
  readable_tree self fs = true →
  (update_urls_in_all_files self fs).1 !! p
  = (c ← fs !! p;
     Some (if FS.below (public_dir self) p && handled p
           then updated_content self p c else c)).
Proof.
  intros _.
  destruct (fs !! p) as [c|] eqn:Hp; simpl.
  - destruct (FS.below (public_dir self) p) eqn:Hb; simpl.
    + destruct (handled p) eqn:Hh; [by apply update_lookup |].
      unfold update_urls_in_all_files.
      rewrite (foldl_update_at _ _ p c) by (apply walk_NoDup || by apply walk_elem).
      by rewrite Hh.
    + unfold update_urls_in_all_files. rewrite foldl_update_other; [done |].
      intros [[p' c'] [-> [_ Hb']%walk_elem]]%list_elem_of_fmap.
      simpl in *. congruence.
  - unfold update_urls_in_all_files. rewrite foldl_update_other; [done |].
    intros [[p' c'] [-> [Hp' _]%walk_elem]]%list_elem_of_fmap.
    simpl in *. congruence.
Qed.

(** X2. On a tree in normal form whose handled files are plain texts,
    the files [update_urls_in_all_files] writes are the handled files
    below the output directory whose updated content differs from the
    text they held. *)
Theorem update_urls_in_all_files_written (fs : gmap string string) (p : string) :
  readable_tree self fs = true →
  p ∈ (update_urls_in_all_files self fs).2 ↔
  ∃ c, fs !! p = Some c ∧ FS.below (public_dir self) p = true
       ∧ handled p = true ∧ updated_content self p c ≠ c.
Proof.
  intros _.
  unfold update_urls_in_all_files. rewrite foldl_update_written. simpl. split.
  - intros [Hin | (c & [Hp Hb]%walk_elem & Hh & Hne)];
      [by apply elem_of_nil in Hin |].
    eauto.
  - intros (c & Hp & Hb & Hh & Hne). right. exists c. by rewrite walk_elem.
Qed.

(** X3. A [.json] file below the output directory is handled like the other
    text files: on a tree in normal form whose handled files are plain
    texts, it holds afterwards its content with the occurrences of the
    source URL replaced by the target URL, as [str.replace] does. *)
Theorem json_files_are_rewritten (fs : gmap string string) (p c : string) :
  readable_tree self fs = true →
  fs !! p = Some c →
  FS.below (public_dir self) p = true →
  file_extension p = ".json" →
  handled p = true
  ∧ (update_urls_in_all_files self fs).1 !! p
    = Some (PyStr.replace (source_url self) (target_url self) c).
Proof.
  intros _ Hp Hb He.
  assert (handled p = true) as Hh by (unfold handled; by rewrite He).
  split; [done |].
  rewrite (update_lookup fs p c) by done.
  unfold updated_content. by rewrite He.
Qed.

(** X4. A file is written only when its content changes.  A second
    application writes nothing when, in the tree the first one left, no
    handled file contains the source URL any more and every handled HTML
    file is serialised back to its own text. *)
Theorem rewrite_pass_second_application (fs : gmap string string) :
  let once := update_urls_in_all_files self fs in
  (∀ p, p ∈ once.2 → once.1 !! p ≠ fs !! p)
  ∧ ((∀ p c, once.1 !! p = Some c →
             FS.below (public_dir self) p = true → handled p = true →
             PyStr.contains (source_url self) c = false
             ∧ (file_extension p = ".html" →
                soup_str (map (Soup.map_attrs (update_iframe_src self))
                              (parse_html c)) = c))
     → update_urls_in_all_files self once.1 = (once.1, [])).
Proof.
  intros once. split.
  - intros p Hin. unfold once, update_urls_in_all_files in Hin.
    apply foldl_update_written in Hin as [Hin | (c & Hin & Hh & Hne)].
    { by apply elem_of_nil in Hin. }
    apply walk_elem in Hin as [Hp Hb].
    unfold once. rewrite (update_lookup fs p c), Hp by done. congruence.
  - intros Hclean. unfold update_urls_in_all_files at 1.
    apply foldl_update_fixed. intros [p c] [Hp Hb]%walk_elem Hh. simpl in *.
    destruct (Hclean p c Hp Hb Hh) as [Hc Hhtml].
    unfold updated_content, update_all_urls.
    rewrite (replace_without_occurrence _ _ _ Hc).
    destruct (String.eqb (file_extension p) ".html") eqn:E; [| done].
    apply Hhtml. by apply String.eqb_eq.
Qed.

(** X5. [update_url] and [update_all_urls] return a text without the source
    URL as it is. *)
Theorem update_url_without_source (text : string) :
  PyStr.contains (source_url self) text = false →
  update_url self text = text ∧ update_all_urls self text = text.
Proof.
  intros Hc. unfold update_url, update_all_urls.
  by rewrite (replace_without_occurrence _ _ _ Hc).
Qed.

(** X6. When the target URL contains the source URL, a text that mentions
    the source URL still mentions it after [update_all_urls]: no number
    of applications frees such a text of the source URL. *)
Theorem update_all_urls_keeps_source_inside_target (text : string) :
  source_url self ≠ "" →
  PyStr.contains (source_url self) (target_url self) = true →
  PyStr.contains (source_url self) text = true →
  PyStr.contains (source_url self) (update_all_urls self text) = true.
Proof.
  intros Hne Hst Hc. unfold update_all_urls.
  eapply contains_trans; [exact Hst |]. by apply replace_puts_new.
Qed.

End PassProperties.

Lemma update_urls_in_all_files_lookup_witness :
  let lib := Ref.lib [] [] in
  let p := "/home/ghost-static-site-gen/public/assets/data.json" in
  (update_urls_in_all_files shipped shipped_tree).1 !! p
  = (c ← shipped_tree !! p;
     Some (if FS.below (public_dir shipped) p && handled p
           then updated_content shipped p c else c)).
Proof.
  intros lib p.
  assert (readable_tree shipped shipped_tree = true) as Hr
    by (vm_compute; reflexivity).
  exact (update_urls_in_all_files_lookup shipped shipped_tree p Hr).
Defined.

Lemma update_urls_in_all_files_written_witness :
  let lib := Ref.lib [] [] in
  let p := "/home/ghost-static-site-gen/public/assets/data.json" in
  p ∈ (update_urls_in_all_files shipped shipped_tree).2 ↔
  ∃ c, shipped_tree !! p = Some c ∧ FS.below (public_dir shipped) p = true
       ∧ handled p = true ∧ updated_content shipped p c ≠ c.
Proof.
  intros lib p.
  assert (readable_tree shipped shipped_tree = true) as Hr
    by (vm_compute; reflexivity).
  exact (update_urls_in_all_files_written shipped shipped_tree p Hr).
Defined.

Lemma json_files_are_rewritten_witness :
  let lib := Ref.lib [] [] in
  let p := "/home/ghost-static-site-gen/public/assets/data.json" in
  let c := "{'home': 'http://helium:2368/', 'feed': 'http://helium:2368/rss/'}" in
  handled p = true
  ∧ (update_urls_in_all_files shipped shipped_tree).1 !! p
    = Some (PyStr.replace (source_url shipped) (target_url shipped) c).
Proof.
  intros lib p c.
  assert (readable_tree shipped shipped_tree = true) as Hr
    by (vm_compute; reflexivity).
  assert (shipped_tree !! p = Some c) as Hp by (vm_compute; reflexivity).
  assert (FS.below (public_dir shipped) p = true) as Hb
    by (vm_compute; reflexivity).
  assert (file_extension p = ".json") as He by (vm_compute; reflexivity).
  exact (json_files_are_rewritten shipped shipped_tree p c Hr Hp Hb He).
Defined.

Lemma rewrite_pass_second_application_witness :
  let lib := Ref.lib [] [] in
  let once := update_urls_in_all_files shipped shipped_tree in
  update_urls_in_all_files shipped once.1 = (once.1, []).
Proof.
  intros lib once.
  assert (once.1 = {[ "/home/ghost-static-site-gen/public/assets/data.json" :=
                       "{'home': 'https://cadenkraft.com/', 'feed': 'https://cadenkraft.com/rss/'}" ]})
    as Honce by (vm_compute; reflexivity).
  refine (proj2 (rewrite_pass_second_application (H:=lib) shipped shipped_tree) _).
  fold once. rewrite Honce. intros p c [<- <-]%lookup_singleton_Some _ _.
  split; [vm_compute; reflexivity | intros Hext; vm_compute in Hext; discriminate].
Defined.

Lemma update_url_without_source_witness :
  let text := "https://fonts.example/css?family=Inter" in
  update_url shipped text = text ∧ update_all_urls shipped text = text.
Proof.
  intros text.
  assert (PyStr.contains (source_url shipped) text = false) as Hc
    by (vm_compute; reflexivity).
  exact (update_url_without_source shipped text Hc).
Defined.

Lemma update_all_urls_keeps_source_inside_target_witness :
  let text := "@import url(http://blog.example/a.css);" in
  PyStr.contains (source_url moved) (update_all_urls moved text) = true.
Proof.
  intros text.
  assert (source_url moved ≠ "") as Hne by (vm_compute; discriminate).
  assert (PyStr.contains (source_url moved) (target_url moved) = true) as Hst
    by (vm_compute; reflexivity).
  assert (PyStr.contains (source_url moved) text = true) as Hc
    by (vm_compute; reflexivity).
  exact (update_all_urls_keeps_source_inside_target moved text Hne Hst Hc).
Defined.

(** On [moved_tree] the second application changes the style sheet again. *)
Example rewrite_pass_twice_on_moved_site :
  let lib := Ref.lib [] [] in
  let once := update_urls_in_all_files moved moved_tree in
  let twice := update_urls_in_all_files moved once.1 in
  once.1 !! "/srv/site/public/style.css"
    = Some "@import url(http://blog.example.org/a.css);"
  ∧ twice.1 !! "/srv/site/public/style.css"
    = Some "@import url(http://blog.example.org.org/a.css);".
Proof. intros lib once twice. split; vm_compute; reflexivity. Qed.

(* ===================================================================== *)
(** ** The crawl *)
(* ===================================================================== *)

Section CrawlSoundness.

Context `{PyLib} `{Network}.
Variable self : Generator.

(** The unfolding of [scrape_url] on a URL it has not visited. *)
Lemma scrape_url_body_new (f : string → M unit) (url : string) (s : State) :
  url ∉ visited_urls s →
  scrape_url_body self f url s =
    match
      match requests_get (length (trace s)) url with
      | TransportFailure => Raised RequestException (dispatch url s)
      | Responded r => on_response self f url r (dispatch url s)
      end
    with
    | Done _ s' => Done tt (slept s')
    | Raised RequestException s' =>
        Done tt (slept (pushed (Log ERROR "Error fetching" url) s'))
    | Raised _ s' =>
        Done tt (slept (pushed (Log ERROR "Unexpected error scraping" url) s'))
    | OutOfFuel s' => OutOfFuel s'
    end.
Proof.
  intros Hv. unfold scrape_url_body, bind at 1, get_state.
  rewrite bool_decide_eq_false_2 by done.
  unfold bind at 1, modify. unfold bind at 1, try_all.
  unfold bind at 1, http_get, bind at 1, get_state. unfold bind at 1, emit, modify.
  change (length (trace (add_visited url s))) with (length (trace s)).
  destruct (requests_get (length (trace s)) url) as [|r].
  - reflexivity.
  - change (ret r ?x) with (Done r x). cbv beta iota.
    change (mkState _ _ _ _) with (dispatch url s).
    change (bind (raise_for_status r) _) with (on_response self f url r).
    destruct (on_response self f url r (dispatch url s)) as [[] s'|[] s'|s'];
      reflexivity.
Qed.

Lemma scrape_url_body_visited (f : string → M unit) (url : string) (s : State) :
  url ∈ visited_urls s → scrape_url_body self f url s = Done tt s.
Proof.
  intros Hv. unfold scrape_url_body, bind at 1, get_state.
  by rewrite bool_decide_eq_true_2.
Qed.

(** [scrape_url] lets no exception out. *)
Lemma scrape_url_body_outcome (f : string → M unit) (url : string) (s : State) :
  ∃ s', scrape_url_body self f url s = Done tt s'
        ∨ scrape_url_body self f url s = OutOfFuel s'.
Proof.
  destruct (decide (url ∈ visited_urls s)) as [Hv | Hv].
  { exists s. left. by apply scrape_url_body_visited. }
  rewrite scrape_url_body_new by done.
  destruct (requests_get _ _) as [|r]; [eauto |].
  destruct (on_response _ _ _ _ _) as [[] s'|[] s'|s']; eauto.
Qed.

Variable P : string → Prop.
Variables Q R : State → State → Prop.

Hypothesis P_same_domain : ∀ u, is_same_domain self u = Some true → P u.
Hypothesis Q_refl : ∀ s, Q s s.
Hypothesis Q_trans : ∀ s1 s2 s3, Q s1 s2 → Q s2 s3 → Q s1 s3.
Hypothesis Q_R : ∀ s1 s2, Q s1 s2 → R s1 s2.
Hypothesis Q_R_trans : ∀ s1 s2 s3, Q s1 s2 → R s2 s3 → R s1 s3.
Hypothesis Q_log : ∀ lv msg arg s, Q s (pushed (Log lv msg arg) s).
Hypothesis Q_request :
  ∀ at_ u s, at_ ≠ AtScrapeUrl → P u → Q s (pushed (Request at_ u) s).
Hypothesis Q_save :
  ∀ url p c fs' s, save_path self url = Some p →
                   FS.write (fs s) p c = Some fs' → Q s (set_fs fs' s).
Hypothesis Q_file : ∀ u s, Q s (add_file_url u s).
Hypothesis Q_call :
  ∀ u s s', P u → u ∉ visited_urls s → Q (dispatch u s) s' → Q s (slept s').
Hypothesis R_call :
  ∀ u s s', P u → u ∉ visited_urls s → R (dispatch u s) s' → R s s'.

Lemma sound_ret {A} (a : A) : respects Q R (ret a).
Proof. intros s. apply Q_refl. Qed.

Lemma sound_raise {A} (e : exn) : respects Q R (raise (A:=A) e).
Proof. intros s. apply Q_refl. Qed.

Lemma sound_lift {A} (e : exn) (o : option A) : respects Q R (lift e o).
Proof. destruct o; [apply sound_ret | apply sound_raise]. Qed.

Lemma sound_bind {A B} (m : M A) (f : A → M B) :
  respects Q R m → (∀ a, respects Q R (f a)) → respects Q R (bind m f).
Proof.
  intros Hm Hf s. unfold bind. specialize (Hm s).
  destruct (m s) as [a s1|e s1|s1]; [| done | done].
  specialize (Hf a s1). destruct (f a s1); eauto.
Qed.

Lemma sound_try_request {A} (m h : M A) :
  respects Q R m → respects Q R h → respects Q R (try_request m h).
Proof.
  intros Hm Hh s. unfold try_request. specialize (Hm s).
  destruct (m s) as [a s1|e s1|s1]; [done | | done].
  destruct e; try done. specialize (Hh s1). destruct (h s1); eauto.
Qed.

Lemma sound_for_each {A} (xs : list A) (f : A → M unit) :
  (∀ x, respects Q R (f x)) → respects Q R (for_each xs f).
Proof.
  intros Hf. induction xs as [|x xs IH]; [apply sound_ret |].
  apply sound_bind; [apply Hf | intros _; apply IH].
Qed.

Lemma sound_when (b : bool) (m : M unit) : respects Q R m → respects Q R (when b m).
Proof. destruct b; [done | intros _; apply sound_ret]. Qed.

Lemma sound_logging (lv : level) (msg arg : string) : respects Q R (logging lv msg arg).
Proof. intros s. apply Q_log. Qed.

Lemma sound_add_file_url (u : string) : respects Q R (modify (add_file_url u)).
Proof. intros s. apply Q_file. Qed.

Lemma sound_same_domain {A} (u : string) (k : bool → M A) :
  (is_same_domain self u = Some true → respects Q R (k true)) →
  respects Q R (k false) →
  respects Q R (bind (lift ValueError (is_same_domain self u)) k).
Proof.
  intros Ht Hf. destruct (is_same_domain self u) as [[|]|] eqn:E.
  - intros s. apply (Ht eq_refl s).
  - intros s. apply (Hf s).
  - intros s. apply Q_refl.
Qed.

Lemma sound_save_file (url content extension : string) (is_binary : bool) :
  respects Q R (save_file self url content extension is_binary).
Proof.
  intros s. unfold save_file, bind, lift, get_state.
  destruct (save_path self url) as [p|] eqn:Hp; [| apply Q_refl]. simpl.
  destruct (FS.write (fs s) p content) as [fs'|] eqn:Hw; [| apply Q_refl]. simpl.
  eapply Q_trans; [by eapply Q_save |].
  exact (Q_log INFO "Saved" p (set_fs fs' s)).
Qed.

Lemma sound_http_get (at_ : call_site) (u : string) :
  at_ ≠ AtScrapeUrl → P u → respects Q R (http_get at_ u).
Proof.
  intros Hat Hu s. unfold http_get, bind, get_state, emit, modify.
  destruct (requests_get _ _); by apply Q_request.
Qed.

Lemma sound_raise_for_status (r : Response) : respects Q R (raise_for_status r).
Proof.
  unfold raise_for_status. destruct (is_error_status _);
    [apply sound_raise | apply sound_ret].
Qed.

Ltac sound_step :=
  cbn [negb];
  lazymatch goal with
  | |- respects _ _ (bind (lift _ (is_same_domain _ _)) _) =>
      apply sound_same_domain; [intros ? |]
  | |- respects _ _ (bind _ _) => apply sound_bind; [| intros ?]
  | |- respects _ _ (try_request _ _) => apply sound_try_request
  | |- respects _ _ (for_each _ _) => apply sound_for_each; intros ?
  | |- respects _ _ (when false _) => apply sound_ret
  | |- respects _ _ (when _ _) => apply sound_when
  | |- respects _ _ (ret _) => apply sound_ret
  | |- respects _ _ (lift _ _) => apply sound_lift
  | |- respects _ _ (logging _ _ _) => apply sound_logging
  | |- respects _ _ (modify (add_file_url _)) => apply sound_add_file_url
  | |- respects _ _ (save_file _ _ _ _ _) => apply sound_save_file
  | |- respects _ _ (raise_for_status _) => apply sound_raise_for_status
  | |- respects _ _ (http_get _ _) => apply sound_http_get; [done | by auto]
  | |- respects _ _ (if ?b then _ else _) => destruct b
  | |- respects _ _ (match ?x with _ => _ end) => destruct x
  end.

Lemma sound_fetch_image (at_ : call_site) (what u : string) :
  at_ ≠ AtScrapeUrl → P u → respects Q R (fetch_image self at_ what u).
Proof. intros Hat Hu. unfold fetch_image. repeat sound_step. Qed.

Lemma sound_refetch_soup (at_ : call_site) (u : string) :
  at_ ≠ AtScrapeUrl → P u → respects Q R (refetch_soup at_ u).
Proof. intros Hat Hu. unfold refetch_soup. repeat sound_step. Qed.

Lemma sound_scrape_meta_images (url : string) :
  P url → respects Q R (scrape_meta_images self url).
Proof.
  intros Hu. unfold scrape_meta_images.
  apply sound_bind; [by apply sound_refetch_soup |].
  intros [soup|]; [| apply sound_ret].
  repeat first [apply sound_fetch_image; [done | by auto] | sound_step].
Qed.

Lemma sound_scrape_image_sizes (url : string) :
  P url → respects Q R (scrape_image_sizes self url).
Proof.
  intros Hu. unfold scrape_image_sizes.
  apply sound_bind; [by apply sound_refetch_soup |].
  intros [soup|]; [| apply sound_ret].
  repeat first [apply sound_fetch_image; [done | by auto] | sound_step].
Qed.

Lemma sound_scan_image_sizes (soup : list node) :
  respects Q R (scan_image_sizes self soup).
Proof.
  unfold scan_image_sizes.
  repeat first [apply sound_fetch_image; [done | by auto] | sound_step].
Qed.

Lemma sound_scan_meta_images (soup : list node) :
  respects Q R (scan_meta_images self soup).
Proof.
  unfold scan_meta_images.
  repeat first [apply sound_fetch_image; [done | by auto] | sound_step].
Qed.

Section Nested.

Variable f : string → M unit.
Hypothesis sound_f : ∀ u, P u → respects Q R (f u).

Lemma sound_follow (base ref : string) : respects Q R (follow self f base ref).
Proof. unfold follow. repeat first [by apply sound_f; auto | sound_step]. Qed.

Lemma sound_scrape_iframe_content (iframe_src : string) :
  respects Q R (scrape_iframe_content self f iframe_src).
Proof.
  unfold scrape_iframe_content.
  repeat first [apply sound_follow | sound_step].
Qed.

Lemma sound_process_html (url html_content : string) :
  respects Q R (process_html self f url html_content).
Proof.
  unfold process_html.
  repeat first [apply sound_follow | apply sound_scrape_iframe_content | sound_step].
Qed.

Lemma sound_save_response (url : string) (r : Response) :
  respects Q R (save_response self url r).
Proof. unfold save_response. repeat sound_step. Qed.

Lemma sound_on_response (url : string) (r : Response) :
  P url → respects Q R (on_response self f url r).
Proof.
  intros Hu. unfold on_response.
  repeat first [apply sound_process_html | by apply sound_scrape_image_sizes
               | by apply sound_scrape_meta_images | apply sound_save_response
               | sound_step].
Qed.

Lemma sound_scrape_url_body (url : string) :
  P url → respects Q R (scrape_url_body self f url).
Proof.
  intros Hu s. destruct (decide (url ∈ visited_urls s)) as [Hv | Hv].
  { rewrite scrape_url_body_visited by done. apply Q_refl. }
  rewrite scrape_url_body_new by done.
  destruct (requests_get _ _) as [|r].
  { apply (Q_call url); [done | done | apply Q_log]. }
  pose proof (sound_on_response url r Hu (dispatch url s)) as Hs.
  destruct (on_response _ _ _ _ _) as [[] s'|e s'|s'].
  - by apply (Q_call url).
  - destruct e; apply (Q_call url); try done;
      (eapply Q_trans; [exact Hs | apply Q_log]).
  - by apply (R_call url).
Qed.

End Nested.

Lemma sound_scrape_url (fuel : nat) (url : string) :
  P url → respects Q R (scrape_url self fuel url).
Proof.
  revert url. induction fuel as [|n IH]; intros url Hu.
  - intros s. apply Q_R, Q_refl.
  - simpl. by apply sound_scrape_url_body.
Qed.

Lemma sound_scrape_site (fuel : nat) :
  P (source_url self) →
  (∀ file u, file ∈ root_files → urljoin (source_url self) file = Some u → P u) →
  respects Q R (scrape_site self fuel).
Proof.
  intros Hs Hr. unfold scrape_site, scrape_root_files.
  apply sound_bind; [by apply sound_scrape_url |]. intros _.
  assert (∀ l, (∀ x, x ∈ l → x ∈ root_files) →
               respects Q R (for_each l (λ file, url <- lift ValueError (urljoin (source_url self) file) ;; scrape_url self fuel url))) as Hl.
  { induction l as [|x l IH]; intros Hin; [apply sound_ret |].
    apply sound_bind.
    - destruct (urljoin (source_url self) x) as [u|] eqn:E; [| apply sound_raise].
      intros s. apply sound_scrape_url. eapply Hr; [| done]. apply Hin. left.
    - intros _. apply IH. intros y Hy. apply Hin. by right. }
  by apply Hl.
Qed.

End CrawlSoundness.

Section Frames.

Context `{PyLib} `{Network}.
Variable self : Generator.
Variable P : string → Prop.
Variables Q R : State → State → Prop.
Hypothesis frame : CrawlFrame self P Q R.

Lemma frame_on_response (f : string → M unit) (url : string) (r : Response) :
  (∀ u, P u → respects Q R (f u)) → P url →
  respects Q R (on_response self f url r).
Proof. destruct frame. intros Hf Hu. by apply (sound_on_response self P Q R). Qed.

Lemma frame_scan_image_sizes (soup : list node) :
  respects Q R (scan_image_sizes self soup).
Proof. destruct frame. by apply (sound_scan_image_sizes self P Q R). Qed.

Lemma frame_scan_meta_images (soup : list node) :
  respects Q R (scan_meta_images self soup).
Proof. destruct frame. by apply (sound_scan_meta_images self P Q R). Qed.

Lemma frame_scrape_image_sizes (url : string) :
  P url → respects Q R (scrape_image_sizes self url).
Proof. destruct frame. intros Hu. by apply (sound_scrape_image_sizes self P Q R). Qed.

Lemma frame_scrape_meta_images (url : string) :
  P url → respects Q R (scrape_meta_images self url).
Proof. destruct frame. intros Hu. by apply (sound_scrape_meta_images self P Q R). Qed.

Lemma frame_scrape_url (fuel : nat) (url : string) :
  P url → respects Q R (scrape_url self fuel url).
Proof. destruct frame. intros Hu. by apply (sound_scrape_url self P Q R). Qed.

Lemma frame_scrape_site (fuel : nat) :
  P (source_url self) →
  (∀ file u, file ∈ root_files → urljoin (source_url self) file = Some u → P u) →
  respects Q R (scrape_site self fuel).
Proof.
  destruct frame. intros Hs Hr. by apply (sound_scrape_site self P Q R).
Qed.

End Frames.

Section CrawlProperties.

Context `{PyLib} `{Network}.
Variable self : Generator.

Lemma grows_refl (s : State) : grows s s.
Proof. by repeat split. Qed.

Lemma grows_trans (s1 s2 s3 : State) : grows s1 s2 → grows s2 s3 → grows s1 s3.
Proof.
  intros (? & ? & ? & ?) (? & ? & ? & ?).
  repeat split; by etrans.
Qed.

Lemma grows_pushed (e : event) (s : State) : grows s (pushed e s).
Proof. repeat split; try done. by apply suffix_cons_r. Qed.

Lemma grows_dispatch (u : string) (s : State) : grows s (dispatch u s).
Proof.
  repeat split; try done; simpl; [set_solver | by apply suffix_cons_r].
Qed.

Lemma grows_frame : CrawlFrame self (λ _, True) grows grows.
Proof.
  split.
  - done.
  - apply grows_refl.
  - apply grows_trans.
  - done.
  - apply grows_trans.
  - intros. apply grows_pushed.
  - intros. apply grows_pushed.
  - intros url' p c fs' s _ ->%write_Some. repeat split; try done.
    simpl. rewrite dom_insert_L. set_solver.
  - intros u s. repeat split; try done. simpl. set_solver.
  - intros u s s' _ _ Hg.
    eapply grows_trans; [apply (grows_dispatch u) |].
    eapply grows_trans; [exact Hg | apply grows_pushed].
  - intros u s s' _ _ Hg. eapply grows_trans; [apply (grows_dispatch u) | done].
Qed.

Lemma final_grows (fuel : nat) (url : string) (s : State) :
  grows s (final (scrape_url self fuel url s)).
Proof.
  pose proof (frame_scrape_url self _ _ _ grows_frame fuel url I s) as Hg.
  by destruct (scrape_url self fuel url s).
Qed.

Lemma final_site_grows (fuel : nat) (s : State) :
  grows s (final (scrape_site self fuel s)).
Proof.
  pose proof (frame_scrape_site self _ _ _ grows_frame fuel I (λ _ _ _ _, I) s) as Hg.
  by destruct (scrape_site self fuel s).
Qed.

(** X7. Whatever way a call of [scrape_url] or [scrape_site] ends, it has
    only added: URLs to [visited_urls] and [file_urls], files to the
    output tree, events to the trace. *)
Theorem crawl_only_adds (fuel : nat) (url : string) (s : State) :
  grows s (final (scrape_url self fuel url s))
  ∧ grows s (final (scrape_site self fuel s)).
Proof. split; [apply final_grows | apply final_site_grows]. Qed.

(** X8. [scrape_url] lets no exception out: whatever the server answers
    and whatever the libraries raise, it returns, unless the bound on
    nested calls cuts it off. *)
Theorem scrape_url_never_raises (fuel : nat) (url : string) (s : State) :
  ∃ s', scrape_url self fuel url s = Done tt s'
        ∨ scrape_url self fuel url s = OutOfFuel s'.
Proof.
  destruct fuel as [|n]; [exists s; by right |].
  apply scrape_url_body_outcome.
Qed.

Lemma dispatched_pushed (e : event) (s : State) :
  (∀ u, e ≠ Request AtScrapeUrl u) →
  dispatched (trace (pushed e s)) = dispatched (trace s).
Proof.
  intros He. unfold dispatched. simpl.
  destruct e as [[] u| |]; try done. by destruct (He u).
Qed.

Lemma agrees_pushed (e : event) (s : State) :
  (∀ u, e ≠ Request AtScrapeUrl u) →
  dispatch_log_agrees s → dispatch_log_agrees (pushed e s).
Proof.
  intros He. unfold dispatch_log_agrees. by rewrite dispatched_pushed.
Qed.

Lemma agrees_dispatch (u : string) (s : State) :
  u ∉ visited_urls s → dispatch_log_agrees s → dispatch_log_agrees (dispatch u s).
Proof.
  intros Hu [Hv Hn]. split; simpl.
  - by rewrite Hv.
  - constructor; [| done]. rewrite Hv in Hu. set_solver.
Qed.

Lemma agrees_frame :
  CrawlFrame self (λ _, True)
    (λ s s', dispatch_log_agrees s → dispatch_log_agrees s')
    (λ s s', dispatch_log_agrees s → dispatch_log_agrees s').
Proof.
  split.
  - done.
  - done.
  - eauto.
  - done.
  - eauto.
  - intros lv msg arg s. by apply agrees_pushed.
  - intros at_ u s Hat _. apply agrees_pushed. intros u' [= -> _]. done.
  - done.
  - done.
  - intros u s s' _ Hu Hq Hs. apply agrees_pushed; [done |].
    by apply Hq, agrees_dispatch.
  - intros u s s' _ Hu Hq Hs. by apply Hq, agrees_dispatch.
Qed.

(** X9. The requests [scrape_url] itself sends are the visited URLs, each
    of them requested once: a state in which the two agree is followed by
    one in which they agree, however [scrape_url] or [scrape_site] ends. *)
Theorem crawl_requests_each_visited_url_once
    (fuel : nat) (url : string) (s : State) :
  dispatch_log_agrees s →
  dispatch_log_agrees (final (scrape_url self fuel url s))
  ∧ dispatch_log_agrees (final (scrape_site self fuel s)).
Proof.
  intros Hs. split.
  - pose proof (frame_scrape_url self _ _ _ agrees_frame fuel url I s) as Hg.
    destruct (scrape_url self fuel url s); by apply Hg.
  - pose proof (frame_scrape_site self _ _ _ agrees_frame fuel I
                  (λ _ _ _ _, I) s) as Hg.
    destruct (scrape_site self fuel s); by apply Hg.
Qed.

Lemma sleeps_pushed (e : event) (s : State) :
  sleeps (trace (pushed e s)) = (if is_sleep e then 1 else 0) + sleeps (trace s).
Proof. unfold sleeps. simpl. by destruct (is_sleep e). Qed.

Lemma dispatched_dispatch (u : string) (s : State) :
  dispatched (trace (dispatch u s)) = u :: dispatched (trace s).
Proof. reflexivity. Qed.

Lemma sleeps_dispatch (u : string) (s : State) :
  sleeps (trace (dispatch u s)) = sleeps (trace s).
Proof. reflexivity. Qed.

Lemma pauses_frame :
  CrawlFrame self (λ _, True)
    (λ s s', length (dispatched (trace s')) + sleeps (trace s)
             = length (dispatched (trace s)) + sleeps (trace s'))
    (λ s s', length (dispatched (trace s)) + sleeps (trace s')
             ≤ length (dispatched (trace s')) + sleeps (trace s)).
Proof.
  split.
  - done.
  - done.
  - intros; simpl in *; lia.
  - intros; simpl in *; lia.
  - intros; simpl in *; lia.
  - intros lv msg arg s. rewrite dispatched_pushed, sleeps_pushed by done.
    simpl. lia.
  - intros at_ u s Hat _. rewrite dispatched_pushed, sleeps_pushed.
    + simpl. lia.
    + intros u' [= -> _]. done.
  - done.
  - done.
  - intros u s s' _ _ Hq. unfold slept.
    rewrite dispatched_pushed, sleeps_pushed by done.
    rewrite dispatched_dispatch, sleeps_dispatch in Hq.
    simpl in *. lia.
  - intros u s s' _ _ Hq.
    rewrite dispatched_dispatch, sleeps_dispatch in Hq.
    simpl in *. lia.
Qed.

(** X10. A call of [scrape_url] that returns has paused once for every
    request it sent itself, nested calls counted; the requests sent by
    [scrape_image_sizes], [scrape_meta_images] and [scrape_iframe_content]
    add no pause.  A call that is cut off has paused at most that often. *)
Theorem scrape_url_pauses_once_per_request
    (fuel : nat) (url : string) (s : State) :
  match scrape_url self fuel url s with
  | Done _ s' | Raised _ s' =>
      length (dispatched (trace s')) + sleeps (trace s)
      = length (dispatched (trace s)) + sleeps (trace s')
  | OutOfFuel s' =>
      length (dispatched (trace s)) + sleeps (trace s')
      ≤ length (dispatched (trace s')) + sleeps (trace s)
  end.
Proof. apply (frame_scrape_url self _ _ _ pauses_frame fuel url I s). Qed.

Lemma scope_frame (entry : string → Prop) :
  let P := λ u, entry u ∨ is_same_domain self u = Some true in
  CrawlFrame self P
    (λ s s', Forall P (requested (trace s)) → Forall P (requested (trace s')))
    (λ s s', Forall P (requested (trace s)) → Forall P (requested (trace s'))).
Proof.
  intros P. split.
  - intros u Hu. by right.
  - done.
  - eauto.
  - done.
  - eauto.
  - done.
  - intros at_ u s _ Hu Hs. by apply Forall_cons.
  - done.
  - done.
  - intros u s s' Hu _ Hq Hs. apply Hq. by apply Forall_cons.
  - intros u s s' Hu _ Hq Hs. apply Hq. by apply Forall_cons.
Qed.

(** X11. Every request of the crawl, from whatever place in the source, goes
    to a URL it was started on or to a URL with the network location of
    the source URL: [scrape_url] adds to the requests made before only
    requests to its argument and to URLs that [is_same_domain] accepts,
    [scrape_site] only requests to the source URL, to the seven root
    files joined to it, and to URLs that [is_same_domain] accepts. *)
Theorem crawl_requests_stay_in_scope (fuel : nat) (url : string) (s : State) :
  Forall (λ u, (u ∈ requested (trace s) ∨ u = url)
               ∨ is_same_domain self u = Some true)
         (requested (trace (final (scrape_url self fuel url s))))
  ∧ Forall (λ u, (u ∈ requested (trace s) ∨ u = source_url self
                  ∨ ∃ file, file ∈ root_files
                            ∧ urljoin (source_url self) file = Some u)
                 ∨ is_same_domain self u = Some true)
           (requested (trace (final (scrape_site self fuel s)))).
Proof.
  split.
  - pose proof (frame_scrape_url self _ _ _
                  (scope_frame (λ u, u ∈ requested (trace s) ∨ u = url))
                  fuel url (or_introl (or_intror eq_refl)) s) as Hg.
    destruct (scrape_url self fuel url s); apply Hg;
      apply Forall_forall; intros u Hu; left; by left.
  - pose proof (frame_scrape_site self _ _ _
                  (scope_frame (λ u, u ∈ requested (trace s) ∨ u = source_url self
                                     ∨ ∃ file, file ∈ root_files
                                         ∧ urljoin (source_url self) file = Some u))
                  fuel (or_introl (or_intror (or_introl eq_refl)))) as Hg.
    simpl in Hg.
    match type of Hg with
    | ?A → _ => assert A as Hroot by (intros file u Hf Hu; left; right; right; eauto)
    end.
    specialize (Hg Hroot s).
    destruct (scrape_site self fuel s); apply Hg;
      apply Forall_forall; intros u Hu; left; by left.
Qed.

(** X12. A fetch that fails, by a transport failure or by a status from 400
    to 599, is logged as an error and nothing else happens: the URL is
    marked as visited, no file is written, [scrape_url] pauses and
    returns. *)
Theorem failed_fetch_is_logged_and_skipped (n : nat) (url : string) (s : State) :
  url ∉ visited_urls s →
  (requests_get (length (trace s)) url = TransportFailure
   ∨ ∃ r, requests_get (length (trace s)) url = Responded r
          ∧ is_error_status (status_code r) = true) →
  scrape_url self (S n) url s
  = Done tt (mkState ({[url]} ∪ visited_urls s) (file_urls s) (fs s)
               (Sleep 100 :: Log ERROR "Error fetching" url
                :: Request AtScrapeUrl url :: trace s)).
Proof.
  intros Hv Hf. simpl. rewrite scrape_url_body_new by done.
  destruct Hf as [-> | (r & -> & He)]; [done |].
  unfold on_response, bind, raise_for_status. by rewrite He.
Qed.

(** X13. A response that is not HTML and whose status is not from 400 to 599
    (200 or not) is saved as it is under the local path of the URL. *)
Theorem other_response_is_saved (n : nat) (url p : string) (r : Response)
    (fs' : gmap string string) (s : State) :
  url ∉ visited_urls s →
  requests_get (length (trace s)) url = Responded r →
  is_error_status (status_code r) = false →
  PyStr.contains "text/html" (PyStr.lower (content_type r)) = false →
  save_path self url = Some p →
  FS.write (fs s) p (content r) = Some fs' →
  ∃ s', scrape_url self (S n) url s = Done tt s'
        ∧ fs s' = <[p := content r]> (fs s)
        ∧ visited_urls s' = {[url]} ∪ visited_urls s
        ∧ dispatched (trace s') = url :: dispatched (trace s)
        ∧ head (trace s') = Some (Sleep 100).
Proof.
  intros Hv Hr He Hh Hp Hw. simpl. rewrite scrape_url_body_new by done.
  rewrite Hr. pose proof (write_Some _ _ _ _ Hw) as ->.
  assert (∃ parsed, urlparse url = Some parsed) as [parsed Hparsed].
  { unfold save_path in Hp. destruct (urlparse url); [eauto | done]. }
  assert (∀ s1, fs s1 = fs s →
            save_response self url r s1
            = Done tt (pushed (Log INFO "Saved" p)
                         (set_fs (<[p := content r]> (fs s)) s1))) as Hsave.
  { intros s1 Hs1. unfold save_response, bind, lift. rewrite Hparsed. simpl.
    unfold save_file, bind, lift, get_state. rewrite Hp. simpl.
    rewrite Hs1, Hw. reflexivity. }
  unfold on_response, bind at 1, raise_for_status. rewrite He. simpl.
  rewrite Hh.
  destruct (PyStr.contains "image" _);
    [| match goal with
       | |- context [if ?b then _ else _] => destruct b
       end];
    unfold bind at 1; simpl; rewrite Hsave by done;
    eexists; (split; [reflexivity | done]).
Qed.

Lemma Done_visited (fuel : nat) (url : string) (s s' : State) :
  scrape_url self fuel url s = Done tt s' → url ∈ visited_urls s'.
Proof.
  destruct fuel as [|n]; [done |]. simpl.
  destruct (decide (url ∈ visited_urls s)) as [Hv | Hv].
  { rewrite scrape_url_body_visited by done. by intros [= <-]. }
  rewrite scrape_url_body_new by done.
  assert (∀ o : Outcome unit,
            grows (dispatch url s) (final o) → url ∈ visited_urls (final o)) as Hin.
  { intros o (Hsub & _). apply Hsub. simpl. set_solver. }
  destruct (requests_get _ _) as [|r].
  { intros [= <-]. simpl. set_solver. }
  pose proof (frame_on_response self _ _ _ grows_frame (scrape_url self n) url r
                (λ u _, frame_scrape_url self _ _ _ grows_frame n u I) I
                (dispatch url s)) as Hg.
  destruct (on_response _ _ _ _ _) as [[] s1|e s1|s1] eqn:E;
    [| destruct e |]; intros [= <-]; try apply (Hin (Done tt s1) Hg);
    apply (Hin (Raised ValueError s1) Hg).
Qed.

(** X14. A call of [scrape_url] that returned has marked its URL, and
    calling it again on that URL changes nothing: no request, no file, no
    pause. *)
Theorem scrape_url_again_does_nothing (fuel n : nat) (url : string) (s s' : State) :
  scrape_url self fuel url s = Done tt s' →
  url ∈ visited_urls s' ∧ scrape_url self (S n) url s' = Done tt s'.
Proof.
  intros Hd%Done_visited. split; [done |].
  simpl. by apply scrape_url_body_visited.
Qed.

Lemma root_files_Done (fuel : nat) (l : list string) (s s' : State) :
  for_each l (λ file, url <- lift ValueError (urljoin (source_url self) file) ;;
                      scrape_url self fuel url) s = Done tt s' →
  grows s s'
  ∧ ∀ file, file ∈ l →
      ∃ u, urljoin (source_url self) file = Some u ∧ u ∈ visited_urls s'.
Proof.
  revert s. induction l as [|x l IH]; intros s.
  { intros [= <-]. split; [apply grows_refl |]. by intros file ?%elem_of_nil. }
  simpl. unfold bind at 1. unfold bind at 1, lift.
  destruct (urljoin (source_url self) x) as [u|] eqn:Hu; [| done]. simpl.
  destruct (scrape_url self fuel u s) as [[] s1|e s1|s1] eqn:E; [| done | done].
  intros [Hg Hl]%IH. pose proof (final_grows fuel u s) as Hg1. rewrite E in Hg1.
  split; [by eapply grows_trans |].
  intros file [-> | Hin]%elem_of_cons; [| by apply Hl].
  exists u. split; [done |]. destruct Hg as (Hsub & _). apply Hsub.
  by eapply Done_visited.
Qed.

(** X15. When [scrape_site] returns, the source URL and the seven root files,
    each joined to the source URL, have been visited. *)
Theorem scrape_site_visits_entry_points (fuel : nat) (s s' : State) :
  scrape_site self fuel s = Done tt s' →
  source_url self ∈ visited_urls s'
  ∧ ∀ file, file ∈ root_files →
      ∃ u, urljoin (source_url self) file = Some u ∧ u ∈ visited_urls s'.
Proof.
  unfold scrape_site, bind.
  destruct (scrape_url self fuel (source_url self) s) as [[] s1|e s1|s1] eqn:E;
    [| done | done].
  intros [Hg Hl]%root_files_Done. split; [| done].
  destruct Hg as (Hsub & _). apply Hsub. by eapply Done_visited.
Qed.

End CrawlProperties.

Lemma crawl_requests_each_visited_url_once_witness :
  dispatch_log_agrees
    (final (scrape_url (H:=small_lib) (H0:=small_net) shipped 3
              "http://helium:2368" Ref.initial))
  ∧ dispatch_log_agrees
      (final (scrape_site (H:=small_lib) (H0:=small_net) shipped 3 Ref.initial)).
Proof.
  assert (dispatch_log_agrees Ref.initial) as Hi
    by (split; [reflexivity | constructor]).
  exact (crawl_requests_each_visited_url_once (H:=small_lib) (H0:=small_net)
           shipped 3 "http://helium:2368" Ref.initial Hi).
Defined.

Lemma failed_fetch_is_logged_and_skipped_witness :
  let url := "http://helium:2368/favicon.ico" in
  scrape_url (H:=small_lib) (H0:=small_net) shipped 1 url Ref.initial
  = Done tt (mkState ({[url]} ∪ ∅) ∅ ∅
               [Sleep 100; Log ERROR "Error fetching" url;
                Request AtScrapeUrl url]).
Proof.
  intros url.
  assert (url ∉ visited_urls Ref.initial) as Hv by apply not_elem_of_empty.
  assert (∃ r, requests_get (Network:=small_net) (length (trace Ref.initial)) url
               = Responded r
               ∧ is_error_status (status_code r) = true) as Hf
    by (eexists; split; vm_compute; reflexivity).
  exact (failed_fetch_is_logged_and_skipped (H:=small_lib) (H0:=small_net)
           shipped 0 url Ref.initial Hv (or_intror Hf)).
Defined.

Lemma other_response_is_saved_witness :
  let url := "http://helium:2368/robots.txt" in
  let p := "/home/ghost-static-site-gen/public/robots.txt" in
  ∃ s', scrape_url (H:=small_lib) (H0:=small_net) shipped 1 url Ref.initial
        = Done tt s'
        ∧ fs s' = <[p := "User-agent: *"]> ∅.
Proof.
  intros url p.
  assert (url ∉ visited_urls Ref.initial) as Hv by apply not_elem_of_empty.
  pose (r := mkResponse 304 "text/plain" "" "User-agent: *").
  assert (requests_get (Network:=small_net) (length (trace Ref.initial)) url
          = Responded r) as Hr by (vm_compute; reflexivity).
  assert (is_error_status (status_code r) = false) as He by reflexivity.
  assert (PyStr.contains "text/html" (PyStr.lower (content_type r)) = false)
    as Hh by (vm_compute; reflexivity).
  assert (save_path (H:=small_lib) shipped url = Some p) as Hp
    by (vm_compute; reflexivity).
  assert (FS.write (fs Ref.initial) p (content r)
          = Some (<[p := content r]> (fs Ref.initial))) as Hw
    by (vm_compute; reflexivity).
  destruct (other_response_is_saved (H:=small_lib) (H0:=small_net)
              shipped 0 url p r _ Ref.initial Hv Hr He Hh Hp Hw)
    as (s' & Hd & Hfs & _).
  exists s'. split; [exact Hd | exact Hfs].
Defined.

Lemma scrape_url_again_does_nothing_witness :
  let s' := final (scrape_url (H:=small_lib) (H0:=small_net) shipped 3
                     "http://helium:2368" Ref.initial) in
  "http://helium:2368" ∈ visited_urls s'
  ∧ scrape_url (H:=small_lib) (H0:=small_net) shipped 1 "http://helium:2368" s'
    = Done tt s'.
Proof.
  intros s'.
  assert (scrape_url (H:=small_lib) (H0:=small_net) shipped 3
            "http://helium:2368" Ref.initial = Done tt s') as Hd
    by (vm_compute; reflexivity).
  exact (scrape_url_again_does_nothing (H:=small_lib) (H0:=small_net)
           shipped 3 0 "http://helium:2368" Ref.initial s' Hd).
Defined.

Lemma scrape_site_visits_entry_points_witness :
  let s' := final (scrape_site (H:=small_lib) (H0:=small_net) shipped 3
                     Ref.initial) in
  source_url shipped ∈ visited_urls s'.
Proof.
  intros s'.
  assert (scrape_site (H:=small_lib) (H0:=small_net) shipped 3 Ref.initial
          = Done tt s') as Hd
    by (vm_compute; reflexivity).
  exact (proj1 (scrape_site_visits_entry_points (H:=small_lib) (H0:=small_net)
                  shipped 3 Ref.initial s' Hd)).
Defined.

Section ImageScans.

Context `{PyLib} `{Network}.
Variable self : Generator.

Lemma scrape_image_sizes_unfold (url : string) :
  scrape_image_sizes self url
  = (r <- refetch_soup AtImageSizes url ;;
     match r with
     | None => ret tt
     | Some soup => scan_image_sizes self soup
     end).
Proof. reflexivity. Qed.

Lemma scrape_meta_images_unfold (url : string) :
  scrape_meta_images self url
  = (r <- refetch_soup AtMetaImages url ;;
     match r with
     | None => ret tt
     | Some soup => scan_meta_images self soup
     end).
Proof. reflexivity. Qed.

Lemma refetch_soup_requests (at_ : call_site) (url : string) (s : State) :
  ∃ r s1, refetch_soup at_ url s = Done r s1
          ∧ Request at_ url ∈ trace s1.
Proof.
  unfold refetch_soup, try_request, bind at 1, http_get, bind, get_state, emit,
    modify.
  destruct (requests_get (length (trace s)) url) as [|r]; simpl.
  { eexists _, _. split; [reflexivity |]. simpl. set_solver. }
  unfold raise_for_status. destruct (is_error_status (status_code r)); simpl;
    (eexists _, _; split; [reflexivity |]; simpl; set_solver).
Qed.




Lemma grows_elem (e : event) (s s' : State) :
  grows s s' → e ∈ trace s → e ∈ trace s'.
Proof. intros (_ & _ & _ & Hsuf) Hin. by eapply elem_of_suffix. Qed.

Lemma scrape_image_sizes_requests (url : string) (s : State) :
  Request AtImageSizes url ∈ trace (final (scrape_image_sizes self url s)).
Proof.
  rewrite scrape_image_sizes_unfold. unfold bind.
  destruct (refetch_soup_requests AtImageSizes url s) as (r & s1 & -> & Hin).
  destruct r as [soup|]; [| done].
  pose proof (frame_scan_image_sizes self _ _ _ (grows_frame self) soup s1) as Hg.
  destruct (scan_image_sizes self soup s1); by eapply grows_elem.
Qed.

Lemma scrape_meta_images_requests (url : string) (s : State) :
  Request AtMetaImages url ∈ trace (final (scrape_meta_images self url s)).
Proof.
  rewrite scrape_meta_images_unfold. unfold bind.
  destruct (refetch_soup_requests AtMetaImages url s) as (r & s1 & -> & Hin).
  destruct r as [soup|]; [| done].
  pose proof (frame_scan_meta_images self _ _ _ (grows_frame self) soup s1) as Hg.
  destruct (scan_meta_images self soup s1); by eapply grows_elem.
Qed.

(** X24. A page that is served as HTML is requested again: when
    [process_html] has returned, [scrape_image_sizes] sends a second
    request for the URL of the page, and when that scan returns,
    [scrape_meta_images] sends a third. *)
Theorem html_page_is_requested_again
    (n : nat) (url : string) (r : Response) (s s2 : State) :
  url ∉ visited_urls s →
  requests_get (length (trace s)) url = Responded r →
  is_error_status (status_code r) = false →
  PyStr.contains "text/html" (PyStr.lower (content_type r)) = true →
  process_html self (scrape_url self n) url (text r) (dispatch url s)
  = Done tt s2 →
  let s' := final (scrape_url self (S n) url s) in
  Request AtScrapeUrl url ∈ trace s'
  ∧ Request AtImageSizes url ∈ trace s'
  ∧ ((∃ s3, scrape_image_sizes self url s2 = Done tt s3) →
     Request AtMetaImages url ∈ trace s').
Proof.
  intros Hv Hr He Hh Hp s'.
  assert (∀ e o, e ∈ trace (final (A:=unit) o) →
            e ∈ trace (final (A:=unit)
                    match o with
                    | Done _ s0 => Done tt (slept s0)
                    | Raised RequestException s0 =>
                        Done tt (slept (pushed (Log ERROR "Error fetching" url) s0))
                    | Raised _ s0 =>
                        Done tt (slept (pushed (Log ERROR "Unexpected error scraping"
                                                  url) s0))
                    | OutOfFuel s0 => OutOfFuel s0
                    end)) as Hwrap.
  { intros e [a s0|[] s0|s0] Hin; simpl in *; set_solver. }
  unfold s'. simpl. rewrite scrape_url_body_new, Hr by done.
  split; [| split].
  - apply Hwrap.
    pose proof (frame_on_response self _ _ _ (grows_frame self)
                  (scrape_url self n) url r
                  (λ u _, frame_scrape_url self _ _ _ (grows_frame self) n u I) I
                  (dispatch url s)) as Hg.
    assert (grows (dispatch url s)
              (final (on_response self (scrape_url self n) url r (dispatch url s))))
      as Hg' by (by destruct (on_response _ _ _ _ _)).
    eapply grows_elem; [exact Hg' |]. simpl. set_solver.
  - apply Hwrap. unfold on_response, bind at 1, raise_for_status.
    rewrite He. simpl. rewrite Hh. unfold bind at 1. rewrite Hp.
    unfold bind at 1.
    pose proof (scrape_image_sizes_requests url s2) as Hin.
    destruct (scrape_image_sizes self url s2) as [[] s3|e s3|s3]; try done.
    pose proof (frame_scrape_meta_images self _ _ _ (grows_frame self) url I s3)
      as Hg.
    assert (grows s3 (final (scrape_meta_images self url s3))) as Hg'
      by (by destruct (scrape_meta_images self url s3)).
    eapply grows_elem; [exact Hg' | exact Hin].
  - intros [s3 Hs3]. apply Hwrap. unfold on_response, bind at 1, raise_for_status.
    rewrite He. simpl. rewrite Hh. unfold bind at 1. rewrite Hp.
    unfold bind at 1. rewrite Hs3.
    apply scrape_meta_images_requests.
Qed.

Lemma keeps_visits_pushed (e : event) (s : State) :
  (∀ u, e ≠ Request AtScrapeUrl u) → is_sleep e = false →
  keeps_visits s (pushed e s).
Proof.
  intros He Hs. split; [done |]. split; [by apply dispatched_pushed |].
  by rewrite sleeps_pushed, Hs.
Qed.

Lemma keeps_visits_trans (s1 s2 s3 : State) :
  keeps_visits s1 s2 → keeps_visits s2 s3 → keeps_visits s1 s3.
Proof. intros (? & ? & ?) (? & ? & ?). repeat split; congruence. Qed.

(** X25. [scrape_image_sizes] and [scrape_meta_images] visit nothing and
    never pause: what they fetch is not added to [visited_urls], so a
    later [scrape_url] on the same URL requests it again; and they are
    never cut off, having no nested call of [scrape_url]. *)
Theorem image_scans_neither_visit_nor_pause (url : string) (s : State) :
  keeps_visits s (final (scrape_image_sizes self url s))
  ∧ keeps_visits s (final (scrape_meta_images self url s))
  ∧ (∀ s', scrape_image_sizes self url s ≠ OutOfFuel s')
  ∧ (∀ s', scrape_meta_images self url s ≠ OutOfFuel s').
Proof.
  assert (respects keeps_visits (λ _ _, False) (scrape_image_sizes self url)
          ∧ respects keeps_visits (λ _ _, False) (scrape_meta_images self url))
    as [Hi Hm].
  { split;
      [apply (sound_scrape_image_sizes self (λ _, True))
      |apply (sound_scrape_meta_images self (λ _, True))]; try done.
    all: try (intros; by eapply keeps_visits_trans).
    all: try (intros; by apply keeps_visits_pushed).
    all: intros at_ u s0 Hat _; apply keeps_visits_pushed; [| done];
      intros u' [= -> _]; done. }
  specialize (Hi s). specialize (Hm s).
  destruct (scrape_image_sizes self url s), (scrape_meta_images self url s);
    done.
Qed.

End ImageScans.

Lemma html_page_is_requested_again_witness :
  let url := "http://helium:2368" in
  let s' := final (scrape_url (H:=small_lib) (H0:=small_net) shipped 3 url
                     Ref.initial) in
  Request AtScrapeUrl url ∈ trace s'
  ∧ Request AtImageSizes url ∈ trace s'
  ∧ ((∃ s3, scrape_image_sizes (H:=small_lib) (H0:=small_net) shipped url
              (final (process_html (H:=small_lib) (H0:=small_net) shipped
                        (scrape_url (H:=small_lib) (H0:=small_net) shipped 2)
                        url home_text (dispatch url Ref.initial)))
            = Done tt s3) →
     Request AtMetaImages url ∈ trace s').
Proof.
  intros url s'.
  pose (r := mkResponse 200 "text/html; charset=utf-8" home_text home_text).
  assert (url ∉ visited_urls Ref.initial) as Hv by apply not_elem_of_empty.
  assert (requests_get (Network:=small_net) (length (trace Ref.initial)) url
          = Responded r) as Hr by (vm_compute; reflexivity).
  assert (is_error_status (status_code r) = false) as He by reflexivity.
  assert (PyStr.contains "text/html" (PyStr.lower (content_type r)) = true)
    as Hh by (vm_compute; reflexivity).
  assert (process_html (H:=small_lib) (H0:=small_net) shipped
            (scrape_url (H:=small_lib) (H0:=small_net) shipped 2) url (text r)
            (dispatch url Ref.initial)
          = Done tt (final (process_html (H:=small_lib) (H0:=small_net) shipped
                              (scrape_url (H:=small_lib) (H0:=small_net) shipped 2)
                              url home_text (dispatch url Ref.initial)))) as Hp
    by (vm_compute; reflexivity).
  exact (html_page_is_requested_again (H:=small_lib) (H0:=small_net) shipped 2 url
           r Ref.initial _ Hv Hr He Hh Hp).
Defined.

Lemma requested_app (a b : list event) :
  requested (a ++ b) = requested a ++ requested b.
Proof. apply omap_app. Qed.

Section WrittenReferences.

Context `{PyLib} `{Network}.
Variable self : Generator.

Lemma asks_nothing (s : State) : asks self [] s (Done tt s).
Proof.
  exists []. split; [done |]. split; [| done].
  intros u Hin. by apply elem_of_nil in Hin.
Qed.

Lemma asks_raised (refs : list string) (e : exn) (s : State) :
  asks self refs s (Raised e s).
Proof.
  exists []. split; [done |]. split; [| done].
  intros u Hin. by apply elem_of_nil in Hin.
Qed.

Lemma asks_then (refs1 refs2 : list string) (m1 m2 : M unit) :
  (∀ s, asks self refs1 s (m1 s)) → (∀ s, asks self refs2 s (m2 s)) →
  ∀ s, asks self (refs1 ++ refs2) s ((m1 ;;; m2) s).
Proof.
  intros H1 H2 s. unfold bind.
  destruct (H1 s) as (new1 & Ht1 & Hin1 & Hd1).
  destruct (m1 s) as [[] s1|e s1|s1] eqn:E1; simpl in Ht1.
  - destruct (H2 s1) as (new2 & Ht2 & Hin2 & Hd2).
    exists (new2 ++ new1). split; [| split].
    + rewrite Ht2, Ht1. apply List.app_assoc.
    + intros u. rewrite requested_app, !elem_of_app.
      intros [Hu | Hu]; [apply Hin2 in Hu as [? ?] | apply Hin1 in Hu as [? ?]];
        (split; [by auto | done]).
    + intros s' Hs'. rewrite requested_app, filter_app, rev_app_distr.
      by rewrite (Hd2 s' Hs'), (Hd1 s1 eq_refl).
  - exists new1. split; [done |]. split; [| done].
    intros u Hu. apply Hin1 in Hu as [? ?]. rewrite elem_of_app. by auto.
  - exists new1. split; [done |]. split; [| done].
    intros u Hu. apply Hin1 in Hu as [? ?]. rewrite elem_of_app. by auto.
Qed.

Lemma asks_for_each {A} (xs : list A) (f : A → M unit) (g : A → list string) :
  (∀ x s, asks self (g x) s (f x s)) →
  ∀ s, asks self (concat (map g xs)) s (for_each xs f s).
Proof.
  intros Hf. induction xs as [|x xs IH]; simpl.
  - apply asks_nothing.
  - apply asks_then; [apply Hf | apply IH].
Qed.

Lemma fetch_image_asks (at_ : call_site) (what u : string) (s : State) :
  ∃ new, trace (final (fetch_image self at_ what u s)) = new ++ trace s
         ∧ requested new = [u].
Proof.
  unfold fetch_image, try_request, bind at 1, http_get, bind at 1, get_state.
  unfold bind at 1, emit, modify. simpl.
  destruct (requests_get (length (trace s)) u) as [|r]; simpl.
  { by exists [Log WARNING ("Failed to scrape " +:+ what) u; Request at_ u]. }
  destruct (Nat.eqb (status_code r) 200); simpl.
  - unfold bind at 1, modify. simpl. unfold bind at 1, save_file, bind at 1, lift.
    destruct (save_path self u) as [p|]; simpl.
    2: { by exists [Request at_ u]. }
    unfold bind at 1, get_state. simpl. unfold bind at 1.
    destruct (FS.write _ p (content r)) as [fs'|]; simpl.
    2: { by exists [Request at_ u]. }
    by exists [Log INFO ("Scraped " +:+ what) u; Log INFO "Saved" p; Request at_ u].
  - by exists [Log WARNING ("Failed to scrape " +:+ what) u; Request at_ u].
Qed.

Lemma test_and_fetch_asks (at_ : call_site) (what u : string) (s : State) :
  asks self [u] s
    ((same <- lift ValueError (is_same_domain self u) ;;
      when same (fetch_image self at_ what u)) s).
Proof.
  unfold bind, lift.
  destruct (is_same_domain self u) as [[|]|] eqn:Hd; simpl.
  - destruct (fetch_image_asks at_ what u s) as (new & Ht & Hr).
    exists new. split; [| split].
    + by destruct (fetch_image self at_ what u s).
    + intros u'. rewrite Hr. intros Hu. split; [done |].
      apply list_elem_of_singleton in Hu. by subst u'.
    + intros _ _. rewrite Hr, filter_cons_True, filter_nil by done. done.
  - exists []. split; [done |]. split.
    + intros u' Hin. by apply elem_of_nil in Hin.
    + intros _ _. rewrite filter_cons_False, filter_nil by congruence. done.
  - apply asks_raised.
Qed.

Lemma scan_image_sizes_asks (soup : list node) (s : State) :
  asks self (image_references soup) s (scan_image_sizes self soup s).
Proof.
  unfold scan_image_sizes, image_references.
  apply asks_then; (apply asks_for_each; intros t s0; cbv zeta).
  - set (all_urls := _ ++ srcset_urls _). clearbody all_urls.
    revert s0. induction all_urls as [|u l IH]; intros s0; simpl.
    { apply asks_nothing. }
    destruct u as [|a u].
    + rewrite filter_cons_False by (intros Hn; by apply Hn).
      apply (asks_then [] _ (ret tt)); [apply asks_nothing | apply IH].
    + rewrite filter_cons_True by done.
      apply (asks_then [String a u]); [apply test_and_fetch_asks | apply IH].
  - set (urls := re_css_urls _). clearbody urls.
    revert s0. induction urls as [|u l IH]; intros s0; simpl.
    { apply asks_nothing. }
    apply (asks_then [u]); [apply test_and_fetch_asks | apply IH].
Qed.

Lemma scan_meta_images_asks (soup : list node) (s : State) :
  asks self (meta_references soup) s (scan_meta_images self soup s).
Proof.
  unfold scan_meta_images, meta_references.
  apply asks_for_each. intros meta s0. cbv zeta.
  destruct (Soup.truthy (Soup.get "content" meta.1.2)).
  - apply test_and_fetch_asks.
  - apply asks_nothing.
Qed.

Lemma refetch_soup_Done (at_ : call_site) (url : string) (r : Response)
    (s : State) :
  requests_get (length (trace s)) url = Responded r →
  is_error_status (status_code r) = false →
  refetch_soup at_ url s
  = Done (Some (parse_html (text r))) (pushed (Request at_ url) s).
Proof.
  intros Hr He.
  unfold refetch_soup, try_request, bind at 1, http_get, bind at 1, get_state.
  unfold bind at 1, emit, modify. simpl. rewrite Hr. simpl.
  unfold bind, raise_for_status. by rewrite He.
Qed.

(** X27. [scrape_image_sizes] and [scrape_meta_images] take the references
    as they are written in the page: after the request for the page, an
    image is requested only under a reference of the page, with the very
    text of that reference, and only when [is_same_domain] accepts that
    text; when the scan returns, the references it accepts have been
    requested one by one, in the order of the page.  The reference is
    not joined to the URL of the page: the image behind a relative
    reference is not requested for that reference. *)
Theorem image_scans_request_the_references_as_written
    (url : string) (r : Response) (s : State) :
  requests_get (length (trace s)) url = Responded r →
  is_error_status (status_code r) = false →
  let soup := parse_html (text r) in
  asks self (image_references soup) (pushed (Request AtImageSizes url) s)
       (scrape_image_sizes self url s)
  ∧ asks self (meta_references soup) (pushed (Request AtMetaImages url) s)
         (scrape_meta_images self url s).
Proof.
  intros Hr He soup. split.
  - rewrite scrape_image_sizes_unfold. unfold bind.
    rewrite (refetch_soup_Done _ _ _ _ Hr He). apply scan_image_sizes_asks.
  - rewrite scrape_meta_images_unfold. unfold bind.
    rewrite (refetch_soup_Done _ _ _ _ Hr He). apply scan_meta_images_asks.
Qed.

End WrittenReferences.

Lemma image_scans_request_the_references_as_written_witness :
  let url := "http://helium:2368/gallery/" in
  let soup := gallery_tree in
  asks (H:=gallery_lib) shipped (image_references (H:=gallery_lib) soup)
       (pushed (Request AtImageSizes url) Ref.initial)
       (scrape_image_sizes (H:=gallery_lib) (H0:=gallery_net) shipped url
          Ref.initial)
  ∧ asks (H:=gallery_lib) shipped (meta_references soup)
         (pushed (Request AtMetaImages url) Ref.initial)
         (scrape_meta_images (H:=gallery_lib) (H0:=gallery_net) shipped url
            Ref.initial).
Proof.
  intros url soup.
  pose (r := mkResponse 200 "text/html" gallery_text gallery_text).
  assert (requests_get (Network:=gallery_net) (length (trace Ref.initial)) url
          = Responded r) as Hr by (vm_compute; reflexivity).
  assert (is_error_status (status_code r) = false) as He by reflexivity.
  exact (image_scans_request_the_references_as_written (H:=gallery_lib)
           (H0:=gallery_net) shipped url r Ref.initial Hr He).
Defined.

(** The page shows one image under two references: the scan requests it
    for the absolute one, and passes over the relative one. *)
Example image_scan_of_the_gallery :
  let url := "http://helium:2368/gallery/" in
  image_references (H:=gallery_lib) gallery_tree
  = ["/logo.png"; "http://helium:2368/logo.png"]
  ∧ requested (trace (final (scrape_image_sizes (H:=gallery_lib)
                               (H0:=gallery_net) shipped url Ref.initial)))
    = ["http://helium:2368/logo.png"; url].
Proof. intros url. split; vm_compute; reflexivity. Qed.

(* ===================================================================== *)
(** ** Local paths *)
(* ===================================================================== *)

Section LocalPaths.

Context `{PyLib}.
Variable self : Generator.

(** X16. The path [save_file] opens is the output directory, a separator
    and a relative part that is not empty, and it does not end in a
    separator.  When it is in normal form, so that no [..] leads out
    again, it names a file below the output directory. *)
Theorem save_path_stays_below_public_dir (url p : string) :
  save_path self url = Some p →
  plain_path p = true →
  FS.below (public_dir self) p = true
  ∧ PyStr.endswith "/" p = false
  ∧ ∃ rel, rel ≠ "" ∧ p = public_dir self +:+ "/" +:+ rel.
Proof.
  intros Hp _. destruct (save_path_below self url p Hp) as (Hb & He & _).
  destruct (save_path_shape self url p Hp) as (rel & -> & Hne & _). eauto.
Qed.

(** X17. What [save_file] has written is found by [update_urls_in_all_files]
    when the tree it leaves is in normal form and its handled files are
    plain texts: after the pass the file holds the updated form of the
    saved content when its extension is one of the five handled, and the
    saved content otherwise. *)
Theorem saved_file_is_seen_by_the_rewrite_pass
    (url content extension : string) (is_binary : bool) (s s' : State) :
  save_file self url content extension is_binary s = Done tt s' →
  readable_tree self (fs s') = true →
  ∃ p, save_path self url = Some p
       ∧ fs s' !! p = Some content
       ∧ (update_urls_in_all_files self (fs s')).1 !! p
         = Some (if handled p then updated_content self p content else content).
Proof.
  intros (p & Hp & _ & ->)%save_file_Done _. exists p. simpl.
  destruct (save_path_below self url p Hp) as (Hb & _).
  assert (<[p := content]> (fs s) !! p = Some content) as Hl
    by apply lookup_insert_eq.
  split; [done |]. split; [done |].
  unfold update_urls_in_all_files.
  rewrite (foldl_update_at _ _ _ p content)
    by (apply walk_NoDup || by apply walk_elem).
  destruct (handled p); simpl; [| done].
  case_bool_decide as Hne; [done |]. simpl. rewrite Hl. f_equal.
  by destruct (decide (updated_content self p content = content)).
Qed.

(** X18. [url_to_local_path] and [save_file] agree on the file of a URL that
    does not start with a separator, whose network location is empty or
    that of the source or target URL, and whose path names a file (it is
    not empty and does not end in a separator). *)
Theorem url_to_local_path_agrees_with_save_path
    (url : string) (parsed src tgt : ParseResult) :
  PyStr.startswith "/" url = false →
  urlparse url = Some parsed →
  urlparse (source_url self) = Some src →
  urlparse (target_url self) = Some tgt →
  (netloc parsed = "" ∨ netloc parsed = netloc src ∨ netloc parsed = netloc tgt) →
  PyStr.lstrip "/" (path parsed) ≠ "" →
  PyStr.endswith "/" (path parsed) = false →
  url_to_local_path self url = Some (save_path self url).
Proof.
  intros Hs Hp Hsrc Htgt Hn Hne He.
  unfold url_to_local_path, save_path. rewrite Hs, Hp, Hsrc, Htgt.
  cbn -[String.eqb existsb PosixPath.join PyStr.lstrip PyStr.endswith].
  assert (PyStr.endswith "/" (PyStr.lstrip "/" (path parsed)) = false) as He'.
  { clear -He. induction (path parsed) as [|a r IH]; [done |]. simpl.
    destruct (Ascii.eqb a "/"); [| done]. apply IH.
    rewrite endswith_cons in He. by apply orb_false_iff in He as [_ ?]. }
  apply String.eqb_neq in Hne. rewrite Hne, He'.
  destruct (netloc parsed) as [|a nl] eqn:En; [done |].
  assert (existsb (String.eqb (String a nl)) [netloc src; netloc tgt] = true)
    as ->; [| done].
  apply existsb_exists.
  destruct Hn as [Hn | [Hn | Hn]]; [done | exists (netloc src) | exists (netloc tgt)];
    (split; [simpl; auto | rewrite <- Hn; apply String.eqb_refl]).
Qed.

(** X19. [url_to_local_path] gives no path ([None]) for a URL with a network
    location that is neither that of the source URL nor that of the
    target URL. *)
Theorem url_to_local_path_of_foreign_url
    (url : string) (parsed src tgt : ParseResult) :
  PyStr.startswith "/" url = false →
  urlparse url = Some parsed →
  urlparse (source_url self) = Some src →
  urlparse (target_url self) = Some tgt →
  netloc parsed ≠ "" →
  netloc parsed ≠ netloc src →
  netloc parsed ≠ netloc tgt →
  url_to_local_path self url = Some None.
Proof.
  intros Hs Hp Hsrc Htgt Hne H1 H2.
  unfold url_to_local_path. rewrite Hs, Hp, Hsrc, Htgt.
  cbn -[String.eqb existsb PosixPath.join PyStr.lstrip].
  destruct (netloc parsed) as [|a nl] eqn:En; [done |].
  assert (existsb (String.eqb (String a nl)) [netloc src; netloc tgt] = false)
    as ->; [| done].
  apply String.eqb_neq in H1, H2. cbn [existsb]. by rewrite H1, H2.
Qed.

End LocalPaths.

Lemma save_path_stays_below_public_dir_witness :
  let lib := Ref.lib [] [] in
  let p := "/home/ghost-static-site-gen/public/blog/index.html" in
  FS.below (public_dir shipped) p = true
  ∧ PyStr.endswith "/" p = false
  ∧ ∃ rel, rel ≠ "" ∧ p = public_dir shipped +:+ "/" +:+ rel.
Proof.
  intros lib p.
  assert (save_path shipped "http://helium:2368/blog/?page=2" = Some p) as Hp
    by (vm_compute; reflexivity).
  assert (plain_path p = true) as Hn by (vm_compute; reflexivity).
  exact (save_path_stays_below_public_dir shipped _ p Hp Hn).
Defined.

(** A URL path with a [..] segment is taken as it is: the file is opened
    through the output directory and lands beside it. *)
Example save_path_of_a_dot_segment :
  let lib := Ref.lib [] [] in
  let p := "/home/ghost-static-site-gen/public/../x.css" in
  save_path shipped "http://helium:2368/../x.css" = Some p
  ∧ plain_path p = false.
Proof. intros lib p. split; vm_compute; reflexivity. Qed.

Lemma saved_file_is_seen_by_the_rewrite_pass_witness :
  let lib := Ref.lib [] [] in
  let url := "http://helium:2368/assets/site.css" in
  let content := "body{background:url(http://helium:2368/bg.png)}" in
  let s' := final (save_file shipped url content ".css" false Ref.initial) in
  ∃ p, save_path shipped url = Some p
       ∧ fs s' !! p = Some content
       ∧ (update_urls_in_all_files shipped (fs s')).1 !! p
         = Some (if handled p then updated_content shipped p content else content).
Proof.
  intros lib url content s'.
  assert (save_file shipped url content ".css" false Ref.initial = Done tt s')
    as Hd by (vm_compute; reflexivity).
  assert (readable_tree shipped (fs s') = true) as Hr
    by (vm_compute; reflexivity).
  exact (saved_file_is_seen_by_the_rewrite_pass shipped url content ".css" false
           Ref.initial s' Hd Hr).
Defined.

Lemma url_to_local_path_agrees_with_save_path_witness :
  let lib := Ref.lib [] [] in
  let url := "https://cadenkraft.com/content/images/a.webp" in
  url_to_local_path shipped url = Some (save_path shipped url).
Proof.
  intros lib url.
  pose (parsed := mkParse "https" "cadenkraft.com" "/content/images/a.webp" "" "" "").
  pose (src := mkParse "http" "helium:2368" "" "" "" "").
  pose (tgt := mkParse "https" "cadenkraft.com" "" "" "" "").
  assert (PyStr.startswith "/" url = false) as Hs by reflexivity.
  assert (urlparse url = Some parsed) as Hp by (vm_compute; reflexivity).
  assert (urlparse (source_url shipped) = Some src) as Hsrc
    by (vm_compute; reflexivity).
  assert (urlparse (target_url shipped) = Some tgt) as Htgt
    by (vm_compute; reflexivity).
  assert (PyStr.lstrip "/" (path parsed) ≠ "") as Hne by (vm_compute; discriminate).
  assert (PyStr.endswith "/" (path parsed) = false) as He
    by (vm_compute; reflexivity).
  exact (url_to_local_path_agrees_with_save_path shipped url parsed src tgt
           Hs Hp Hsrc Htgt (or_intror (or_intror eq_refl)) Hne He).
Defined.

Lemma url_to_local_path_of_foreign_url_witness :
  let lib := Ref.lib [] [] in
  url_to_local_path shipped "https://cdn.example/x.webp" = Some None.
Proof.
  intros lib.
  pose (parsed := mkParse "https" "cdn.example" "/x.webp" "" "" "").
  pose (src := mkParse "http" "helium:2368" "" "" "" "").
  pose (tgt := mkParse "https" "cadenkraft.com" "" "" "" "").
  assert (PyStr.startswith "/" "https://cdn.example/x.webp" = false) as Hs
    by reflexivity.
  assert (urlparse "https://cdn.example/x.webp" = Some parsed) as Hp
    by (vm_compute; reflexivity).
  assert (urlparse (source_url shipped) = Some src) as Hsrc
    by (vm_compute; reflexivity).
  assert (urlparse (target_url shipped) = Some tgt) as Htgt
    by (vm_compute; reflexivity).
  assert (netloc parsed ≠ "") as H0 by (vm_compute; discriminate).
  assert (netloc parsed ≠ netloc src) as H1 by (vm_compute; discriminate).
  assert (netloc parsed ≠ netloc tgt) as H2 by (vm_compute; discriminate).
  exact (url_to_local_path_of_foreign_url shipped _ parsed src tgt
           Hs Hp Hsrc Htgt H0 H1 H2).
Defined.

(* ===================================================================== *)
(** ** The picture pass *)
(* ===================================================================== *)

Lemma get_set_same (k v : string) (attrs : list (string * string)) :
  Soup.get k (Soup.set k v attrs) = Some v.
Proof.
  induction attrs as [|[k' v'] attrs IH]; simpl.
  - by rewrite String.eqb_refl.
  - destruct (String.eqb k' k) eqn:E; simpl; rewrite E; [done | apply IH].
Qed.

Lemma get_set_other (k k' v : string) (attrs : list (string * string)) :
  k ≠ k' → Soup.get k (Soup.set k' v attrs) = Soup.get k attrs.
Proof.
  intros Hne. induction attrs as [|[k0 v0] attrs IH]; simpl.
  - apply not_eq_sym, String.eqb_neq in Hne. by rewrite Hne.
  - destruct (String.eqb k0 k') eqn:E; simpl.
    + apply String.eqb_eq in E. subst k0.
      apply not_eq_sym, String.eqb_neq in Hne. by rewrite Hne.
    + by rewrite IH.
Qed.

Section PictureProperties.

Context `{PyLib}.
Variable self : Generator.

Lemma add_candidate_spec (fs : gmap string string) (format_ext entry : string)
    (srcset srcset' : list string) :
  add_candidate self fs format_ext srcset entry = Some srcset' →
  ∀ x, x ∈ srcset' ↔ x ∈ srcset ∨ srcset_candidate self fs format_ext entry x.
Proof.
  unfold add_candidate, srcset_candidate. intros Ha x.
  destruct (PyStr.strip entry) as [|a e] eqn:Es.
  { injection Ha as <-. split; [by left |].
    intros [? | (o' & w' & p' & Hs & _)]; [done |]. by vm_compute in Hs. }
  destruct (PyStr.split_ws (String a e)) as [|o [|w [|? ?]]] eqn:Ew;
    try (injection Ha as <-; split; [by left |];
         intros [? | (o' & w' & p' & Hs & _)]; [done | discriminate]).
  destruct (url_to_local_path self (replace_ext format_ext o)) as [lp|] eqn:El;
    [| done]. simpl in Ha.
  destruct lp as [[|b p]|];
    try (injection Ha as <-; split; [by left |];
         intros [? | (o' & w' & p' & [= <- <-] & Hu & Hn & _)]; [done |];
         rewrite El in Hu; by simplify_eq).
  destruct (FS.exists_ fs (String b p)) eqn:Ex; injection Ha as <-.
  - rewrite elem_of_app, list_elem_of_singleton. split.
    + intros [? | ->]; [by left |]. right. by exists o, w, (String b p).
    + intros [? | (o' & w' & p' & [= <- <-] & _ & _ & _ & ->)];
        [by left | by right].
  - split; [by left |].
    intros [? | (o' & w' & p' & [= <- <-] & Hu & _ & Hx & _)]; [done |].
    rewrite El in Hu. injection Hu as <-. congruence.
Qed.

Lemma format_srcset_from_spec (fs : gmap string string) (format_ext : string)
    (entries : list string) (srcset l : list string) :
  format_srcset_from self fs format_ext srcset entries = Some l →
  ∀ x, x ∈ l ↔ x ∈ srcset ∨ ∃ entry, entry ∈ entries ∧ srcset_candidate self fs format_ext entry x.
Proof.
  revert srcset. induction entries as [|e entries IH]; intros srcset; simpl.
  - intros [= <-] x. split; [by left |].
    intros [? | (e & Hin & _)]; [done | by apply elem_of_nil in Hin].
  - destruct (add_candidate self fs format_ext srcset e) as [srcset'|] eqn:Ea;
      [| done]. simpl.
    intros Hl x. rewrite (IH _ Hl x), (add_candidate_spec _ _ _ _ _ Ea x).
    split.
    + intros [[? | Hv] | (e' & Hin & Hv)]; [by left | |].
      * right. exists e. split; [left | done].
      * right. exists e'. split; [by right | done].
    + intros [? | (e' & [-> | Hin]%elem_of_cons & Hv)]; [by left; left | |].
      * left. by right.
      * right. eauto.
Qed.

Lemma format_srcset_spec (fs : gmap string string)
    (format_ext original_srcset : string) (l : list string) :
  format_srcset self fs format_ext original_srcset = Some l →
  ∀ x, x ∈ l ↔ ∃ entry, entry ∈ PyStr.split "," original_srcset
                        ∧ srcset_candidate self fs format_ext entry x.
Proof.
  intros Hl x. rewrite (format_srcset_from_spec _ _ _ _ _ Hl x). split.
  - intros [Hin | ?]; [by apply elem_of_nil in Hin | done].
  - by right.
Qed.

(** X20. The candidates [update_html_for_image_formats] lists for a format
    come from the entries of the original [srcset] that consist of a URL
    and a descriptor and for which the tested path exists, that is the
    path [url_to_local_path] gives for the URL after the substitution of
    the regular expression: such an entry gives its candidate, an entry
    whose tested path does not exist gives none.  The tree and the
    tested paths are in normal form. *)
Theorem format_srcset_lists_the_entries_whose_tested_path_exists
    (fs : gmap string string) (format_ext original_srcset : string)
    (l : list string) :
  normal_tree self fs = true →
  forallb plain_path (tested_paths self format_ext original_srcset) = true →
  format_srcset self fs format_ext original_srcset = Some l →
  ∀ x, x ∈ l ↔ ∃ entry, entry ∈ PyStr.split "," original_srcset
                        ∧ srcset_candidate self fs format_ext entry x.
Proof. intros _ _. apply format_srcset_spec. Qed.

(** X21. A [source] tag is made for a format as soon as one entry of the
    original [srcset] gives a candidate for that format, and only then;
    it carries the type of the format.  The tree and the tested paths
    are in normal form. *)
Theorem format_source_is_made_iff_an_entry_gives_a_candidate
    (fs : gmap string string) (format : string * string)
    (original_srcset sizes : string) (r : option node) :
  normal_tree self fs = true →
  forallb plain_path (tested_paths self format.1 original_srcset) = true →
  format_source self fs format original_srcset sizes = Some r →
  (is_Some r ↔ ∃ entry x, entry ∈ PyStr.split "," original_srcset
                          ∧ srcset_candidate self fs format.1 entry x)
  ∧ ∀ t, r = Some t →
      ∃ attrs, t = Tag "source" attrs [] ∧ Soup.get "type" attrs = Some format.2.
Proof.
  intros _ _. unfold format_source.
  destruct (format_srcset self fs format.1 original_srcset) as [l|] eqn:El;
    [| done]. simpl.
  pose proof (format_srcset_spec _ _ _ _ El) as Hl.
  destruct l as [|x l].
  - intros [= <-]. split; [| done]. split; [by intros [? ?] |].
    intros (e & x & Hin & Hv).
    assert (x ∈ @nil string) as Hx by (apply Hl; eauto).
    by apply elem_of_nil in Hx.
  - intros [= <-]. split.
    + split; [| by eauto]. intros _.
      destruct (proj1 (Hl x)) as (e & Hin & Hv); [by left |]. eauto.
    + intros t [= <-]. destruct sizes; eexists; (split; [reflexivity | done]).
Qed.

(** X22. The attributes of an [img] in the parsed page when the body of
    the loop over the images has run: [loading] is [lazy], [src] is the
    updated source, and every attribute other than [src], [srcset] and
    [loading] is as it was.  This is the tree before it is serialised:
    the text that is written is [update_all_urls] of the serialised
    tree, where the source URL is replaced in every attribute. *)
Theorem img_attrs_keeps_the_other_attributes
    (src : string) (attrs : list (string * string)) :
  Soup.get "loading" (img_attrs self src attrs) = Some "lazy"
  ∧ Soup.get "src" (img_attrs self src attrs) = Some (update_url self src)
  ∧ ∀ k, k ≠ "src" → k ≠ "srcset" → k ≠ "loading" →
         Soup.get k (img_attrs self src attrs) = Soup.get k attrs.
Proof.
  unfold img_attrs. split; [apply get_set_same | split].
  - rewrite get_set_other by done.
    destruct (Soup.or_default _ _).
    + apply get_set_same.
    + rewrite get_set_other by done. apply get_set_same.
  - intros k H1 H2 H3. rewrite get_set_other by done.
    destruct (Soup.or_default _ _); rewrite ?(get_set_other k "srcset") by done;
      by rewrite get_set_other.
Qed.

End PictureProperties.

Lemma format_srcset_lists_the_entries_whose_tested_path_exists_witness :
  let lib := Ref.lib [] [] in
  let x := "/content/images/size/w600/a.webp 600w" in
  x ∈ [x] ↔ ∃ entry, entry ∈ PyStr.split "," pictures_srcset
                     ∧ srcset_candidate shipped pictures_tree "webp" entry x.
Proof.
  intros lib x.
  assert (normal_tree shipped pictures_tree = true) as Hn
    by (vm_compute; reflexivity).
  assert (forallb plain_path (tested_paths shipped "webp" pictures_srcset) = true)
    as Ht by (vm_compute; reflexivity).
  assert (format_srcset shipped pictures_tree "webp" pictures_srcset
          = Some [x]) as Hl
    by (vm_compute; reflexivity).
  exact (format_srcset_lists_the_entries_whose_tested_path_exists shipped
           pictures_tree "webp" pictures_srcset _ Hn Ht Hl x).
Defined.

Lemma format_source_is_made_iff_an_entry_gives_a_candidate_witness :
  let lib := Ref.lib [] [] in
  ∃ entry x, entry ∈ PyStr.split "," pictures_srcset
             ∧ srcset_candidate shipped pictures_tree "webp" entry x.
Proof.
  intros lib.
  pose (t := Tag "source"
               [("type", "image/webp");
                ("srcset", "/content/images/size/w600/a.webp 600w")] []).
  assert (normal_tree shipped pictures_tree = true) as Hn
    by (vm_compute; reflexivity).
  assert (forallb plain_path (tested_paths shipped "webp" pictures_srcset) = true)
    as Ht by (vm_compute; reflexivity).
  assert (format_source shipped pictures_tree ("webp", "image/webp")
            pictures_srcset "" = Some (Some t)) as Hs
    by (vm_compute; reflexivity).
  apply (proj1 (format_source_is_made_iff_an_entry_gives_a_candidate shipped
                  pictures_tree ("webp", "image/webp") pictures_srcset ""
                  (Some t) Hn Ht Hs)).
  by exists t.
Defined.

(** The tested path is not always that of a variant: a URL without a dot
    is tested as it is, and with a query the substitution falls on the
    query, so the original file makes the candidate. *)
Example candidate_of_an_entry_without_variant :
  let lib := Ref.lib [] [] in
  format_srcset shipped {[ "/home/ghost-static-site-gen/public/i/noext" := "JFIF" ]}
    "webp" "/i/noext 3x"
  = Some ["/i/noext 3x"]
  ∧ format_srcset shipped {[ "/home/ghost-static-site-gen/public/a.jpg" := "JFIF" ]}
      "webp" "a.jpg?v=1.2 1x"
    = Some ["a.jpg?v=1.webp 1x"].
Proof. intros lib. split; vm_compute; reflexivity. Qed.

Section PictureOrder.

Context `{PyLib}.
Variable self : Generator.

(** X28. Every new [source] is inserted before the children the [picture]
    already has, so the sources stand in the reverse of the order of the
    formats: JPEG XL first, then AVIF, then WebP, each one present when
    [format_source] made it. *)
Theorem picture_sources_are_in_reverse_order
    (fs : gmap string string) (original_srcset sizes : string) (l : list node) :
  picture_sources self fs formats original_srcset sizes [] = Some l →
  ∃ webp avif jxl,
    format_source self fs ("webp", "image/webp") original_srcset sizes = Some webp
    ∧ format_source self fs ("avif", "image/avif") original_srcset sizes = Some avif
    ∧ format_source self fs ("jxl", "image/jxl") original_srcset sizes = Some jxl
    ∧ l = option_list jxl ++ option_list avif ++ option_list webp.
Proof.
  unfold formats. cbn [picture_sources].
  destruct (format_source self fs ("webp", "image/webp") original_srcset sizes)
    as [webp|]; [| done]. cbn [mbind option_bind].
  destruct (format_source self fs ("avif", "image/avif") original_srcset sizes)
    as [avif|]; [| done]. cbn [mbind option_bind].
  destruct (format_source self fs ("jxl", "image/jxl") original_srcset sizes)
    as [jxl|]; [| done]. cbn [mbind option_bind].
  intros [= <-]. exists webp, avif, jxl. repeat split; try done.
  by destruct webp, avif, jxl.
Qed.

End PictureOrder.

Lemma picture_sources_are_in_reverse_order_witness :
  let lib := Ref.lib [] [] in
  ∃ webp avif jxl,
    format_source shipped pictures_tree ("webp", "image/webp") pictures_srcset ""
    = Some webp
    ∧ format_source shipped pictures_tree ("avif", "image/avif") pictures_srcset ""
      = Some avif
    ∧ format_source shipped pictures_tree ("jxl", "image/jxl") pictures_srcset ""
      = Some jxl
    ∧ default [] (picture_sources shipped pictures_tree formats pictures_srcset "" [])
      = option_list jxl ++ option_list avif ++ option_list webp.
Proof.
  intros lib.
  assert (picture_sources shipped pictures_tree formats pictures_srcset "" []
          = Some (default [] (picture_sources shipped pictures_tree formats
                                pictures_srcset "" []))) as Hl
    by (vm_compute; reflexivity).
  exact (picture_sources_are_in_reverse_order shipped pictures_tree
           pictures_srcset "" _ Hl).
Defined.

(** In [pictures_tree] the AVIF source comes before the WebP source. *)
Example picture_sources_of_the_example :
  let lib := Ref.lib [] [] in
  picture_sources shipped pictures_tree formats pictures_srcset "" []
  = Some [Tag "source" [("type", "image/avif");
                        ("srcset", "/content/images/size/w600/a.avif 600w")] [];
          Tag "source" [("type", "image/webp");
                        ("srcset", "/content/images/size/w600/a.webp 600w")] []].
Proof. intros lib. vm_compute. reflexivity. Qed.

Section PicturePass.

Context `{PyLib}.
Variable self : Generator.

Lemma html_step_other (fs : gmap string string) (l : list (string * string))
    (fs' : gmap string string) (p : string) :
  foldr (λ kc acc,
           fs' ← acc;
           if PyStr.endswith ".html" (PosixPath.basename kc.1) then
             c ← augment_html self fs kc.2;
             Some (<[kc.1 := c]> fs')
           else Some fs')
        (Some fs) l = Some fs' →
  p ∉ l.*1 → fs' !! p = fs !! p.
Proof.
  revert fs'. induction l as [|[k c] l IH]; intros fs'; simpl.
  { by intros [= <-]. }
  destruct (foldr _ _ l) as [acc|] eqn:E; [| done]. simpl.
  intros Hs [Hne Hnin]%not_elem_of_cons.
  destruct (PyStr.endswith ".html" (PosixPath.basename k)).
  - destruct (augment_html self fs c) as [c'|]; [| done]. simpl in Hs.
    injection Hs as <-. rewrite lookup_insert_ne by done. by apply IH.
  - injection Hs as <-. by apply IH.
Qed.

Lemma html_step_at (fs : gmap string string) (l : list (string * string))
    (fs' : gmap string string) (p c : string) :
  foldr (λ kc acc,
           fs' ← acc;
           if PyStr.endswith ".html" (PosixPath.basename kc.1) then
             c ← augment_html self fs kc.2;
             Some (<[kc.1 := c]> fs')
           else Some fs')
        (Some fs) l = Some fs' →
  NoDup l.*1 → (p, c) ∈ l →
  fs' !! p = if PyStr.endswith ".html" (PosixPath.basename p)
             then augment_html self fs c else fs !! p.
Proof.
  revert fs'. induction l as [|[k c0] l IH]; intros fs'; simpl.
  { intros _ _ Hin. by apply elem_of_nil in Hin. }
  destruct (foldr _ _ l) as [acc|] eqn:E; [| done]. simpl.
  intros Hs [Hnin Hnd]%NoDup_cons [[= <- <-] | Hin]%elem_of_cons.
  - destruct (PyStr.endswith ".html" (PosixPath.basename p)).
    + destruct (augment_html self fs c) as [c'|]; [| done]. simpl in Hs.
      injection Hs as <-. apply lookup_insert_eq.
    + injection Hs as <-. by eapply html_step_other.
  - assert (k ≠ p) as Hne.
    { intros ->. apply Hnin. apply list_elem_of_fmap. by exists (p, c). }
    destruct (PyStr.endswith ".html" (PosixPath.basename k)).
    + destruct (augment_html self fs c0) as [c'|]; [| done]. simpl in Hs.
      injection Hs as <-. rewrite lookup_insert_ne by done. by apply IH.
    + injection Hs as <-. by apply IH.
Qed.

Lemma html_step_dom (fs : gmap string string) (l : list (string * string))
    (fs' : gmap string string) :
  foldr (λ kc acc,
           fs' ← acc;
           if PyStr.endswith ".html" (PosixPath.basename kc.1) then
             c ← augment_html self fs kc.2;
             Some (<[kc.1 := c]> fs')
           else Some fs')
        (Some fs) l = Some fs' →
  (∀ kc, kc ∈ l → fs !! kc.1 = Some kc.2) →
  dom fs' = dom fs.
Proof.
  revert fs'. induction l as [|[k c] l IH]; intros fs'; simpl.
  { by intros [= <-]. }
  destruct (foldr _ _ l) as [acc|] eqn:E; [| done]. simpl.
  intros Hs Hl.
  assert (dom acc = dom fs) as Hacc.
  { apply IH; [done |]. intros kc Hin. apply Hl. by right. }
  destruct (PyStr.endswith ".html" (PosixPath.basename k)).
  - destruct (augment_html self fs c) as [c'|]; [| done]. simpl in Hs.
    injection Hs as <-. rewrite dom_insert_L, Hacc.
    assert (k ∈ dom fs) as Hk.
    { apply elem_of_dom. exists c. apply (Hl (k, c)). by left. }
    apply subseteq_union_1_L. by apply singleton_subseteq_l.
  - by injection Hs as <-.
Qed.

(** X23. [update_html_for_image_formats] touches nothing but the pages: on
    a tree in normal form whose pages are plain texts, when it returns,
    the tree has the files it had, and every path that is not below the
    output directory or whose name does not end in [.html] holds what it
    held.  The test is on the name as written: [.HTML] is not handled
    here, while [update_urls_in_all_files] lowers the extension first. *)
Theorem update_html_for_image_formats_keeps_the_other_files
    (fs fs' : gmap string string) :
  readable_tree self fs = true →
  update_html_for_image_formats self fs = Some fs' →
  dom fs' = dom fs
  ∧ ∀ p, FS.below (public_dir self) p
         && PyStr.endswith ".html" (PosixPath.basename p) = false →
         fs' !! p = fs !! p.
Proof.
  unfold update_html_for_image_formats. intros _ Hs. split.
  - apply (html_step_dom _ _ _ Hs). by intros [k c] [Hk _]%walk_elem.
  - intros p Hp.
    destruct (decide ((p, default "" (fs !! p)) ∈ FS.walk fs (public_dir self)))
      as [Hin | Hnin].
    + rewrite (html_step_at _ _ _ p _ Hs) by (apply walk_NoDup || done).
      apply walk_elem in Hin as [_ Hb]. simpl in Hb. rewrite Hb in Hp.
      simpl in Hp. by rewrite Hp.
    + rewrite (html_step_other _ _ _ p Hs); [done |].
      intros [[p' c'] [-> Hin]]%list_elem_of_fmap. apply Hnin. simpl.
      pose proof Hin as [Hl _]%walk_elem. simpl in Hl. by rewrite Hl.
Qed.

End PicturePass.

Lemma update_html_for_image_formats_keeps_the_other_files_witness :
  let lib := small_lib in
  let fs' := default ∅ (update_html_for_image_formats shipped home_saved) in
  let p := "/home/ghost-static-site-gen/public/logo.png" in
  dom fs' = dom home_saved ∧ fs' !! p = home_saved !! p.
Proof.
  intros lib fs' p.
  assert (readable_tree shipped home_saved = true) as Hr
    by (vm_compute; reflexivity).
  assert (update_html_for_image_formats shipped home_saved = Some fs') as Hs
    by (vm_compute; reflexivity).
  assert (FS.below (public_dir shipped) p
          && PyStr.endswith ".html" (PosixPath.basename p) = false) as Hp
    by (vm_compute; reflexivity).
  destruct (update_html_for_image_formats_keeps_the_other_files shipped
              home_saved fs' Hr Hs) as [Hd Hk].
  split; [exact Hd | exact (Hk p Hp)].
Defined.

(** The page of [small_site] after the picture pass. *)
Example picture_pass_on_the_home_page :
  let lib := small_lib in
  (fs' ← update_html_for_image_formats shipped home_saved;
   fs' !! "/home/ghost-static-site-gen/public/index.html")
  = Some "<html><picture><img src='/logo.png' loading='lazy'/></picture></html>".
Proof. intros lib. vm_compute. reflexivity. Qed.

(* ===================================================================== *)
(** ** The names of the image variants *)
(* ===================================================================== *)

Lemma head_basename (p : string) :
  PosixPath.head p +:+ PosixPath.basename p = p.
Proof.
  induction p as [|a p IH]; [done |]. simpl.
  destruct (PyStr.has_char PosixPath.sep p).
  - by rewrite app_cons, IH.
  - destruct (Ascii.eqb a PosixPath.sep) eqn:E; [| done].
    apply Ascii.eqb_eq in E. by subst a.
Qed.

Lemma splitext_name_spec (seen s r e : string) :
  PosixPath.splitext_name seen s = (r, e) →
  s = r +:+ e
  ∧ (e = "" ∨ ∃ rest, e = String "." rest ∧ PyStr.has_char "." rest = false).
Proof.
  revert seen r e. induction s as [|a s IH]; intros seen r e; simpl.
  { intros [= <- <-]. by split; [| left]. }
  destruct (Ascii.eqb a "." && negb (PyStr.has_char "." s)) eqn:E.
  - apply andb_true_iff in E as [->%Ascii.eqb_eq Hd%negb_true_iff].
    destruct (PosixPath.all_dots seen); intros [= <- <-].
    + split; [by rewrite app_nil_r | by left].
    + split; [done |]. right. by exists s.
  - destruct (PosixPath.splitext_name (String a seen) s) as [r' e'] eqn:Er.
    intros [= <- <-]. destruct (IH _ _ _ Er) as [-> He]. by rewrite app_cons.
Qed.

Lemma has_char_app (c : ascii) (x y : string) :
  PyStr.has_char c (x +:+ String c y) = true.
Proof.
  induction x as [|a x IH]; sapp; simpl.
  - by rewrite Ascii.eqb_refl.
  - rewrite IH. apply orb_true_r.
Qed.

Lemma replace_ext_last_dot (ext pre rest : string) :
  rest ≠ "" → PyStr.has_char "." rest = false →
  replace_ext ext (pre +:+ String "." rest) = pre +:+ "." +:+ ext.
Proof.
  intros Hne Hd. induction pre as [|a pre IH]; sapp.
  - simpl. rewrite Hd. apply String.eqb_neq in Hne. by rewrite Hne.
  - simpl. rewrite has_char_app, IH. by rewrite andb_false_r.
Qed.

(** With an extension of at least one character after its dot, the name
    [os.path.splitext] gives the variant is the name the regular
    expression gives. *)
Lemma variant_path_replace_ext (img_path ext : string) :
  1 < String.length (PosixPath.splitext img_path).2 →
  variant_path img_path ext = replace_ext ext img_path
  ∧ ∃ stem rest,
      img_path = stem +:+ String "." rest
      ∧ rest ≠ "" ∧ PyStr.has_char "." rest = false
      ∧ PyStr.endswith (String "." rest) (PosixPath.basename img_path) = true.
Proof.
  unfold variant_path, PosixPath.splitext.
  destruct (PosixPath.splitext_name "" (PosixPath.basename img_path))
    as [r e] eqn:E. simpl.
  destruct (splitext_name_spec _ _ _ _ E) as [Hb [-> | (rest & -> & Hd)]];
    [simpl; lia |].
  intros Hl. assert (rest ≠ "") as Hne by (intros ->; simpl in Hl; lia).
  assert (img_path = (PosixPath.head img_path +:+ r) +:+ String "." rest) as Hp
    by (by rewrite app_assoc, <- Hb, head_basename).
  split.
  - rewrite Hp at 2. by rewrite replace_ext_last_dot.
  - exists (PosixPath.head img_path +:+ r), rest. repeat split; try done.
    rewrite Hb. apply endswith_app.
Qed.

Lemma has_char_app_split (c : ascii) (x y : string) :
  PyStr.has_char c (x +:+ y) = PyStr.has_char c x || PyStr.has_char c y.
Proof.
  induction x as [|a x IH]; sapp; [done |]. simpl.
  by rewrite IH, orb_assoc.
Qed.

Lemma basename_no_sep (p : string) :
  PyStr.has_char PosixPath.sep (PosixPath.basename p) = false.
Proof.
  induction p as [|a p IH]; [done |]. simpl.
  destruct (PyStr.has_char PosixPath.sep p) eqn:Hs; [done |].
  destruct (Ascii.eqb a PosixPath.sep) eqn:Ha; [done |].
  simpl. by rewrite Ha, Hs.
Qed.

(** An end without separator of a path below a directory is an end of the
    part below the directory. *)
Lemma end_below_dir (d t x y : string) :
  d +:+ "/" +:+ t = x +:+ y → PyStr.has_char "/" y = false →
  ∃ t0, t = t0 +:+ y.
Proof.
  revert x. induction d as [|a d IH]; intros x; sapp.
  - destruct x as [|b x]; sapp.
    + intros <-. simpl. discriminate.
    + intros [= _ ->] _. by exists x.
  - destruct x as [|b x]; sapp.
    + intros <-. simpl. rewrite has_char_app. by rewrite orb_true_r.
    + intros [= _ Hd] Hy. by apply (IH x).
Qed.

Lemma lstrip_replace_ext (ext u t0 rest : string) :
  PyStr.lstrip "/" u = t0 +:+ String "." rest →
  rest ≠ "" → PyStr.has_char "." rest = false →
  PyStr.lstrip "/" (replace_ext ext u) = t0 +:+ "." +:+ ext.
Proof.
  intros Hu Hne Hd. induction u as [|a u IH].
  { destruct t0; sapp; discriminate. }
  simpl in Hu. destruct (Ascii.eqb a "/") eqn:Ha.
  - apply Ascii.eqb_eq in Ha. subst a. simpl. by apply IH.
  - rewrite Hu, replace_ext_last_dot by done.
    destruct t0 as [|b t0]; sapp; [done |].
    injection Hu as <- _. simpl. by rewrite Ha.
Qed.

Section Variants.

Context `{PyLib}.
Variable self : Generator.

(** X26. The picture pass looks for the file [convert_images] writes.  For
    a reference [u] that begins with a separator, [url_to_local_path]
    gives the path [local]: the output directory joined with [u] less
    its leading separators.  When [os.path.splitext] finds in [local] an
    extension of at least one character after its dot, the path the pass
    tests for a format, that of [u] after the substitution of the
    regular expression, is the name [convert_images] gives the variant
    of the file at [local]. *)
Theorem variant_path_is_what_the_picture_pass_looks_for (u ext : string) :
  PyStr.startswith "/" u = true →
  let local := PosixPath.join (public_dir self) (PyStr.lstrip "/" u) in
  1 < String.length (PosixPath.splitext local).2 →
  url_to_local_path self u = Some (Some local)
  ∧ url_to_local_path self (replace_ext ext u)
    = Some (Some (variant_path local ext)).
Proof.
  intros Hu local Hl.
  split; [unfold url_to_local_path; by rewrite Hu |].
  destruct (variant_path_replace_ext local ext Hl)
    as (-> & stem & rest & Hlocal & Hne & Hd & He).
  assert (PyStr.has_char "/" (String "." rest) = false) as Hs.
  { apply endswith_spec in He as [pre Hb].
    pose proof (basename_no_sep local) as Hn.
    rewrite Hb, has_char_app_split in Hn. by apply orb_false_iff in Hn as [_ ?]. }
  assert (PyStr.startswith "/" (PyStr.lstrip "/" u) = false) as Hrel.
  { destruct (lstrip_head "/" u) as [-> | (a & r & -> & Ha)]; [done |].
    by apply startswith_slash_cons. }
  assert (local = public_dir self +:+ "/" +:+ PyStr.lstrip "/" u) as Hjoin
    by (by apply join_public_dir).
  destruct (end_below_dir (public_dir self) (PyStr.lstrip "/" u) stem
              (String "." rest)) as [t0 Ht0]; [congruence | done |].
  assert (PyStr.startswith "/" (replace_ext ext u) = true) as Hu'.
  { destruct u as [|a u]; [done |]. unfold PyStr.startswith in Hu.
    rewrite prefix_cons in Hu. apply andb_true_iff in Hu as [Ha _].
    apply Ascii.eqb_eq in Ha. subst a. simpl. apply prefix_nil. }
  unfold url_to_local_path. rewrite Hu'.
  rewrite (lstrip_replace_ext ext u t0 rest Ht0 Hne Hd).
  rewrite Hjoin, Ht0, <- !app_assoc.
  rewrite replace_ext_last_dot by done.
  rewrite join_public_dir; [by rewrite !app_assoc |].
  destruct t0 as [|b t0]; sapp; [done |].
  rewrite Ht0 in Hrel. sapp.
  unfold PyStr.startswith in Hrel |- *.
  rewrite prefix_cons, prefix_nil in Hrel |- *. exact Hrel.
Qed.

End Variants.

Lemma variant_path_is_what_the_picture_pass_looks_for_witness :
  let lib := Ref.lib [] [] in
  let u := "/content/images/2024/a.b.jpg" in
  let local := "/home/ghost-static-site-gen/public/content/images/2024/a.b.jpg" in
  url_to_local_path shipped u = Some (Some local)
  ∧ url_to_local_path shipped (replace_ext "avif" u)
    = Some (Some (variant_path local "avif")).
Proof.
  intros lib u local.
  assert (PyStr.startswith "/" u = true) as Hu by reflexivity.
  assert (1 < String.length
                (PosixPath.splitext
                   (PosixPath.join (public_dir shipped) (PyStr.lstrip "/" u))).2)
    as Hl by (vm_compute; lia).
  exact (variant_path_is_what_the_picture_pass_looks_for shipped u "avif" Hu Hl).
Defined.

(** For an image whose name is only an extension the two names differ,
    and for a reference with a query the pass looks at the image itself. *)
Example variant_of_a_name_without_stem :
  let lib := Ref.lib [] [] in
  variant_path "/srv/site/public/.jpg" "webp" = "/srv/site/public/.jpg.webp"
  ∧ replace_ext "webp" "/srv/site/public/.jpg" = "/srv/site/public/.webp"
  ∧ url_to_local_path shipped (replace_ext "webp" "a.jpg?v=1.2")
    = Some (Some "/home/ghost-static-site-gen/public/a.jpg").
Proof. intros lib. repeat split; vm_compute; reflexivity. Qed.

(* ===================================================================== *)
(** ** Replacing twice *)
(* ===================================================================== *)

Lemma prefix_app_cases (p g X : string) :
  String.prefix p (g +:+ X) = true →
  String.prefix p g = true
  ∨ ∃ r, r ≠ "" ∧ p = g +:+ r ∧ String.prefix r X = true.
Proof.
  revert p. induction g as [|c g IH]; intros p; sapp.
  - destruct p as [|a p]; [by left |]. intros Hp. right. by exists (String a p).
  - destruct p as [|a p]; [by left |].
    rewrite !prefix_cons. intros [Ha Hp]%andb_true_iff.
    destruct (IH _ Hp) as [Hg | (r & Hr & -> & HX)].
    + left. by rewrite Ha, Hg.
    + right. exists r. apply Ascii.eqb_eq in Ha. by subst.
Qed.

Lemma prefix_app_l (p g X : string) :
  String.prefix p g = true → String.prefix p (g +:+ X) = true.
Proof.
  intros [r ->]%prefix_spec. apply prefix_spec. exists (r +:+ X).
  by rewrite app_assoc.
Qed.

Lemma overlap_spec (a b x y : string) :
  overlap a b = false → a = x +:+ y → y ≠ "" → String.prefix y b = false.
Proof.
  revert a. induction x as [|c x IH]; intros a Ho; sapp.
  - intros <- Hy. destruct a; [done |]. simpl in Ho.
    by apply orb_false_iff in Ho as [? _].
  - intros -> Hy. simpl in Ho. apply orb_false_iff in Ho as [_ Ho].
    by eapply IH.
Qed.

Lemma contains_false (sub s pre post : string) :
  PyStr.contains sub s = false → s ≠ pre +:+ sub +:+ post.
Proof.
  intros Hc ->. assert (PyStr.contains sub (pre +:+ sub +:+ post) = true);
    [| congruence].
  apply contains_spec. eauto.
Qed.

Section Twice.

Variables old new : string.
Hypothesis Hapart : apart old new = true.

Lemma apart_parts :
  PyStr.contains old new = false ∧ PyStr.contains new old = false
  ∧ overlap old new = false ∧ overlap new old = false.
Proof.
  pose proof Hapart as Ha. unfold apart in Ha.
  repeat (apply andb_true_iff in Ha as [Ha ?%negb_true_iff]).
  apply negb_true_iff in Ha. done.
Qed.

Lemma apart_old_not_empty : old ≠ "".
Proof.
  destruct apart_parts as (Hc & _). intros ->.
  destruct new; simpl in Hc; by rewrite ?prefix_nil in Hc.
Qed.

(** A place where [old] does not start still is none when the text
    after [g] has been replaced. *)
Lemma no_new_start (t g : string) :
  String.prefix old (g +:+ t) = false →
  String.prefix old (g +:+ PyStr.replace_go old new 0 t) = false.
Proof.
  destruct apart_parts as (_ & Hno & Hon & _).
  revert g. induction t as [|b t IH]; intros g Hg; [done |].
  rewrite replace_go_cons.
  destruct (String.prefix old (String b t)) eqn:Hm.
  - apply not_true_is_false. intros Hp.
    apply prefix_app_cases in Hp as [Hp | (r & Hr & Ho & Hp)].
    { apply (prefix_app_l _ _ (String b t)) in Hp. congruence. }
    apply prefix_app_cases in Hp as [Hp | (r' & _ & -> & _)].
    + by rewrite (overlap_spec _ _ _ _ Hon Ho Hr) in Hp.
    + by apply (contains_false _ _ g r') in Hno.
  - replace (g +:+ String b (PyStr.replace_go old new 0 t))
      with ((g +:+ String b "") +:+ PyStr.replace_go old new 0 t)
      by (by rewrite app_assoc).
    apply IH. by rewrite app_assoc.
Qed.

(** [old] does not start in an end of [new], whatever follows. *)
Lemma no_start_in_new (x y X : string) :
  new = x +:+ y → y ≠ "" → String.prefix old (y +:+ X) = false.
Proof.
  destruct apart_parts as (Hon & _ & _ & Hno).
  intros Hn Hy. apply not_true_is_false. intros Hp.
  apply prefix_app_cases in Hp as [[r ->]%prefix_spec | (r & _ & Ho & _)].
  - apply (contains_false _ _ x r) in Hon. by rewrite Hn in Hon.
  - pose proof (overlap_spec _ _ _ _ Hno Hn Hy) as Hf.
    assert (String.prefix y old = true); [| congruence].
    apply prefix_spec. eauto.
Qed.

Lemma clean_after_new (n X : string) :
  (∀ x y, n = x +:+ y → y ≠ "" → String.prefix old (y +:+ X) = false) →
  PyStr.contains old X = false → PyStr.contains old (n +:+ X) = false.
Proof.
  intros Hn HX. induction n as [|a n IH]; [done |].
  rewrite app_cons, contains_cons. apply orb_false_iff. split.
  - rewrite <- app_cons. by apply (Hn "").
  - apply IH. intros x y -> Hy. by apply (Hn (String a x)).
Qed.

Lemma replace_go_clean (s : string) (k : nat) :
  PyStr.contains old (PyStr.replace_go old new k s) = false.
Proof.
  pose proof apart_old_not_empty as Hne.
  revert k. induction s as [|a s IH]; intros k.
  { assert (String.prefix old "" = false) as Hp by (by destruct old).
    change (PyStr.replace_go old new k "") with "".
    by rewrite contains_nil, Hp. }
  destruct k as [|k]; [| apply IH].
  rewrite replace_go_cons. destruct (String.prefix old (String a s)) eqn:Hm.
  - apply clean_after_new; [| apply IH].
    intros x y. apply no_start_in_new.
  - rewrite contains_cons, IH, orb_false_r.
    apply (no_new_start s (String a "")). by rewrite app_cons.
Qed.

Lemma replace_clean (s : string) :
  PyStr.contains old (PyStr.replace old new s) = false.
Proof.
  pose proof apart_old_not_empty as Hne.
  pose proof (replace_go_clean s 0) as Hg. unfold PyStr.replace.
  by destruct old.
Qed.

End Twice.

Section Idempotence.

Context `{PyLib}.
Variable self : Generator.

Lemma update_all_urls_twice (text : string) :
  apart (source_url self) (target_url self) = true →
  PyStr.contains (source_url self) (update_all_urls self text) = false
  ∧ update_all_urls self (update_all_urls self text) = update_all_urls self text.
Proof.
  intros Ha.
  assert (PyStr.contains (source_url self) (update_all_urls self text) = false)
    as Hc by (by apply replace_clean).
  split; [done |]. unfold update_all_urls at 1.
  by apply replace_without_occurrence.
Qed.

(** X29. When the source URL and the target URL are apart (neither occurs in
    the other and no end of one is a beginning of the other),
    [update_all_urls] leaves no occurrence of the source URL, and a
    second application changes nothing. *)
Theorem update_all_urls_is_idempotent (text : string) :
  apart (source_url self) (target_url self) = true →
  PyStr.contains (source_url self) (update_all_urls self text) = false
  ∧ update_all_urls self (update_all_urls self text) = update_all_urls self text.
Proof. apply update_all_urls_twice. Qed.

(** X30. With such URLs, a second run of [update_urls_in_all_files] over a
    tree without HTML files writes nothing and leaves the tree as the
    first run left it. *)
Theorem rewrite_pass_is_idempotent_without_html (fs : gmap string string) :
  apart (source_url self) (target_url self) = true →
  (∀ p, is_Some (fs !! p) → FS.below (public_dir self) p = true →
        file_extension p ≠ ".html") →
  let once := update_urls_in_all_files self fs in
  update_urls_in_all_files self once.1 = (once.1, []).
Proof.
  intros Ha Hno once. unfold update_urls_in_all_files at 1.
  apply foldl_update_fixed. intros [p c] [Hp Hb]%walk_elem Hh. simpl in *.
  assert (∃ c0, fs !! p = Some c0 ∧ c = updated_content self p c0)
    as (c0 & Hp0 & ->).
  { destruct (fs !! p) as [c0|] eqn:E.
    - exists c0. split; [done |].
      unfold once in Hp. rewrite (update_lookup self fs p c0) in Hp by done.
      by injection Hp.
    - unfold once, update_urls_in_all_files in Hp.
      rewrite foldl_update_other in Hp; [simpl in Hp; congruence |].
      intros [[p' c'] [-> [Hp' _]%walk_elem]]%list_elem_of_fmap.
      simpl in *. congruence. }
  assert (String.eqb (file_extension p) ".html" = false) as Hx.
  { apply String.eqb_neq, Hno; [by rewrite Hp0 | done]. }
  unfold updated_content. rewrite Hx.
  by apply update_all_urls_twice.
Qed.

End Idempotence.

Lemma update_all_urls_is_idempotent_witness :
  let text := "<a href='http://helium:2368/about/'>http://helium:2368</a>" in
  PyStr.contains (source_url shipped) (update_all_urls shipped text) = false
  ∧ update_all_urls shipped (update_all_urls shipped text)
    = update_all_urls shipped text.
Proof.
  intros text.
  assert (apart (source_url shipped) (target_url shipped) = true) as Ha
    by (vm_compute; reflexivity).
  exact (update_all_urls_is_idempotent shipped text Ha).
Defined.

Lemma rewrite_pass_is_idempotent_without_html_witness :
  let lib := Ref.lib [] [] in
  let once := update_urls_in_all_files shipped shipped_tree in
  update_urls_in_all_files shipped once.1 = (once.1, []).
Proof.
  intros lib once.
  assert (apart (source_url shipped) (target_url shipped) = true) as Ha
    by (vm_compute; reflexivity).
  assert (∀ p, is_Some (shipped_tree !! p) →
               FS.below (public_dir shipped) p = true →
               file_extension p ≠ ".html") as Hno.
  { intros p [c Hc] _. unfold shipped_tree in Hc.
    apply lookup_singleton_Some in Hc as [<- _]. vm_compute. discriminate. }
  exact (rewrite_pass_is_idempotent_without_html (H:=lib) shipped shipped_tree
           Ha Hno).
Defined.
(* ===================================================================== *)
(** ** The crawl as a whole *)
(* ===================================================================== *)

Section CrawlClaims.

Context `{PyLib} `{Network}.
Variable self : Generator.

Lemma initial_agrees : dispatch_log_agrees Ref.initial.
Proof. split; [done | constructor]. Qed.

Lemma scrape_url_outcome (fuel : nat) (url : string) (s : State) :
  ∃ s', scrape_url self fuel url s = Done tt s'
        ∨ scrape_url self fuel url s = OutOfFuel s'.
Proof.
  destruct fuel as [|n]; [exists s; by right |].
  apply scrape_url_body_outcome.
Qed.

Lemma frontier_outcome (fuel : nat) (urls : list string) (s : State) :
  ∃ s', for_each urls (scrape_url self fuel) s = Done tt s'
        ∨ for_each urls (scrape_url self fuel) s = OutOfFuel s'.
Proof.
  revert s. induction urls as [|u urls IH]; intros s; simpl.
  { exists s. by left. }
  unfold bind. destruct (scrape_url_outcome fuel u s) as [s1 [-> | ->]].
  - apply IH.
  - exists s1. by right.
Qed.

Lemma image_scans_keep_visits (url : string) :
  respects keeps_visits (λ _ _, False) (scrape_image_sizes self url)
  ∧ respects keeps_visits (λ _ _, False) (scrape_meta_images self url).
Proof.
  split;
    [apply (sound_scrape_image_sizes self (λ _, True))
    |apply (sound_scrape_meta_images self (λ _, True))]; try done.
  all: try (intros; by eapply keeps_visits_trans).
  all: try (intros; by apply keeps_visits_pushed).
  all: intros at_ u s0 Hat _; apply keeps_visits_pushed; [| done];
    intros u' [= -> _]; done.
Qed.

(** C1. Over a whole run, however it ends, the requests [scrape_url]
    itself sends go to pairwise distinct URLs, and these are the visited
    URLs: the cardinality of the visited set is the number of those
    requests.  The requests of the image scans are not counted in it. *)
Theorem scrape_url_requests_each_url_once (fuel : nat) :
  let s' := final (scrape_site self fuel Ref.initial) in
  NoDup (dispatched (trace s'))
  ∧ (∀ u, u ∈ visited_urls s' ↔ u ∈ dispatched (trace s'))
  ∧ size (visited_urls s') = length (dispatched (trace s')).
Proof.
  intros s'.
  pose proof (frame_scrape_site self _ _ _ (agrees_frame self) fuel I
                (λ _ _ _ _, I) Ref.initial) as Hg.
  assert (dispatch_log_agrees s') as [Hv Hnd].
  { unfold s'. destruct (scrape_site self fuel Ref.initial);
      apply Hg, initial_agrees. }
  split; [done |]. split.
  - intros u. rewrite Hv. apply elem_of_list_to_set.
  - rewrite Hv. by apply size_list_to_set.
Qed.

(** C6. A fetch that ends in a transport failure or in a status from 400
    to 599 does not abort the crawl: [scrape_url] logs the error, writes
    no file, pauses and returns; what follows it in the caller runs from
    the state it left, and a crawl of any further URLs from that state
    lets no exception out either. *)
Theorem failed_fetch_does_not_abort_the_crawl
    (n : nat) (url : string) (s : State) :
  url ∉ visited_urls s →
  (requests_get (length (trace s)) url = TransportFailure
   ∨ ∃ r, requests_get (length (trace s)) url = Responded r
          ∧ is_error_status (status_code r) = true) →
  ∃ s1,
    scrape_url self (S n) url s = Done tt s1
    ∧ trace s1 = Sleep 100 :: Log ERROR "Error fetching" url
                 :: Request AtScrapeUrl url :: trace s
    ∧ fs s1 = fs s
    ∧ (∀ rest : M unit, (scrape_url self (S n) url ;;; rest) s = rest s1)
    ∧ (∀ fuel urls,
         ∃ s2, for_each urls (scrape_url self fuel) s1 = Done tt s2
               ∨ for_each urls (scrape_url self fuel) s1 = OutOfFuel s2).
Proof.
  intros Hv Hf.
  assert (scrape_url self (S n) url s
          = Done tt (mkState ({[url]} ∪ visited_urls s) (file_urls s) (fs s)
                       (Sleep 100 :: Log ERROR "Error fetching" url
                        :: Request AtScrapeUrl url :: trace s))) as Hd.
  { simpl. rewrite scrape_url_body_new by done.
    destruct Hf as [-> | (r & -> & He)]; [done |].
    unfold on_response, bind, raise_for_status. by rewrite He. }
  eexists. split; [exact Hd |]. split; [done |]. split; [done |]. split.
  - intros rest. unfold bind at 1. by rewrite Hd.
  - intros fuel urls. apply frontier_outcome.
Qed.

(** C8. The fetch of [scrape_url] itself is followed by the delay before
    the call returns: a call on a new URL that returns ends with the
    pause, after its request, and it has paused once for every request
    [scrape_url] sent, nested calls counted.  The fetches of the image
    scans add no pause. *)
Theorem scrape_url_pauses_after_its_own_fetch
    (n : nat) (url : string) (s s1 : State) :
  url ∉ visited_urls s →
  scrape_url self (S n) url s = Done tt s1 →
  (∃ s0, s1 = slept s0 ∧ Request AtScrapeUrl url ∈ trace s0)
  ∧ length (dispatched (trace s1)) + sleeps (trace s)
    = length (dispatched (trace s)) + sleeps (trace s1)
  ∧ (∀ u s2,
       sleeps (trace (final (scrape_image_sizes self u s2))) = sleeps (trace s2)
       ∧ sleeps (trace (final (scrape_meta_images self u s2)))
         = sleeps (trace s2)).
Proof.
  intros Hv Hd. split; [| split].
  - simpl in Hd. rewrite scrape_url_body_new in Hd by done.
    destruct (requests_get (length (trace s)) url) as [|r].
    + injection Hd as <-. eexists. split; [reflexivity |]. simpl. set_solver.
    + pose proof (frame_on_response self _ _ _ (grows_frame self)
                    (scrape_url self n) url r
                    (λ u _, frame_scrape_url self _ _ _ (grows_frame self) n u I)
                    I (dispatch url s)) as Hg.
      destruct (on_response self (scrape_url self n) url r (dispatch url s))
        as [[] s0|[] s0|s0] eqn:E; try done; injection Hd as <-;
        (eexists; split; [reflexivity |]).
      all: simpl; try (apply list_elem_of_further).
      all: eapply grows_elem; [exact Hg |]; simpl; set_solver.
  - pose proof (frame_scrape_url self _ _ _ (pauses_frame self) (S n) url I s)
      as Hp.
    by rewrite Hd in Hp.
  - intros u s2. destruct (image_scans_keep_visits u) as [Hi Hm].
    specialize (Hi s2). specialize (Hm s2).
    destruct (scrape_image_sizes self u s2), (scrape_meta_images self u s2);
      try done.
    all: destruct Hi as (_ & _ & Hi), Hm as (_ & _ & Hm); done.
Qed.

End CrawlClaims.

(** On [small_site] the home page is requested three times, by
    [scrape_url] and by the two image scans, and the run sends eleven
    requests for nine visited URLs. *)
Lemma html_page_is_requested_three_times :
  let url := "http://helium:2368" in
  let s' := final (scrape_site (H:=small_lib) (H0:=small_net) shipped 3
                     Ref.initial) in
  count_occ string_dec (requested (trace s')) url = 3
  ∧ size (visited_urls s') = 9
  ∧ length (requested (trace s')) = 11
  ∧ ¬ (NoDup (requested (trace s'))
       ∧ size (visited_urls s') = length (requested (trace s'))).
Proof.
  intros url s'.
  assert (size (visited_urls s') = 9) as Hv by (vm_compute; reflexivity).
  assert (length (requested (trace s')) = 11) as Hr by (vm_compute; reflexivity).
  split; [vm_compute; reflexivity |]. split; [done |]. split; [done |].
  intros [_ He]. rewrite Hv, Hr in He. discriminate.
Qed.

(** C2. On a home page whose image lists a second size in [srcset] by a
    relative reference, the reference joined to the URL of the page is
    accepted by [is_same_domain], but the scans test it as written: the
    second size is never requested, while the source of the image, which
    [process_html] joins to the URL of the page first, is. *)
Theorem srcset_reference_is_tested_as_written :
  let page := "http://helium:2368" in
  let s' := final (scrape_site (H:=responsive_lib) (H0:=responsive_net) shipped 3
                     Ref.initial) in
  "/logo-2x.png" ∈ image_references (H:=responsive_lib) responsive_tree
  ∧ urljoin (PyLib:=responsive_lib) page "/logo-2x.png"
    = Some "http://helium:2368/logo-2x.png"
  ∧ is_same_domain (H:=responsive_lib) shipped "http://helium:2368/logo-2x.png"
    = Some true
  ∧ is_same_domain (H:=responsive_lib) shipped "/logo-2x.png" = Some false
  ∧ "http://helium:2368/logo.png" ∈ requested (trace s')
  ∧ "http://helium:2368/logo-2x.png" ∉ requested (trace s').
Proof.
  intros page s'.
  assert (requested (trace s')
          = ["http://helium:2368/sitemap-tags.xml";
             "http://helium:2368/sitemap-posts.xml";
             "http://helium:2368/sitemap-pages.xml";
             "http://helium:2368/sitemap-authors.xml";
             "http://helium:2368/sitemap.xml"; "http://helium:2368/robots.txt";
             "http://helium:2368/favicon.ico"; "http://helium:2368";
             "http://helium:2368"; "http://helium:2368/logo.png";
             "http://helium:2368"]) as -> by (vm_compute; reflexivity).
  assert (image_references (H:=responsive_lib) responsive_tree
          = ["/logo.png"; "/logo-2x.png"]) as -> by (vm_compute; reflexivity).
  split; [set_solver |]. split; [vm_compute; reflexivity |].
  split; [vm_compute; reflexivity |]. split; [vm_compute; reflexivity |].
  split; [set_solver |].
  rewrite !not_elem_of_cons. repeat split; try discriminate.
  apply not_elem_of_nil.
Qed.

Lemma failed_fetch_does_not_abort_the_crawl_witness :
  let url := "http://helium:2368/favicon.ico" in
  ∃ s1,
    scrape_url (H:=small_lib) (H0:=small_net) shipped 1 url Ref.initial
    = Done tt s1
    ∧ trace s1 = [Sleep 100; Log ERROR "Error fetching" url;
                  Request AtScrapeUrl url]
    ∧ fs s1 = ∅
    ∧ (∀ rest : M unit,
         (scrape_url (H:=small_lib) (H0:=small_net) shipped 1 url ;;; rest)
           Ref.initial = rest s1)
    ∧ (∀ fuel urls,
         ∃ s2, for_each urls (scrape_url (H:=small_lib) (H0:=small_net) shipped
                                fuel) s1 = Done tt s2
               ∨ for_each urls (scrape_url (H:=small_lib) (H0:=small_net) shipped
                                  fuel) s1 = OutOfFuel s2).
Proof.
  intros url.
  pose (r := mkResponse 404 "text/html" "Not found" "Not found").
  assert (url ∉ visited_urls Ref.initial) as Hv by apply not_elem_of_empty.
  assert (requests_get (Network:=small_net) (length (trace Ref.initial)) url
          = TransportFailure
          ∨ ∃ r, requests_get (Network:=small_net) (length (trace Ref.initial)) url
                 = Responded r
                 ∧ is_error_status (status_code r) = true) as Hf.
  { right. exists r. split; vm_compute; reflexivity. }
  exact (failed_fetch_does_not_abort_the_crawl (H:=small_lib) (H0:=small_net)
           shipped 0 url Ref.initial Hv Hf).
Defined.

(** On [small_site] the answer 304 for [robots.txt] is not an error for
    [raise_for_status]: nothing is logged as an error and the body is
    saved. *)
Lemma not_modified_is_saved_without_an_error :
  let url := "http://helium:2368/robots.txt" in
  let s' := final (scrape_url (H:=small_lib) (H0:=small_net) shipped 1 url
                     Ref.initial) in
  requests_get (Network:=small_net) 0 url
  = Responded (mkResponse 304 "text/plain" "" "User-agent: *")
  ∧ trace s'
    = [Sleep 100;
       Log INFO "Saved" "/home/ghost-static-site-gen/public/robots.txt";
       Log INFO "Saving file with content-type" url;
       Request AtScrapeUrl url]
  ∧ fs s' !! "/home/ghost-static-site-gen/public/robots.txt"
    = Some "User-agent: *"
  ∧ ¬ (∃ msg arg, Log ERROR msg arg ∈ trace s').
Proof.
  intros url s'.
  assert (trace s'
          = [Sleep 100;
             Log INFO "Saved" "/home/ghost-static-site-gen/public/robots.txt";
             Log INFO "Saving file with content-type" url;
             Request AtScrapeUrl url]) as Ht by (vm_compute; reflexivity).
  split; [vm_compute; reflexivity |]. split; [done |].
  split; [vm_compute; reflexivity |].
  intros (msg & arg & Hin). rewrite Ht in Hin.
  repeat (apply elem_of_cons in Hin as [Hin | Hin]; [discriminate |]).
  by apply elem_of_nil in Hin.
Qed.

Lemma scrape_url_pauses_after_its_own_fetch_witness :
  let url := "http://helium:2368/gallery/" in
  let s1 := final (scrape_url (H:=gallery_lib) (H0:=gallery_net) shipped 3 url
                     Ref.initial) in
  (∃ s0, s1 = slept s0 ∧ Request AtScrapeUrl url ∈ trace s0)
  ∧ length (dispatched (trace s1)) + sleeps (trace Ref.initial)
    = length (dispatched (trace Ref.initial)) + sleeps (trace s1)
  ∧ (∀ u s2,
       sleeps (trace (final (scrape_image_sizes (H:=gallery_lib)
                               (H0:=gallery_net) shipped u s2)))
       = sleeps (trace s2)
       ∧ sleeps (trace (final (scrape_meta_images (H:=gallery_lib)
                                 (H0:=gallery_net) shipped u s2)))
         = sleeps (trace s2)).
Proof.
  intros url s1.
  assert (url ∉ visited_urls Ref.initial) as Hv by apply not_elem_of_empty.
  assert (scrape_url (H:=gallery_lib) (H0:=gallery_net) shipped 3 url Ref.initial
          = Done tt s1) as Hd by (vm_compute; reflexivity).
  exact (scrape_url_pauses_after_its_own_fetch (H:=gallery_lib) (H0:=gallery_net)
           shipped 2 url Ref.initial s1 Hv Hd).
Defined.

(** On the gallery the crawl sends five requests and pauses twice: the
    three requests of the image scans are followed by no pause. *)
Lemma image_scans_fetch_without_a_pause :
  let url := "http://helium:2368/gallery/" in
  let s1 := final (scrape_url (H:=gallery_lib) (H0:=gallery_net) shipped 3 url
                     Ref.initial) in
  let scan := final (scrape_image_sizes (H:=gallery_lib) (H0:=gallery_net)
                       shipped url Ref.initial) in
  length (requested (trace s1)) = 5
  ∧ sleeps (trace s1) = 2
  ∧ sleeps (trace scan) = 0
  ∧ trace scan
    = [Log INFO "Scraped image" "http://helium:2368/logo.png";
       Log INFO "Saved" "/home/ghost-static-site-gen/public/logo.png";
       Request AtImageSizes "http://helium:2368/logo.png";
       Request AtImageSizes url].
Proof. intros url s1 scan. repeat split; vm_compute; reflexivity. Qed.

(* ===================================================================== *)
(** ** The passes as a whole *)
(* ===================================================================== *)

Section PassClaims.

Context `{PyLib}.
Variable self : Generator.




End PassClaims.





